(** * Team-KPIs: performance classification and action-item derivation

    A shallow embedding of [src/utils/performanceCategories.ts] and
    [src/utils/actionItemsGenerator.ts] (together with the target lookup of
    the annual report in [src/components/Dashboard.tsx]), and the properties
    of the classification engine proved over it.

    Numbers.  The database columns behind a performance record and a target
    are SQL integers, so counters and targets are [Z].  Every quotient the
    code forms is a JavaScript Number: it is computed here in IEEE-754
    binary64 with the executable reference semantics of [SpecFloat]
    ([prec = 53], [emax = 1024]), then rounded by [Math.round]. *)

From Stdlib Require Import ZArith List Ascii String Lia SpecFloat.
From stdpp Require Import base list strings pretty gmap.

Local Open Scope string_scope.
Local Open Scope Z_scope.

(** ** JavaScript numbers and built-ins *)

Module JS.

Definition prec : Z := 53.
Definition emax : Z := 1024.

(** A Number, as a binary64 value. *)
Definition number := spec_float.

(** The Number nearest to an integer (round to nearest, ties to even). *)
Definition of_Z (z : Z) : number := binary_normalize prec emax z 0 false.

Definition add : number -> number -> number := SFadd prec emax.
Definition sub : number -> number -> number := SFsub prec emax.
Definition mul : number -> number -> number := SFmul prec emax.
Definition div : number -> number -> number := SFdiv prec emax.

(** What [Math.round] returns: an integer, or one of the three special
    values it lets through.  [Math.round] can also return [-0]; every use
    of a rounded value in the modelled code (comparison with a constant,
    template-string formatting, addition) treats [-0] as [0], so both are
    [Int 0]. *)
Inductive rounded : Type :=
| Int (z : Z)
| NaN
| PosInf
| NegInf.

(** [Math.round x]: the integer nearest to [x], a tie going towards
    [+Infinity], i.e. [floor (x + 1/2)] computed exactly. *)
Definition Math_round (x : number) : rounded :=
  match x with
  | S754_zero _ => Int 0
  | S754_infinity false => PosInf
  | S754_infinity true => NegInf
  | S754_nan => NaN
  | S754_finite s m e =>
      let v := if s then Z.neg m else Z.pos m in
      match e with
      | Zneg k => Int ((2 * v + 2 ^ Z.pos k) / (2 * 2 ^ Z.pos k))
      | _ => Int (v * 2 ^ e)
      end
  end.

(** A rounded value read back as a Number. *)
Definition to_number (r : rounded) : number :=
  match r with
  | Int z => of_Z z
  | NaN => S754_nan
  | PosInf => S754_infinity false
  | NegInf => S754_infinity true
  end.

(** [r <= k], [r > k], [r < k] and [r >= k] for an integer constant [k];
    every comparison with [NaN] is false. *)
Definition leb (r : rounded) (k : Z) : bool :=
  match r with
  | Int z => z <=? k
  | NegInf => true
  | NaN | PosInf => false
  end.

Definition gtb (r : rounded) (k : Z) : bool :=
  match r with
  | Int z => k <? z
  | PosInf => true
  | NaN | NegInf => false
  end.

Definition ltb (r : rounded) (k : Z) : bool :=
  match r with
  | Int z => z <? k
  | NegInf => true
  | NaN | PosInf => false
  end.

(** Number-to-string conversion inside a template literal.  The decimal
    rendering of an integer is the one of JavaScript below [10^21]. *)
Definition toString (r : rounded) : string :=
  match r with
  | Int z => pretty z
  | NaN => "NaN"
  | PosInf => "Infinity"
  | NegInf => "-Infinity"
  end.

(** [String.prototype.toLowerCase] on the ASCII range. *)
Definition lower_ascii (c : ascii) : ascii :=
  let n := N_of_ascii c in
  if ((65 <=? n) && (n <=? 90))%N then ascii_of_N (n + 32) else c.

Fixpoint toLowerCase (s : string) : string :=
  match s with
  | EmptyString => EmptyString
  | String c s' => String (lower_ascii c) (toLowerCase s')
  end.

(** [parseInt s] without a radix argument: white space is skipped, a sign
    is read, a [0x] prefix selects radix 16, and the longest prefix of
    digits is converted; [None] stands for the [NaN] returned when there
    is no digit. *)
Definition is_white (c : ascii) : bool :=
  let n := N_of_ascii c in
  ((n =? 32) || ((9 <=? n) && (n <=? 13)))%N.

Fixpoint skip_white (s : string) : string :=
  match s with
  | String c s' => if is_white c then skip_white s' else s
  | EmptyString => s
  end.

Definition digit_val (radix : Z) (c : ascii) : option Z :=
  let n := Z.of_N (N_of_ascii c) in
  let d :=
    if (48 <=? n) && (n <=? 57) then n - 48
    else if (97 <=? n) && (n <=? 122) then n - 87
    else if (65 <=? n) && (n <=? 90) then n - 55
    else radix in
  if d <? radix then Some d else None.

Fixpoint parse_digits (radix : Z) (s : string) (acc : option Z) : option Z :=
  match s with
  | EmptyString => acc
  | String c s' =>
      match digit_val radix c with
      | Some d => parse_digits radix s' (Some (radix * default 0 acc + d))
      | None => acc
      end
  end.

Definition parseInt (s : string) : option Z :=
  let s := skip_white s in
  let '(neg, s) :=
    match s with
    | String "-" s' => (true, s')
    | String "+" s' => (false, s')
    | _ => (false, s)
    end in
  let '(radix, s) :=
    match s with
    | String "0" (String "x" s') | String "0" (String "X" s') => (16, s')
    | _ => (10, s)
    end in
  match parse_digits radix s None with
  | Some n => Some (if neg : bool then - n else n)
  | None => None
  end.

(** [new Date(year, monthIndex).getTime()], with [None] for the [NaN] of an
    invalid date.  The time value is counted here in months instead of
    milliseconds: the millisecond value of the first instant of a month is
    strictly increasing in [12 * year + monthIndex], and the only use the
    code makes of it is the sign of a difference or a comparison.  A year
    from 0 to 99 denotes 1900 + year, as in JavaScript.  A time value lies
    within 100,000,000 days of 1 January 1970, that is from 20 April -271821
    to 13 September 275760: the first instant of a month is a date from May
    -271821 to September 275760, and [NaN] before and after. *)
Definition first_month : Z := 12 * (-271821) + 4.
Definition last_month : Z := 12 * 275760 + 8.

Definition Date_getTime (year : Z) (monthIndex : option Z) : option Z :=
  match monthIndex with
  | Some m =>
      let y := if (0 <=? year) && (year <=? 99) then 1900 + year else year in
      let t := 12 * y + m in
      if (first_month <=? t) && (t <=? last_month) then Some t else None
  | None => None
  end.

(** [Array.prototype.sort] with a comparator: a stable sort (ECMAScript
    2019), modelled as the stable insertion sort.  The comparator returns
    a Number, [None] being [NaN], which [sort] reads as [+0].  For a
    comparator that is not consistent, as the one of [analyzeTrend] is on a
    list that mixes invalid dates with valid ones, ECMAScript leaves the order
    to the implementation: what is proved below about the order of a sorted
    list is proved for a consistent comparator. *)
Section Sort.
Context {A : Type} (cmp : A -> A -> option Z).

Definition sort_gt (a b : A) : bool :=
  match cmp a b with
  | Some v => 0 <? v
  | None => false
  end.

Fixpoint sort_insert (x : A) (l : list A) : list A :=
  match l with
  | [] => [x]
  | y :: l' => if sort_gt x y then y :: sort_insert x l' else x :: l
  end.

Fixpoint sort (l : list A) : list A :=
  match l with
  | [] => []
  | x :: l' => sort_insert x (sort l')
  end.

End Sort.

(** An abrupt completion: the only exception the modelled code can meet
    is the [TypeError] of reading a property of [undefined]. *)
Inductive completion (A : Type) : Type :=
| Normal (a : A)
| Throw (e : string).
#[global] Arguments Normal {A} a.
#[global] Arguments Throw {A} e.

Definition bind {A B : Type} (c : completion A) (k : A -> completion B)
  : completion B :=
  match c with
  | Normal a => k a
  | Throw e => Throw e
  end.

(** [xs.forEach(f)] for a callback that updates an accumulator and may
    throw: the first exception ends the iteration. *)
Fixpoint forEach {A S : Type} (f : S -> A -> completion S) (xs : list A)
  (s : S) : completion S :=
  match xs with
  | [] => Normal s
  | x :: xs' => bind (f s x) (forEach f xs')
  end.

End JS.

(** ** Data model ([src/lib/supabase.ts]) *)

Module PerformanceRecord.
(** The optional joined [analysts] field is not read by the modelled code
    and is left out. *)
Record t : Type := {
  id : string;
  analyst_id : string;
  month : string;
  year : Z;
  outreaches : Z;
  live_links : Z;
  high_da_links : Z;
  content_distribution : Z;
  new_blogs : Z;
  blog_optimizations : Z;
  top_5_keywords : Z;
  created_at : string;
  updated_at : string
}.
End PerformanceRecord.

Module KPITarget.
Record t : Type := {
  id : string;
  kpi_name : string;
  monthly_target : Z;
  annual_target : Z;
  role : string;
  created_at : string
}.
End KPITarget.

(** The seven metric keys, i.e. the values of [kpiName as keyof
    PerformanceRecord] that the code iterates over. *)
Inductive Kpi : Type :=
| outreaches
| live_links
| high_da_links
| content_distribution
| new_blogs
| blog_optimizations
| top_5_keywords.

Definition kpi_key (k : Kpi) : string :=
  match k with
  | outreaches => "outreaches"
  | live_links => "live_links"
  | high_da_links => "high_da_links"
  | content_distribution => "content_distribution"
  | new_blogs => "new_blogs"
  | blog_optimizations => "blog_optimizations"
  | top_5_keywords => "top_5_keywords"
  end.

(** [record[kpiName]]. *)
Definition get_kpi (r : PerformanceRecord.t) (k : Kpi) : Z :=
  match k with
  | outreaches => PerformanceRecord.outreaches r
  | live_links => PerformanceRecord.live_links r
  | high_da_links => PerformanceRecord.high_da_links r
  | content_distribution => PerformanceRecord.content_distribution r
  | new_blogs => PerformanceRecord.new_blogs r
  | blog_optimizations => PerformanceRecord.blog_optimizations r
  | top_5_keywords => PerformanceRecord.top_5_keywords r
  end.

(** The array literal [kpiNames] of both source files. *)
Definition kpiNames : list Kpi :=
  [ outreaches; live_links; high_da_links; content_distribution; new_blogs;
    blog_optimizations; top_5_keywords ].

(** [targets.find(t => t.kpi_name === kpiName)]. *)
Definition find_target (targets : list KPITarget.t) (k : Kpi)
  : option KPITarget.t :=
  List.find (fun t => String.eqb (KPITarget.kpi_name t) (kpi_key k)) targets.

(** ** [src/utils/performanceCategories.ts] *)

Module PerformanceCategory.
Record t : Type := {
  name : string;
  color : string;
  bgColor : string;
  textColor : string;
  range : string
}.

(** The value of an out-of-range array read; never produced below. *)
Definition undefined : t :=
  {| name := ""; color := ""; bgColor := ""; textColor := ""; range := "" |}.
End PerformanceCategory.

Definition performanceCategories : list PerformanceCategory.t :=
  [ {| PerformanceCategory.name := "Critical";
       PerformanceCategory.color := "#EF4444";
       PerformanceCategory.bgColor := "bg-red-100";
       PerformanceCategory.textColor := "text-red-800";
       PerformanceCategory.range := "0-66%" |};
    {| PerformanceCategory.name := "Bad";
       PerformanceCategory.color := "#F59E0B";
       PerformanceCategory.bgColor := "bg-amber-100";
       PerformanceCategory.textColor := "text-amber-800";
       PerformanceCategory.range := "67-83%" |};
    {| PerformanceCategory.name := "Target";
       PerformanceCategory.color := "#10B981";
       PerformanceCategory.bgColor := "bg-emerald-100";
       PerformanceCategory.textColor := "text-emerald-800";
       PerformanceCategory.range := "84-119%" |};
    {| PerformanceCategory.name := "Good";
       PerformanceCategory.color := "#3B82F6";
       PerformanceCategory.bgColor := "bg-blue-100";
       PerformanceCategory.textColor := "text-blue-800";
       PerformanceCategory.range := "120%+" |} ].

Definition category_at (i : nat) : PerformanceCategory.t :=
  nth i performanceCategories PerformanceCategory.undefined.

Definition getPerformanceCategory (achievementPercentage : JS.rounded)
  : PerformanceCategory.t :=
  if JS.leb achievementPercentage 66 then category_at 0
  else if JS.leb achievementPercentage 83 then category_at 1
  else if JS.leb achievementPercentage 119 then category_at 2
  else category_at 3.

(** [Math.round((actual / target) * 100)] on two integer fields. *)
Definition achievement (actual target : Z) : JS.rounded :=
  JS.Math_round (JS.mul (JS.div (JS.of_Z actual) (JS.of_Z target)) (JS.of_Z 100)).

Module Stats.
Record t : Type := {
  critical : Z;
  bad : Z;
  target : Z;
  good : Z;
  total : Z
}.
End Stats.

(** The body of the inner [forEach] callback of
    [getPerformanceCategoryStats]. *)
Definition stats_step (targets : list KPITarget.t) (record : PerformanceRecord.t)
  (stats : Stats.t) (kpiName : Kpi) : Stats.t :=
  match find_target targets kpiName with
  | Some target =>
      if 0 <? KPITarget.monthly_target target then
        let achievement :=
          achievement (get_kpi record kpiName) (KPITarget.monthly_target target) in
        let category := getPerformanceCategory achievement in
        let stats :=
          {| Stats.critical := Stats.critical stats;
             Stats.bad := Stats.bad stats;
             Stats.target := Stats.target stats;
             Stats.good := Stats.good stats;
             Stats.total := Stats.total stats + 1 |} in
        let name := PerformanceCategory.name category in
        if String.eqb name "Critical" then
          {| Stats.critical := Stats.critical stats + 1;
             Stats.bad := Stats.bad stats;
             Stats.target := Stats.target stats;
             Stats.good := Stats.good stats;
             Stats.total := Stats.total stats |}
        else if String.eqb name "Bad" then
          {| Stats.critical := Stats.critical stats;
             Stats.bad := Stats.bad stats + 1;
             Stats.target := Stats.target stats;
             Stats.good := Stats.good stats;
             Stats.total := Stats.total stats |}
        else if String.eqb name "Target" then
          {| Stats.critical := Stats.critical stats;
             Stats.bad := Stats.bad stats;
             Stats.target := Stats.target stats + 1;
             Stats.good := Stats.good stats;
             Stats.total := Stats.total stats |}
        else if String.eqb name "Good" then
          {| Stats.critical := Stats.critical stats;
             Stats.bad := Stats.bad stats;
             Stats.target := Stats.target stats;
             Stats.good := Stats.good stats + 1;
             Stats.total := Stats.total stats |}
        else stats
      else stats
  | None => stats
  end.

Definition getPerformanceCategoryStats (records : list PerformanceRecord.t)
  (targets : list KPITarget.t) : Stats.t :=
  let stats :=
    {| Stats.critical := 0; Stats.bad := 0; Stats.target := 0;
       Stats.good := 0; Stats.total := 0 |} in
  fold_left
    (fun stats record => fold_left (stats_step targets record) kpiNames stats)
    records stats.

(** ** [src/utils/actionItemsGenerator.ts] *)

Inductive Severity : Type :=
| critical
| warning
| info
| success.

Inductive Trend : Type :=
| improving
| declining
| stable.

Definition trend_string (t : Trend) : string :=
  match t with
  | improving => "improving"
  | declining => "declining"
  | stable => "stable"
  end.

Module ActionItem.
Record t : Type := {
  id : string;
  kpi : string;
  severity : Severity;
  title : string;
  description : string;
  recommendations : list string;
  priority : Z
}.
End ActionItem.

Module PerformanceTrend.
Record t : Type := {
  kpi : string;
  current : Z;
  previous : Z;
  trend : Trend;
  changePercentage : JS.rounded
}.
End PerformanceTrend.

Module Recommendation.
(** A cell of [KPI_RECOMMENDATIONS]. *)
Record t : Type := {
  title : string;
  recommendations : list string
}.
End Recommendation.

Definition outreaches_critical : Recommendation.t :=
  {| Recommendation.title :=
       "Outreach Performance Critical - Immediate Action Required";
     Recommendation.recommendations :=
       [ "Review and update outreach templates for better engagement";
         "Analyze competitor outreach strategies and adapt successful approaches";
         "Implement automated outreach tools to increase volume";
         "Schedule daily outreach blocks (2-3 hours minimum)";
         "Create personalized outreach sequences for different prospect types";
         "Review and expand prospect database with high-quality targets" ] |}.

Definition outreaches_bad : Recommendation.t :=
  {| Recommendation.title :=
       "Outreach Performance Below Target - Needs Improvement";
     Recommendation.recommendations :=
       [ "A/B test different subject lines and email templates";
         "Increase daily outreach target by 25%";
         "Focus on building relationships before pitching";
         "Research prospects more thoroughly for personalization";
         "Follow up consistently with previous outreach attempts" ] |}.

Definition outreaches_target : Recommendation.t :=
  {| Recommendation.title :=
       "Outreach Performance On Track - Maintain Momentum";
     Recommendation.recommendations :=
       [ "Continue current outreach strategies";
         "Document successful outreach templates for team sharing";
         "Explore new outreach channels (LinkedIn, Twitter, etc.)";
         "Build relationships with key industry contacts" ] |}.

Definition outreaches_good : Recommendation.t :=
  {| Recommendation.title :=
       "Excellent Outreach Performance - Scale Success";
     Recommendation.recommendations :=
       [ "Share successful strategies with team members";
         "Mentor other analysts on outreach best practices";
         "Explore premium outreach opportunities";
         "Focus on building long-term industry relationships" ] |}.

Definition live_links_critical : Recommendation.t :=
  {| Recommendation.title :=
       "Link Acquisition Critical - Immediate Intervention Required";
     Recommendation.recommendations :=
       [ "Review outreach-to-link conversion rates and identify bottlenecks";
         "Focus on relationship building before link requests";
         "Improve content quality to increase link-worthy assets";
         "Analyze successful link placements and replicate approach";
         "Consider guest posting opportunities for easier link acquisition";
         "Schedule weekly follow-ups with promising prospects" ] |}.

Definition live_links_bad : Recommendation.t :=
  {| Recommendation.title :=
       "Link Acquisition Below Target - Strategy Review Needed";
     Recommendation.recommendations :=
       [ "Analyze rejection reasons and address common objections";
         "Improve value proposition in outreach messages";
         "Focus on building relationships before asking for links";
         "Create more linkable assets (infographics, studies, tools)";
         "Target lower-competition, niche-specific opportunities" ] |}.

Definition live_links_target : Recommendation.t :=
  {| Recommendation.title :=
       "Link Acquisition On Target - Optimize for Quality";
     Recommendation.recommendations :=
       [ "Maintain current link building strategies";
         "Focus on acquiring higher authority links";
         "Build relationships for future link opportunities";
         "Document successful link building tactics" ] |}.

Definition live_links_good : Recommendation.t :=
  {| Recommendation.title :=
       "Outstanding Link Acquisition - Maximize Impact";
     Recommendation.recommendations :=
       [ "Focus on high-authority, industry-leading publications";
         "Develop thought leadership content for premium placements";
         "Build strategic partnerships for ongoing link opportunities";
         "Share successful link building strategies with team" ] |}.

Definition high_da_links_critical : Recommendation.t :=
  {| Recommendation.title :=
       "High DA Link Acquisition Critical - Strategic Overhaul Needed";
     Recommendation.recommendations :=
       [ "Research and target top-tier publications in your industry";
         "Develop thought leadership content worthy of high-DA sites";
         "Build relationships with editors at major publications";
         "Create comprehensive, data-driven content that attracts high-DA links";
         "Consider HARO (Help a Reporter Out) for media opportunities";
         "Analyze competitors' high-DA backlinks for targeting ideas" ] |}.

Definition high_da_links_bad : Recommendation.t :=
  {| Recommendation.title :=
       "High DA Links Below Target - Quality Focus Required";
     Recommendation.recommendations :=
       [ "Prioritize relationship building with high-authority site editors";
         "Create exceptional, newsworthy content";
         "Participate in industry events and conferences for networking";
         "Develop original research and data studies";
         "Focus on fewer, higher-quality outreach attempts" ] |}.

Definition high_da_links_target : Recommendation.t :=
  {| Recommendation.title :=
       "High DA Link Performance On Track - Maintain Standards";
     Recommendation.recommendations :=
       [ "Continue targeting high-authority publications";
         "Maintain relationships with key industry contacts";
         "Focus on creating exceptional, shareable content";
         "Document successful high-DA link strategies" ] |}.

Definition high_da_links_good : Recommendation.t :=
  {| Recommendation.title :=
       "Exceptional High DA Link Performance - Industry Leadership";
     Recommendation.recommendations :=
       [ "Establish yourself as a thought leader in the industry";
         "Speak at conferences and industry events";
         "Develop strategic partnerships with major publications";
         "Mentor team members on high-DA link acquisition" ] |}.

Definition content_distribution_critical : Recommendation.t :=
  {| Recommendation.title :=
       "Content Distribution Critical - Multi-Channel Strategy Needed";
     Recommendation.recommendations :=
       [ "Audit current distribution channels and identify gaps";
         "Develop a comprehensive content distribution calendar";
         "Automate social media posting with scheduling tools";
         "Build email lists for content promotion";
         "Engage with industry communities and forums";
         "Repurpose content for different platforms and formats" ] |}.

Definition content_distribution_bad : Recommendation.t :=
  {| Recommendation.title :=
       "Content Distribution Below Target - Channel Expansion Required";
     Recommendation.recommendations :=
       [ "Increase posting frequency across all channels";
         "Explore new distribution platforms (Reddit, Quora, industry forums)";
         "Build relationships with influencers for content amplification";
         "Create platform-specific content variations";
         "Implement content syndication strategies" ] |}.

Definition content_distribution_target : Recommendation.t :=
  {| Recommendation.title :=
       "Content Distribution On Track - Optimize Engagement";
     Recommendation.recommendations :=
       [ "Focus on improving engagement rates on existing channels";
         "Analyze best-performing content and replicate success";
         "Build community around your content";
         "Experiment with new content formats" ] |}.

Definition content_distribution_good : Recommendation.t :=
  {| Recommendation.title :=
       "Excellent Content Distribution - Maximize Reach";
     Recommendation.recommendations :=
       [ "Develop strategic partnerships for content amplification";
         "Create viral-worthy content campaigns";
         "Build thought leadership through consistent, valuable content";
         "Share distribution strategies with team members" ] |}.

Definition new_blogs_critical : Recommendation.t :=
  {| Recommendation.title :=
       "Blog Content Creation Critical - Production Ramp-Up Required";
     Recommendation.recommendations :=
       [ "Develop a structured content calendar with daily writing goals";
         "Use content templates to speed up creation process";
         "Repurpose existing content into new blog formats";
         "Collaborate with subject matter experts for faster content creation";
         "Implement content batching techniques";
         "Consider outsourcing research to focus on writing" ] |}.

Definition new_blogs_bad : Recommendation.t :=
  {| Recommendation.title :=
       "Blog Creation Below Target - Workflow Optimization Needed";
     Recommendation.recommendations :=
       [ "Streamline content creation workflow";
         "Create content templates for common topics";
         "Batch similar content creation tasks";
         "Set daily writing goals and track progress";
         "Use AI tools to assist with research and outlining" ] |}.

Definition new_blogs_target : Recommendation.t :=
  {| Recommendation.title :=
       "Blog Creation On Track - Quality Focus";
     Recommendation.recommendations :=
       [ "Maintain current content creation pace";
         "Focus on improving content quality and depth";
         "Optimize content for search engines";
         "Track content performance and iterate" ] |}.

Definition new_blogs_good : Recommendation.t :=
  {| Recommendation.title :=
       "Outstanding Blog Production - Content Leadership";
     Recommendation.recommendations :=
       [ "Focus on creating comprehensive, authoritative content";
         "Develop content series and pillar pages";
         "Share content creation best practices with team";
         "Explore advanced content formats (interactive, multimedia)" ] |}.

Definition blog_optimizations_critical : Recommendation.t :=
  {| Recommendation.title :=
       "Blog Optimization Critical - Technical SEO Audit Required";
     Recommendation.recommendations :=
       [ "Conduct comprehensive technical SEO audit of existing content";
         "Prioritize optimization of highest-traffic pages first";
         "Update meta titles, descriptions, and header tags";
         "Improve internal linking structure";
         "Optimize page loading speeds and mobile responsiveness";
         "Add schema markup to improve search visibility" ] |}.

Definition blog_optimizations_bad : Recommendation.t :=
  {| Recommendation.title :=
       "Blog Optimization Below Target - Systematic Approach Needed";
     Recommendation.recommendations :=
       [ "Create optimization checklist and follow systematically";
         "Focus on pages with highest potential impact";
         "Update outdated content with fresh information";
         "Improve keyword targeting and content structure";
         "Add relevant internal and external links" ] |}.

Definition blog_optimizations_target : Recommendation.t :=
  {| Recommendation.title :=
       "Blog Optimization On Track - Maintain Quality";
     Recommendation.recommendations :=
       [ "Continue systematic optimization approach";
         "Monitor optimization impact on search rankings";
         "Focus on user experience improvements";
         "Document successful optimization strategies" ] |}.

Definition blog_optimizations_good : Recommendation.t :=
  {| Recommendation.title :=
       "Excellent Blog Optimization - Advanced Techniques";
     Recommendation.recommendations :=
       [ "Implement advanced SEO techniques (topic clusters, semantic SEO)";
         "Focus on featured snippet optimization";
         "Develop comprehensive content hubs";
         "Share optimization expertise with team members" ] |}.

Definition top_5_keywords_critical : Recommendation.t :=
  {| Recommendation.title :=
       "Keyword Rankings Critical - SEO Strategy Overhaul Required";
     Recommendation.recommendations :=
       [ "Conduct comprehensive keyword research and competitive analysis";
         "Audit current content for keyword optimization opportunities";
         "Develop targeted content for priority keywords";
         "Improve technical SEO foundation (site speed, mobile, crawlability)";
         "Build topical authority through comprehensive content coverage";
         "Analyze SERP features and optimize for featured snippets" ] |}.

Definition top_5_keywords_bad : Recommendation.t :=
  {| Recommendation.title :=
       "Keyword Rankings Below Target - Focused Optimization Required";
     Recommendation.recommendations :=
       [ "Prioritize optimization of pages closest to top 5 rankings";
         "Improve content quality and comprehensiveness";
         "Build more relevant backlinks to target pages";
         "Optimize for user intent and search experience";
         "Monitor competitor strategies and adapt successful tactics" ] |}.

Definition top_5_keywords_target : Recommendation.t :=
  {| Recommendation.title :=
       "Keyword Rankings On Track - Maintain Momentum";
     Recommendation.recommendations :=
       [ "Continue current keyword optimization strategies";
         "Monitor rankings closely and defend positions";
         "Expand content around successful keywords";
         "Build authority through consistent, quality content" ] |}.

Definition top_5_keywords_good : Recommendation.t :=
  {| Recommendation.title :=
       "Outstanding Keyword Performance - Expand Dominance";
     Recommendation.recommendations :=
       [ "Target more competitive, high-value keywords";
         "Develop comprehensive topic clusters";
         "Build thought leadership around key topics";
         "Share keyword strategy insights with team" ] |}.

Definition KPI_RECOMMENDATIONS : gmap string (gmap string Recommendation.t) :=
  list_to_map
    [ ("outreaches", list_to_map
        [ ("critical", outreaches_critical); ("bad", outreaches_bad); ("target", outreaches_target); ("good", outreaches_good) ]);
      ("live_links", list_to_map
        [ ("critical", live_links_critical); ("bad", live_links_bad); ("target", live_links_target); ("good", live_links_good) ]);
      ("high_da_links", list_to_map
        [ ("critical", high_da_links_critical); ("bad", high_da_links_bad); ("target", high_da_links_target); ("good", high_da_links_good) ]);
      ("content_distribution", list_to_map
        [ ("critical", content_distribution_critical); ("bad", content_distribution_bad); ("target", content_distribution_target); ("good", content_distribution_good) ]);
      ("new_blogs", list_to_map
        [ ("critical", new_blogs_critical); ("bad", new_blogs_bad); ("target", new_blogs_target); ("good", new_blogs_good) ]);
      ("blog_optimizations", list_to_map
        [ ("critical", blog_optimizations_critical); ("bad", blog_optimizations_bad); ("target", blog_optimizations_target); ("good", blog_optimizations_good) ]);
      ("top_5_keywords", list_to_map
        [ ("critical", top_5_keywords_critical); ("bad", top_5_keywords_bad); ("target", top_5_keywords_target); ("good", top_5_keywords_good) ]) ].

(** The comparator of [analyzeTrend]: [bDate.getTime() - aDate.getTime()],
    on dates built from [year] and [parseInt(month) - 1]. *)
Definition record_time (r : PerformanceRecord.t) : option Z :=
  JS.Date_getTime (PerformanceRecord.year r)
    (option_map (fun m => m - 1) (JS.parseInt (PerformanceRecord.month r))).

Definition by_date_desc (a b : PerformanceRecord.t) : option Z :=
  let aDate := record_time a in
  let bDate := record_time b in
  match bDate, aDate with
  | Some tb, Some ta => Some (tb - ta)
  | _, _ => None
  end.

Definition same_analyst (currentRecord record : PerformanceRecord.t) : bool :=
  String.eqb (PerformanceRecord.analyst_id record)
    (PerformanceRecord.analyst_id currentRecord).

(** [Math.round(((currentValue - previousValue) / previousValue) * 100)]. *)
Definition change_percent (currentValue previousValue : Z) : JS.rounded :=
  JS.Math_round
    (JS.mul
       (JS.div (JS.sub (JS.of_Z currentValue) (JS.of_Z previousValue))
          (JS.of_Z previousValue))
       (JS.of_Z 100)).

(** [sortedPrevious[0]]. *)
Definition previous_record (currentRecord : PerformanceRecord.t)
  (previousRecords : list PerformanceRecord.t) : option PerformanceRecord.t :=
  let sortedPrevious :=
    JS.sort by_date_desc
      (List.filter (same_analyst currentRecord) previousRecords) in
  head sortedPrevious.

Definition analyzeTrend (kpiName : Kpi) (currentRecord : PerformanceRecord.t)
  (previousRecords : list PerformanceRecord.t) : PerformanceTrend.t :=
  let currentValue := get_kpi currentRecord kpiName in
  let previousRecord := previous_record currentRecord previousRecords in
  let previousValue :=
    match previousRecord with
    | Some r => get_kpi r kpiName
    | None => 0
    end in
  let '(trend, changePercentage) :=
    if 0 <? previousValue then
      let changePercentage := change_percent currentValue previousValue in
      if JS.gtb changePercentage 5 then (improving, changePercentage)
      else if JS.ltb changePercentage (-5) then (declining, changePercentage)
      else (stable, changePercentage)
    else if 0 <? currentValue then (improving, JS.Int 100)
    else (stable, JS.Int 0) in
  {| PerformanceTrend.kpi := kpi_key kpiName;
     PerformanceTrend.current := currentValue;
     PerformanceTrend.previous := previousValue;
     PerformanceTrend.trend := trend;
     PerformanceTrend.changePercentage := changePercentage |}.

Definition is_declining (t : Trend) : bool :=
  match t with
  | declining => true
  | _ => false
  end.

(** The [switch (category.name)] of [generateActionItems], started from
    the initial values [severity = 'info'] and [priority = 3]. *)
Definition severity_and_priority (name : string) : Severity * Z :=
  if String.eqb name "Critical" then (critical, 1)
  else if String.eqb name "Bad" then (warning, 2)
  else if String.eqb name "Target" then (info, 3)
  else if String.eqb name "Good" then (success, 4)
  else (info, 3).

(** The template literal building [description]. *)
Definition describe (currentValue monthly_target : Z)
  (achievementPercentage : JS.rounded) (trend : PerformanceTrend.t) : string :=
  "Current: " +:+ pretty currentValue +:+
  " | Target: " +:+ pretty monthly_target +:+
  " | Achievement: " +:+ JS.toString achievementPercentage +:+
  "% | Trend: " +:+ trend_string (PerformanceTrend.trend trend) +:+
  " (" +:+
  (if JS.gtb (PerformanceTrend.changePercentage trend) 0 then "+" else "") +:+
  JS.toString (PerformanceTrend.changePercentage trend) +:+ "%)".

Section Generator.

(** The recommendation table is a parameter of the generator, so that a
    table with missing cells can be considered; the source binds it to the
    constant [KPI_RECOMMENDATIONS]. *)
Variable table : gmap string (gmap string Recommendation.t).

(** The body of the [forEach] callback; [actionItems.push] appends. *)
Definition action_step (currentRecord : PerformanceRecord.t)
  (previousRecords : list PerformanceRecord.t) (targets : list KPITarget.t)
  (actionItems : list ActionItem.t) (kpiName : Kpi)
  : JS.completion (list ActionItem.t) :=
  match find_target targets kpiName with
  | None => JS.Normal actionItems
  | Some target =>
      let currentValue := get_kpi currentRecord kpiName in
      let achievementPercentage :=
        achievement currentValue (KPITarget.monthly_target target) in
      let category := getPerformanceCategory achievementPercentage in
      let trend := analyzeTrend kpiName currentRecord previousRecords in
      match table !! kpi_key kpiName with
      | None => JS.Throw "TypeError"
      | Some kpiRecommendations =>
          match kpiRecommendations
                  !! JS.toLowerCase (PerformanceCategory.name category) with
          | None => JS.Normal actionItems
          | Some categoryRecommendations =>
              let '(severity, priority) :=
                severity_and_priority (PerformanceCategory.name category) in
              let priority :=
                if is_declining (PerformanceTrend.trend trend)
                   && negb (String.eqb (PerformanceCategory.name category) "Good")
                then Z.max 1 (priority - 1)
                else priority in
              let description :=
                describe currentValue (KPITarget.monthly_target target)
                  achievementPercentage trend in
              JS.Normal
                (actionItems ++
                 [ {| ActionItem.id :=
                        kpi_key kpiName +:+ "-" +:+
                        PerformanceRecord.id currentRecord;
                      ActionItem.kpi := kpi_key kpiName;
                      ActionItem.severity := severity;
                      ActionItem.title :=
                        Recommendation.title categoryRecommendations;
                      ActionItem.description := description;
                      ActionItem.recommendations :=
                        Recommendation.recommendations categoryRecommendations;
                      ActionItem.priority := priority |} ])%list
          end
      end
  end.

Definition by_priority (a b : ActionItem.t) : option Z :=
  Some (ActionItem.priority a - ActionItem.priority b).

Definition generateActionItemsWith (currentRecord : PerformanceRecord.t)
  (previousRecords : list PerformanceRecord.t) (targets : list KPITarget.t)
  : JS.completion (list ActionItem.t) :=
  JS.bind
    (JS.forEach (action_step currentRecord previousRecords targets) kpiNames [])
    (fun actionItems => JS.Normal (JS.sort by_priority actionItems)).

End Generator.

Definition generateActionItems :
  PerformanceRecord.t -> list PerformanceRecord.t -> list KPITarget.t ->
  JS.completion (list ActionItem.t) :=
  generateActionItemsWith KPI_RECOMMENDATIONS.

(** ** The annual report of [src/components/Dashboard.tsx]

    The computation of [generateAnnualReport] between the fetch of the
    analyst's yearly records and the construction of the report: the totals,
    the per-metric achievements against the annual targets, their average
    and the grade. *)

Module Analyst.
Record t : Type := {
  id : string;
  name : string;
  email : string;
  hire_date : string;
  department : string;
  status : string;
  created_at : string;
  updated_at : string
}.
End Analyst.

Module KpiPerformance.
Record t : Type := {
  kpi : string;
  achievement : JS.rounded;
  target : Z;
  actual : Z
}.
End KpiPerformance.

(** [totalPerformance[kpiName]]: the [reduce] that sums each counter. *)
Definition totalPerformance (performanceRecords : list PerformanceRecord.t)
  (kpiName : Kpi) : Z :=
  fold_left (fun acc record => acc + get_kpi record kpiName)
    performanceRecords 0.

(** [targets.find(t => t.kpi_name === kpiName && t.role === analyst.department)]. *)
Definition find_role_target (targets : list KPITarget.t) (analyst : Analyst.t)
  (k : Kpi) : option KPITarget.t :=
  List.find
    (fun t =>
       String.eqb (KPITarget.kpi_name t) (kpi_key k)
       && String.eqb (KPITarget.role t) (Analyst.department analyst))
    targets.

Module AnnualState.
(** The variables the [map] callback updates, and the array it builds. *)
Record t : Type := {
  totalAchievement : JS.number;
  validKPIs : Z;
  mapped : list (option KpiPerformance.t)
}.
End AnnualState.

Definition annual_step (analyst : Analyst.t)
  (performanceRecords : list PerformanceRecord.t) (targets : list KPITarget.t)
  (st : AnnualState.t) (kpiName : Kpi) : AnnualState.t :=
  let skip :=
    {| AnnualState.totalAchievement := AnnualState.totalAchievement st;
       AnnualState.validKPIs := AnnualState.validKPIs st;
       AnnualState.mapped := (AnnualState.mapped st ++ [None])%list |} in
  match find_role_target targets analyst kpiName with
  | Some target =>
      if 0 <? KPITarget.annual_target target then
        let actual := totalPerformance performanceRecords kpiName in
        let achievement := achievement actual (KPITarget.annual_target target) in
        {| AnnualState.totalAchievement :=
             JS.add (AnnualState.totalAchievement st) (JS.to_number achievement);
           AnnualState.validKPIs := AnnualState.validKPIs st + 1;
           AnnualState.mapped :=
             (AnnualState.mapped st ++
             [ Some {| KpiPerformance.kpi := kpi_key kpiName;
                       KpiPerformance.achievement := achievement;
                       KpiPerformance.target := KPITarget.annual_target target;
                       KpiPerformance.actual := actual |} ])%list |}
      else skip
  | None => skip
  end.

Module AnnualReport.
Record t : Type := {
  kpiPerformances : list KpiPerformance.t;
  averagePerformance : JS.rounded;
  performanceGrade : string
}.
End AnnualReport.

(** [None] is the early return taken when the analyst has no record for
    the year. *)
Definition annualReport (analyst : Analyst.t)
  (performanceRecords : list PerformanceRecord.t) (targets : list KPITarget.t)
  : option AnnualReport.t :=
  if (length performanceRecords =? 0)%nat then None
  else
    let st :=
      fold_left (annual_step analyst performanceRecords targets) kpiNames
        {| AnnualState.totalAchievement := JS.of_Z 0;
           AnnualState.validKPIs := 0;
           AnnualState.mapped := [] |} in
    let kpiPerformances := omap (fun x => x) (AnnualState.mapped st) in
    let averagePerformance :=
      if 0 <? AnnualState.validKPIs st then
        JS.Math_round
          (JS.div (AnnualState.totalAchievement st)
             (JS.of_Z (AnnualState.validKPIs st)))
      else JS.Int 0 in
    Some
      {| AnnualReport.kpiPerformances := kpiPerformances;
         AnnualReport.averagePerformance := averagePerformance;
         AnnualReport.performanceGrade :=
           PerformanceCategory.name
             (getPerformanceCategory averagePerformance) |}.

(** ** Sample data *)

Definition mk_record (id analyst month : string) (year : Z)
  (o l h c n b t : Z) : PerformanceRecord.t :=
  {| PerformanceRecord.id := id;
     PerformanceRecord.analyst_id := analyst;
     PerformanceRecord.month := month;
     PerformanceRecord.year := year;
     PerformanceRecord.outreaches := o;
     PerformanceRecord.live_links := l;
     PerformanceRecord.high_da_links := h;
     PerformanceRecord.content_distribution := c;
     PerformanceRecord.new_blogs := n;
     PerformanceRecord.blog_optimizations := b;
     PerformanceRecord.top_5_keywords := t;
     PerformanceRecord.created_at := "2025-01-01T00:00:00Z";
     PerformanceRecord.updated_at := "2025-01-01T00:00:00Z" |}.

Definition mk_target (id kpi : string) (monthly annual : Z) (role : string)
  : KPITarget.t :=
  {| KPITarget.id := id;
     KPITarget.kpi_name := kpi;
     KPITarget.monthly_target := monthly;
     KPITarget.annual_target := annual;
     KPITarget.role := role;
     KPITarget.created_at := "2024-01-01T00:00:00Z" |}.

(** The targets of [src/data/mockData.ts]. *)
Definition mockKPITargets : list KPITarget.t :=
  [ mk_target "1" "outreaches" 525 6825 "SEO Analyst";
    mk_target "2" "live_links" 15 195 "SEO Analyst";
    mk_target "3" "high_da_links" 3 39 "SEO Analyst";
    mk_target "4" "content_distribution" 8 104 "SEO Analyst";
    mk_target "5" "new_blogs" 10 130 "SEO Analyst";
    mk_target "6" "blog_optimizations" 5 65 "SEO Analyst";
    mk_target "7" "top_5_keywords" 3 39 "SEO Analyst" ].

Definition rec_sep : PerformanceRecord.t :=
  mk_record "perf-1" "mock-analyst-1" "09" 2025 400 12 2 6 8 4 2.
Definition rec_oct : PerformanceRecord.t :=
  mk_record "perf-2" "mock-analyst-1" "10" 2025 450 17 3 8 13 5 3.

(** ** The four bands, as the specification names them *)

Inductive Band : Type :=
| Critical
| Bad
| Target
| Good.

(** The range of each band: at most 66, 67 to 83, 84 to 119, at least 120. *)
Definition band_matches (c : Band) (p : Z) : bool :=
  match c with
  | Critical => p <=? 66
  | Bad => (67 <=? p) && (p <=? 83)
  | Target => (84 <=? p) && (p <=? 119)
  | Good => 120 <=? p
  end.

Definition band_index (c : Band) : nat :=
  match c with
  | Critical => 0
  | Bad => 1
  | Target => 2
  | Good => 3
  end.

Definition band_category (c : Band) : PerformanceCategory.t :=
  category_at (band_index c).

Definition band_name (c : Band) : string :=
  PerformanceCategory.name (band_category c).

(** The band a rounded percentage falls in, read off the classifier. *)
Definition band_of (p : JS.rounded) : Band :=
  if JS.leb p 66 then Critical
  else if JS.leb p 83 then Bad
  else if JS.leb p 119 then Target
  else Good.

(** ** Vocabulary of the properties *)

(** Counting one (record, metric) pair in band [c]. *)
Definition bump (c : Band) (s : Stats.t) : Stats.t :=
  {| Stats.critical := Stats.critical s + (if c is Critical then 1 else 0);
     Stats.bad := Stats.bad s + (if c is Bad then 1 else 0);
     Stats.target := Stats.target s + (if c is Target then 1 else 0);
     Stats.good := Stats.good s + (if c is Good then 1 else 0);
     Stats.total := Stats.total s + 1 |}.

Definition stats_ok (s : Stats.t) : Prop :=
  Stats.total s =
    Stats.critical s + Stats.bad s + Stats.target s + Stats.good s /\
  0 <= Stats.critical s /\ 0 <= Stats.bad s /\ 0 <= Stats.target s /\
  0 <= Stats.good s /\ 0 <= Stats.total s.

(** [before l a b]: an occurrence of [a] precedes an occurrence of [b]. *)
Inductive before {A : Type} : list A -> A -> A -> Prop :=
| before_here (x : A) (l : list A) (b : A) : In b l -> before (x :: l) x b
| before_later (x : A) (l : list A) (a b : A) :
    before l a b -> before (x :: l) a b.

(** The comparator [key a - key b] of a sort on an integer key. *)
Definition by_key {A : Type} (key : A -> Z) (a b : A) : option Z :=
  Some (key a - key b).

(** An element never precedes one with a smaller key. *)
Definition ascending {A : Type} (key : A -> Z) (l : list A) : Prop :=
  forall a b, before l a b -> key a <= key b.

(** Calendar notions.  A record is well dated when its month parses to a
    number from 1 to 12 and its year lies from 100 to 275759: a year of one or
    two digits is read by [Date] as a year of the twentieth century, and
    [Date] has no value for a month after September 275760. *)
Definition month_number (r : PerformanceRecord.t) : Z :=
  default 0 (JS.parseInt (PerformanceRecord.month r)).

Definition well_dated (r : PerformanceRecord.t) : Prop :=
  (exists m, JS.parseInt (PerformanceRecord.month r) = Some m /\ 1 <= m <= 12) /\
  100 <= PerformanceRecord.year r <= 275759.

(** [(year, month)] of [a] is earlier than that of [b]. *)
Definition earlier (a b : PerformanceRecord.t) : Prop :=
  PerformanceRecord.year a < PerformanceRecord.year b \/
  (PerformanceRecord.year a = PerformanceRecord.year b /\
   month_number a < month_number b).

(** [(year, month)] of [a] is not later than that of [b]. *)
Definition not_later (a b : PerformanceRecord.t) : Prop :=
  PerformanceRecord.year a < PerformanceRecord.year b \/
  (PerformanceRecord.year a = PerformanceRecord.year b /\
   month_number a <= month_number b).

(** The records of the member of [currentRecord] among the historical
    ones: those whose [analyst_id] is the one of [currentRecord], in input
    order. *)
Definition member_history (currentRecord : PerformanceRecord.t)
  (historicalRecords : list PerformanceRecord.t) : list PerformanceRecord.t :=
  List.filter
    (fun r =>
       bool_decide (PerformanceRecord.analyst_id r
                    = PerformanceRecord.analyst_id currentRecord))
    historicalRecords.

(** [r] is the member's chronologically latest historical record, the
    first one in input order should several share the latest month. *)
Definition latest_prior (currentRecord : PerformanceRecord.t)
  (historicalRecords : list PerformanceRecord.t) (r : PerformanceRecord.t)
  : Prop :=
  exists l1 l2,
    member_history currentRecord historicalRecords = (l1 ++ r :: l2)%list /\
    Forall (fun x => earlier x r) l1 /\
    Forall (fun x => not_later x r) l2.

(** [z] is an integer nearest to the exact quotient [num / den], for a
    positive [den]: its distance to the quotient is at most one half.  A
    quotient halfway between two integers has two nearest integers. *)
Definition nearest_integer (num den z : Z) : Prop :=
  Z.abs (2 * num - 2 * den * z) <= den.

(** The exact quotient [num / den] rounded to the nearest integer, for a
    positive [den]: a half goes up, as [Math.round] rounds, or away from zero,
    as in commercial rounding. *)
Definition round_half_up (num den : Z) : Z := (2 * num + den) / (2 * den).

Definition round_half_away (num den : Z) : Z :=
  Z.sgn num * ((2 * Z.abs num + den) / (2 * den)).

(** The values of an SQL [integer] column, the type of every counter. *)
Definition sql_integer (z : Z) : Prop := - 2 ^ 31 <= z < 2 ^ 31.

(** ** Vocabulary of the rounding analysis *)

(** [located N D m l]: the exact value [N / D] lies from [m] (included) to
    [m + 1] (excluded), and [l] tells whether it is [m] itself or lies below,
    at or above the midpoint. *)
Definition located (N D m : Z) (l : location) : Prop :=
  match l with
  | loc_Exact => N = m * D
  | loc_Inexact Lt => m * D < N /\ 2 * N < (2 * m + 1) * D
  | loc_Inexact Eq => 2 * N = (2 * m + 1) * D
  | loc_Inexact Gt => (2 * m + 1) * D < 2 * N /\ N < (m + 1) * D
  end.

(** A shift record, mantissa with round and sticky bits, that locates
    [N / D]. *)
Definition rec_ok (N D : Z) (mrs : shr_record) : Prop :=
  0 <= shr_m mrs /\ located N D (shr_m mrs) (loc_of_shr_record mrs).

(** The direction that goes with a change percentage. *)
Definition direction (c : JS.rounded) : Trend :=
  if JS.gtb c 5 then improving
  else if JS.ltb c (-5) then declining
  else stable.

Definition months (r : PerformanceRecord.t) : Z :=
  12 * PerformanceRecord.year r + month_number r.

(** [analyzeTrend] as a function of the previous value it found. *)
Definition trend_of_values (currentValue previousValue : Z)
  : Trend * JS.rounded :=
  if 0 <? previousValue then
    (direction (change_percent currentValue previousValue),
     change_percent currentValue previousValue)
  else if 0 <? currentValue then (improving, JS.Int 100)
  else (stable, JS.Int 0).

(** A record of one analyst in 2025 with the given outreach count. *)
Definition rec_with (id month : string) (outreaches : Z) : PerformanceRecord.t :=
  mk_record id "analyst-1" month 2025 outreaches 0 0 0 0 0 0.

(** [historicalRecords] without the record that has the id of
    [currentRecord], as [getActionItems] of [src/components/Reports.tsx]
    prepares it before the call. *)
Definition without_current (currentRecord : PerformanceRecord.t)
  (historicalRecords : list PerformanceRecord.t) : list PerformanceRecord.t :=
  List.filter
    (fun r => negb (String.eqb (PerformanceRecord.id r)
                      (PerformanceRecord.id currentRecord)))
    historicalRecords.

Definition rec_jan : PerformanceRecord.t := rec_with "r1" "01" 100.
Definition rec_feb : PerformanceRecord.t := rec_with "r2" "02" 200.

(** Severity and priority as the specification words them. *)
Definition spec_severity (c : Band) : Severity :=
  match c with
  | Critical => critical
  | Bad => warning
  | Target => info
  | Good => success
  end.

Definition base_priority (c : Band) : Z :=
  match c with
  | Critical => 1
  | Bad => 2
  | Target => 3
  | Good => 4
  end.

(** A declining metric outside the Good band moves up one priority level,
    not above level 1. *)
Definition spec_priority (c : Band) (t : Trend) : Z :=
  match t, c with
  | declining, Good => base_priority Good
  | declining, _ => Z.max 1 (base_priority c - 1)
  | _, _ => base_priority c
  end.

(** The key under which the cell of a band is stored in a table row. *)
Definition band_key (c : Band) : string := JS.toLowerCase (band_name c).

(** The item the generator builds for metric [k], target [t] and cell
    [cell]. *)
Definition item_for (currentRecord : PerformanceRecord.t)
  (previousRecords : list PerformanceRecord.t) (k : Kpi) (t : KPITarget.t)
  (cell : Recommendation.t) : ActionItem.t :=
  let percentage :=
    achievement (get_kpi currentRecord k) (KPITarget.monthly_target t) in
  let trend := analyzeTrend k currentRecord previousRecords in
  {| ActionItem.id :=
       kpi_key k +:+ "-" +:+ PerformanceRecord.id currentRecord;
     ActionItem.kpi := kpi_key k;
     ActionItem.severity := spec_severity (band_of percentage);
     ActionItem.title := Recommendation.title cell;
     ActionItem.description :=
       describe (get_kpi currentRecord k) (KPITarget.monthly_target t)
         percentage trend;
     ActionItem.recommendations := Recommendation.recommendations cell;
     ActionItem.priority :=
       spec_priority (band_of percentage) (PerformanceTrend.trend trend) |}.

(** The cell the generator reads for metric [k] under target [t]. *)
Definition cell_for (table : gmap string (gmap string Recommendation.t))
  (currentRecord : PerformanceRecord.t) (k : Kpi) (t : KPITarget.t)
  : option Recommendation.t :=
  row ← table !! kpi_key k;
  row !! band_key
          (band_of (achievement (get_kpi currentRecord k)
                      (KPITarget.monthly_target t))).

(** The items metric [k] contributes: one when it has a target and a
    cell, none otherwise. *)
Definition items_of (table : gmap string (gmap string Recommendation.t))
  (currentRecord : PerformanceRecord.t)
  (previousRecords : list PerformanceRecord.t) (targets : list KPITarget.t)
  (k : Kpi) : list ActionItem.t :=
  match find_target targets k with
  | Some t =>
      match cell_for table currentRecord k t with
      | Some cell => [item_for currentRecord previousRecords k t cell]
      | None => []
      end
  | None => []
  end.

(** Every metric key has a row in the table. *)
Definition has_rows (table : gmap string (gmap string Recommendation.t))
  : Prop :=
  forall k : Kpi, is_Some (table !! kpi_key k).

Fixpoint index_of (s : string) (l : list string) : nat :=
  match l with
  | [] => 0
  | x :: l' => if String.eqb x s then 0 else S (index_of s l')
  end.

(** The position of a metric key in the iteration order. *)
Definition kpi_position (s : string) : nat :=
  index_of s (map kpi_key kpiNames).

Definition rec_dec : PerformanceRecord.t :=
  mk_record "perf-3" "mock-analyst-1" "11" 2025 380 14 3 8 10 5 3.

Definition zero_target : KPITarget.t :=
  mk_target "1" "outreaches" 0 0 "SEO Analyst".

Definition rec_five : PerformanceRecord.t :=
  mk_record "perf-9" "analyst-1" "09" 2025 5 0 0 0 0 0 0.

(** The rendering the specification asks for: [+] before every
    non-negative percentage, zero included. *)
Definition signed_change_claimed (z : Z) : string :=
  if 0 <=? z then "+" +:+ pretty z else pretty z.

(** The rendering of the code: [+] before a positive percentage, no
    sign before zero, [-] before a negative one. *)
Definition signed_change (c : JS.rounded) : string :=
  match c with
  | JS.Int (Z.pos p) => "+" +:+ pretty p
  | JS.Int Z0 => "0"
  | JS.Int (Z.neg p) => "-" +:+ pretty p
  | JS.NaN => "NaN"
  | JS.PosInf => "+Infinity"
  | JS.NegInf => "-Infinity"
  end.

Definition rec_zero : PerformanceRecord.t :=
  mk_record "perf-0" "analyst-1" "09" 2025 0 0 0 0 0 0 0.

Definition outreach_target : KPITarget.t :=
  mk_target "1" "outreaches" 525 6825 "SEO Analyst".

(** A table in which the Good cell of [outreaches] is missing. *)
Definition table_without_cell : gmap string (gmap string Recommendation.t) :=
  <["outreaches" :=
      list_to_map
        [ ("critical", outreaches_critical); ("bad", outreaches_bad);
          ("target", outreaches_target) ]]> KPI_RECOMMENDATIONS.

(** Two targets that differ at most in their role. *)
Definition same_but_role (a b : KPITarget.t) : Prop :=
  KPITarget.id a = KPITarget.id b /\
  KPITarget.kpi_name a = KPITarget.kpi_name b /\
  KPITarget.monthly_target a = KPITarget.monthly_target b /\
  KPITarget.annual_target a = KPITarget.annual_target b /\
  KPITarget.created_at a = KPITarget.created_at b.

Definition seo_analyst : Analyst.t :=
  {| Analyst.id := "mock-analyst-1";
     Analyst.name := "Demo Analyst";
     Analyst.email := "demo@example.com";
     Analyst.hire_date := "2024-01-15";
     Analyst.department := "SEO Analyst";
     Analyst.status := "active";
     Analyst.created_at := "2024-01-15T00:00:00Z";
     Analyst.updated_at := "2024-01-15T00:00:00Z" |}.

Definition writer_target : KPITarget.t :=
  mk_target "1" "outreaches" 525 6825 "Content Writer".

(** ** Further code of the cited files and of their callers *)

(** *** [src/utils/actionItemsGenerator.ts]: [formatKPIName] *)

(** The object literal [kpiDisplayNames]. *)
Definition kpiDisplayNames : gmap string string :=
  list_to_map
    [ ("outreaches", "Monthly Outreaches");
      ("live_links", "Live Links");
      ("high_da_links", "High DA Backlinks (90+)");
      ("content_distribution", "Content Distribution");
      ("new_blogs", "New Blog Contributions");
      ("blog_optimizations", "Blog Optimizations");
      ("top_5_keywords", "Top 5 Ranking Keywords") ].

(** The property names every object literal inherits from
    [Object.prototype]; reading one of them yields a function or an object,
    not a string. *)
Definition Object_prototype_names : list string :=
  [ "constructor"; "hasOwnProperty"; "isPrototypeOf"; "propertyIsEnumerable";
    "toLocaleString"; "toString"; "valueOf"; "__proto__";
    "__defineGetter__"; "__defineSetter__"; "__lookupGetter__";
    "__lookupSetter__" ].

(** [kpiDisplayNames[kpiName] || kpiName].  [None] stands for the one
    case in which the result is not a string: [kpiName] names an inherited
    member, which is truthy and returned as it is. *)
Definition formatKPIName (kpiName : string) : option string :=
  match kpiDisplayNames !! kpiName with
  | Some name => Some (if String.eqb name "" then kpiName else name)
  | None =>
      if existsb (String.eqb kpiName) Object_prototype_names then None
      else Some kpiName
  end.

(** *** [src/components/Reports.tsx] *)

(** [a || b] on integers: [b] when [a] is 0. *)
Definition or_else (a b : Z) : Z := if a =? 0 then b else a.

(** [target?.monthly_target || 0]. *)
Definition getTargetForKPI (targets : list KPITarget.t) (kpiName : string)
  : Z :=
  let target :=
    List.find (fun t => String.eqb (KPITarget.kpi_name t) kpiName) targets in
  match target with
  | Some t => or_else (KPITarget.monthly_target t) 0
  | None => 0
  end.

Definition calculateAchievementRate (actual target : Z) : JS.rounded :=
  if 0 <? target then achievement actual target else JS.Int 0.

(** [getActionItems], the selected record and the loaded records being
    its state; [None] is the [null] selection. *)
Definition getActionItems
  (selectedRecordForActions : option PerformanceRecord.t)
  (performanceRecords : list PerformanceRecord.t) (targets : list KPITarget.t)
  : JS.completion (list ActionItem.t) :=
  match selectedRecordForActions with
  | None => JS.Normal []
  | Some selected =>
      let previousRecords :=
        List.filter
          (fun r =>
             String.eqb (PerformanceRecord.analyst_id r)
               (PerformanceRecord.analyst_id selected)
             && negb (String.eqb (PerformanceRecord.id r)
                        (PerformanceRecord.id selected)))
          performanceRecords in
      generateActionItems selected previousRecords targets
  end.

(** The overall column of the records table: the achievements of the seven
    metrics, a metric without target counting as 0, and their rounded
    mean. *)
Definition rowAchievements (record : PerformanceRecord.t)
  (targets : list KPITarget.t) : list JS.rounded :=
  map
    (fun kpiName =>
       match find_target targets kpiName with
       | Some target =>
           calculateAchievementRate (get_kpi record kpiName)
             (KPITarget.monthly_target target)
       | None => JS.Int 0
       end)
    kpiNames.

Definition avgAchievement (record : PerformanceRecord.t)
  (targets : list KPITarget.t) : JS.rounded :=
  let achievements := rowAchievements record targets in
  JS.Math_round
    (JS.div
       (fold_left (fun sum val => JS.add sum (JS.to_number val)) achievements
          (JS.of_Z 0))
       (JS.of_Z (Z.of_nat (length achievements)))).

(** *** [src/components/Dashboard.tsx] *)

(** [truthy x] for a Number: neither a zero nor [NaN]. *)
Definition truthy (x : JS.number) : bool :=
  match x with
  | S754_zero _ | S754_nan => false
  | _ => true
  end.

(** [target.monthly_target * 13]. *)
Definition thirteen_months (target : KPITarget.t) : JS.number :=
  JS.mul (JS.of_Z (KPITarget.monthly_target target)) (JS.of_Z 13).

(** The [reduce] of [getTargetComparison]:
    [acc[target.kpi_name] = target.monthly_target * 13].  An assignment to
    [__proto__] with a Number does not create a property. *)
Definition targetMap (targets : list KPITarget.t) : gmap string JS.number :=
  fold_left
    (fun acc target =>
       if String.eqb (KPITarget.kpi_name target) "__proto__" then acc
       else <[KPITarget.kpi_name target := thirteen_months target]> acc)
    targets ∅.

(** [targetMap.<key> || fallback]. *)
Definition comparisonTarget (targets : list KPITarget.t) (k : Kpi)
  (fallback : Z) : JS.number :=
  match targetMap targets !! kpi_key k with
  | Some v => if truthy v then v else JS.of_Z fallback
  | None => JS.of_Z fallback
  end.

(** The [data] array of the Target dataset. *)
Definition comparisonTargets (targets : list KPITarget.t) : list JS.number :=
  [ comparisonTarget targets outreaches 6825;
    comparisonTarget targets live_links 195;
    comparisonTarget targets high_da_links 39;
    comparisonTarget targets content_distribution 104;
    comparisonTarget targets new_blogs 130;
    comparisonTarget targets blog_optimizations 65;
    comparisonTarget targets top_5_keywords 39 ].

(** [calculateTotalPerformance()[kpiName]]: the same [reduce] as the one
    of the annual report, over all loaded records. *)
Definition calculateTotalPerformance
  (performanceData : list PerformanceRecord.t) (kpiName : Kpi) : Z :=
  fold_left (fun acc record => acc + get_kpi record kpiName) performanceData 0.

(** [s.includes(w)]. *)
Fixpoint includes (w s : string) : bool :=
  String.prefix w s ||
  match s with
  | EmptyString => false
  | String _ s' => includes w s'
  end.

(** The three icons of [getTrendIcon]. *)
Inductive TrendIcon : Type :=
| TrendingUp
| TrendingDown
| Minus.

Definition getTrendIcon (description : string) : TrendIcon :=
  if includes "improving" description then TrendingUp
  else if includes "declining" description then TrendingDown
  else Minus.

Definition Severity_eqb (a b : Severity) : bool :=
  match a, b with
  | critical, critical | warning, warning | info, info | success, success =>
      true
  | _, _ => false
  end.

(** The four lists of [ActionItemsPanel]. *)
Definition criticalItems (actionItems : list ActionItem.t) : list ActionItem.t :=
  List.filter (fun item => Severity_eqb (ActionItem.severity item) critical)
    actionItems.

Definition warningItems (actionItems : list ActionItem.t) : list ActionItem.t :=
  List.filter (fun item => Severity_eqb (ActionItem.severity item) warning)
    actionItems.

Definition infoItems (actionItems : list ActionItem.t) : list ActionItem.t :=
  List.filter (fun item => Severity_eqb (ActionItem.severity item) info)
    actionItems.

Definition successItems (actionItems : list ActionItem.t) : list ActionItem.t :=
  List.filter (fun item => Severity_eqb (ActionItem.severity item) success)
    actionItems.

(** The recommendations of the annual report: the first recommendation of
    each of the first five action items of the latest record against the
    earlier ones, or two stock sentences when there is no item.  An outer
    [None] is the early return on an empty year, an inner [None] the
    [undefined] read from an empty recommendation list. *)
Definition annualRecommendations
  (performanceRecords : list PerformanceRecord.t) (targets : list KPITarget.t)
  : option (JS.completion (list (option string))) :=
  match last performanceRecords with
  | None => None
  | Some latestRecord =>
      Some
        (JS.bind
           (generateActionItems latestRecord (removelast performanceRecords)
              targets)
           (fun actionItems =>
              let recommendations :=
                map (fun item => head (ActionItem.recommendations item))
                  (take 5 actionItems) in
              JS.Normal
                (if (0 <? length recommendations)%nat then recommendations
                 else [ Some "Continue current strategies";
                        Some "Focus on consistency" ])))
  end.

(** Counter-wise sum of two statistics. *)
Definition stats_add (s s' : Stats.t) : Stats.t :=
  {| Stats.critical := Stats.critical s + Stats.critical s';
     Stats.bad := Stats.bad s + Stats.bad s';
     Stats.target := Stats.target s + Stats.target s';
     Stats.good := Stats.good s + Stats.good s';
     Stats.total := Stats.total s + Stats.total s' |}.

Definition stats_zero : Stats.t :=
  {| Stats.critical := 0; Stats.bad := 0; Stats.target := 0;
     Stats.good := 0; Stats.total := 0 |}.

(** The metrics the statistics grade: those whose first target is
    positive. *)
Definition graded (targets : list KPITarget.t) (k : Kpi) : bool :=
  match find_target targets k with
  | Some t => 0 <? KPITarget.monthly_target t
  | None => false
  end.

(** A metric has a target. *)
Definition targeted (targets : list KPITarget.t) (k : Kpi) : bool :=
  match find_target targets k with
  | Some _ => true
  | None => false
  end.

(** The two stock sentences of the annual report. *)
Definition stock_recommendations : list (option string) :=
  [ Some "Continue current strategies"; Some "Focus on consistency" ].

(** A Number that is not negative: a zero, a positive finite value,
    [+Infinity], or [NaN]. *)
Definition not_negative (x : JS.number) : Prop :=
  match x with
  | S754_zero s => s = false
  | S754_infinity s => s = false
  | S754_nan => True
  | S754_finite s _ _ => s = false
  end.



(** The icon that stands for a trend. *)
Definition icon_of (t : Trend) : TrendIcon :=
  match t with
  | improving => TrendingUp
  | declining => TrendingDown
  | stable => Minus
  end.

(** [has_char c s]: the character [c] occurs in [s]. *)
Fixpoint has_char (c : ascii) (s : string) : bool :=
  match s with
  | EmptyString => false
  | String x s' => Ascii.eqb c x || has_char c s'
  end.

(** A text with neither of the letters the two searched words start
    with. *)
Definition plain (s : string) : Prop :=
  has_char "i" s = false /\ has_char "d" s = false.

(** The texts a rounded Number is rendered as. *)
Inductive number_text : string -> Prop :=
| number_plain (s : string) : plain s -> number_text s
| number_inf : number_text "Infinity"
| number_neg_inf : number_text "-Infinity"
| number_nan : number_text "NaN".

(** *** [src/components/Dashboard.tsx]: the summary per analyst *)

Module PerformanceRow.
(** A performance record as the dashboard loads it, with the joined
    [analysts] row when there is one. *)
Record t : Type := {
  record : PerformanceRecord.t;
  analysts : option Analyst.t
}.
End PerformanceRow.

Module AnalystSummary.
Record t : Type := {
  totalRecords : Z;
  totalOutreaches : Z;
  totalLiveLinks : Z;
  totalHighDALinks : Z;
  averagePerformance : JS.rounded;
  criticalKPIs : Z;
  goodKPIs : Z;
  lastMonthData : option PerformanceRow.t
}.
End AnalystSummary.

Module RecordGrades.
(** The three variables the inner [forEach] of the summary updates. *)
Record t : Type := {
  totalAchievement : JS.number;
  criticalCount : Z;
  goodCount : Z
}.
End RecordGrades.

Definition grade_step (targets : list KPITarget.t)
  (record : PerformanceRecord.t) (g : RecordGrades.t) (kpiName : Kpi)
  : RecordGrades.t :=
  match find_target targets kpiName with
  | Some target =>
      if 0 <? KPITarget.monthly_target target then
        let achievement :=
          achievement (get_kpi record kpiName) (KPITarget.monthly_target target) in
        let category := getPerformanceCategory achievement in
        {| RecordGrades.totalAchievement :=
             JS.add (RecordGrades.totalAchievement g) (JS.to_number achievement);
           RecordGrades.criticalCount :=
             if String.eqb (PerformanceCategory.name category) "Critical"
             then RecordGrades.criticalCount g + 1
             else RecordGrades.criticalCount g;
           RecordGrades.goodCount :=
             if String.eqb (PerformanceCategory.name category) "Good"
             then RecordGrades.goodCount g + 1
             else RecordGrades.goodCount g |}
      else g
  | None => g
  end.

Definition record_grades (targets : list KPITarget.t)
  (record : PerformanceRecord.t) : RecordGrades.t :=
  fold_left (grade_step targets record) kpiNames
    {| RecordGrades.totalAchievement := JS.of_Z 0;
       RecordGrades.criticalCount := 0;
       RecordGrades.goodCount := 0 |}.

(** [record.analysts?.name || 'Unknown']. *)
Definition analystName (row : PerformanceRow.t) : string :=
  match PerformanceRow.analysts row with
  | Some a => if String.eqb (Analyst.name a) "" then "Unknown" else Analyst.name a
  | None => "Unknown"
  end.

(** The object [analystSummary] as the list of its own properties, in
    the order in which they were created. *)
Fixpoint summary_get (summary : list (string * AnalystSummary.t))
  (name : string) : option AnalystSummary.t :=
  match summary with
  | [] => None
  | (n, s) :: rest => if String.eqb n name then Some s else summary_get rest name
  end.

Fixpoint summary_set (summary : list (string * AnalystSummary.t))
  (name : string) (s' : AnalystSummary.t) : list (string * AnalystSummary.t) :=
  match summary with
  | [] => [(name, s')]
  | (n, s) :: rest =>
      if String.eqb n name then (n, s') :: rest
      else (n, s) :: summary_set rest name s'
  end.

(** [new Date(a.year, parseInt(a.month) - 1) > new Date(b.year, ...)];
    a comparison with an invalid date is false. *)
Definition later_than (a b : PerformanceRecord.t) : bool :=
  match record_time a, record_time b with
  | Some ta, Some tb => tb <? ta
  | _, _ => false
  end.

(** The body of the outer [forEach].  [None] leaves the model: when the
    analyst is named like a member of [Object.prototype], the code reads that
    member instead of a summary and updates it. *)
Definition summary_step (targets : list KPITarget.t)
  (summary : list (string * AnalystSummary.t)) (row : PerformanceRow.t)
  : option (list (string * AnalystSummary.t)) :=
  let record := PerformanceRow.record row in
  let name := analystName row in
  if existsb (String.eqb name) Object_prototype_names then None
  else
    let s :=
      match summary_get summary name with
      | Some s => s
      | None =>
          {| AnalystSummary.totalRecords := 0;
             AnalystSummary.totalOutreaches := 0;
             AnalystSummary.totalLiveLinks := 0;
             AnalystSummary.totalHighDALinks := 0;
             AnalystSummary.averagePerformance := JS.Int 0;
             AnalystSummary.criticalKPIs := 0;
             AnalystSummary.goodKPIs := 0;
             AnalystSummary.lastMonthData := None |}
      end in
    let g := record_grades targets record in
    Some
      (summary_set summary name
         {| AnalystSummary.totalRecords := AnalystSummary.totalRecords s + 1;
            AnalystSummary.totalOutreaches :=
              AnalystSummary.totalOutreaches s
              + PerformanceRecord.outreaches record;
            AnalystSummary.totalLiveLinks :=
              AnalystSummary.totalLiveLinks s
              + PerformanceRecord.live_links record;
            AnalystSummary.totalHighDALinks :=
              AnalystSummary.totalHighDALinks s
              + PerformanceRecord.high_da_links record;
            AnalystSummary.averagePerformance :=
              JS.Math_round
                (JS.div (RecordGrades.totalAchievement g)
                   (JS.of_Z (Z.of_nat (length kpiNames))));
            AnalystSummary.criticalKPIs :=
              AnalystSummary.criticalKPIs s + RecordGrades.criticalCount g;
            AnalystSummary.goodKPIs :=
              AnalystSummary.goodKPIs s + RecordGrades.goodCount g;
            AnalystSummary.lastMonthData :=
              match AnalystSummary.lastMonthData s with
              | Some lastMonthData =>
                  if later_than record (PerformanceRow.record lastMonthData)
                  then Some row
                  else Some lastMonthData
              | None => Some row
              end |}).

Fixpoint getAnalystPerformanceSummaryFrom (targets : list KPITarget.t)
  (performanceData : list PerformanceRow.t)
  (summary : list (string * AnalystSummary.t))
  : option (list (string * AnalystSummary.t)) :=
  match performanceData with
  | [] => Some summary
  | row :: rest =>
      match summary_step targets summary row with
      | Some summary' => getAnalystPerformanceSummaryFrom targets rest summary'
      | None => None
      end
  end.

Definition getAnalystPerformanceSummary
  (performanceData : list PerformanceRow.t) (targets : list KPITarget.t)
  : option (list (string * AnalystSummary.t)) :=
  getAnalystPerformanceSummaryFrom targets performanceData [].

Module TeamInsights.
Record t : Type := {
  totalAnalysts : Z;
  totalCriticalKPIs : Z;
  totalGoodKPIs : Z;
  avgTeamPerformance : JS.rounded
}.
End TeamInsights.

(** [getTeamInsights].  The values are summed in creation order
    (JavaScript enumerates names that are array indices first, which changes
    no integer total); the mean [NaN] of an empty team is replaced by 0
    before rounding. *)
Definition getTeamInsights (performanceData : list PerformanceRow.t)
  (targets : list KPITarget.t) : option TeamInsights.t :=
  match getAnalystPerformanceSummary performanceData targets with
  | None => None
  | Some analystSummary =>
      let values := map snd analystSummary in
      let totalAnalysts := Z.of_nat (length analystSummary) in
      let avgTeamPerformance :=
        JS.div
          (fold_left
             (fun sum analyst =>
                JS.add sum
                  (JS.to_number (AnalystSummary.averagePerformance analyst)))
             values (JS.of_Z 0))
          (JS.of_Z totalAnalysts) in
      Some
        {| TeamInsights.totalAnalysts := totalAnalysts;
           TeamInsights.totalCriticalKPIs :=
             fold_left (fun sum analyst => sum + AnalystSummary.criticalKPIs analyst)
               values 0;
           TeamInsights.totalGoodKPIs :=
             fold_left (fun sum analyst => sum + AnalystSummary.goodKPIs analyst)
               values 0;
           TeamInsights.avgTeamPerformance :=
             JS.Math_round
               (if truthy avgTeamPerformance then avgTeamPerformance
                else JS.of_Z 0) |}
  end.

(** No analyst of the rows is named like a member of
    [Object.prototype]. *)
Definition plain_names (rows : list PerformanceRow.t) : Prop :=
  Forall (fun row => ~ In (analystName row) Object_prototype_names) rows.

(** The sum of a list of integers. *)
Definition zsum (l : list Z) : Z := fold_right Z.add 0 l.

(** The rows of one analyst name, in data order. *)
Definition rows_of (name : string) (rows : list PerformanceRow.t)
  : list PerformanceRow.t :=
  List.filter (fun row => String.eqb (analystName row) name) rows.

(** The mean the summary stores for a record: the rounded seventh of the
    sum of the achievements of its graded metrics. *)
Definition record_average (targets : list KPITarget.t)
  (record : PerformanceRecord.t) : JS.rounded :=
  JS.Math_round
    (JS.div (RecordGrades.totalAchievement (record_grades targets record))
       (JS.of_Z 7)).

(** Two rows of one analyst. *)
Definition sample_rows : list PerformanceRow.t :=
  [ {| PerformanceRow.record := rec_sep;
       PerformanceRow.analysts := Some seo_analyst |};
    {| PerformanceRow.record := rec_oct;
       PerformanceRow.analysts := Some seo_analyst |} ].

(** * Properties *)

(** ** The classifier *)

Lemma getPerformanceCategory_band (p : JS.rounded) :
  getPerformanceCategory p = band_category (band_of p).
Proof.
  unfold getPerformanceCategory, band_of.
  repeat (destruct (JS.leb p _); [reflexivity|]); reflexivity.
Qed.

Lemma band_name_inj (c c' : Band) : band_name c = band_name c' -> c = c'.
Proof. destruct c, c'; simpl; intros H; try reflexivity; discriminate H. Qed.

Lemma band_of_matches (p : Z) (c : Band) :
  band_matches c p = true <-> c = band_of (JS.Int p).
Proof.
  unfold band_of, JS.leb.
  destruct c; simpl;
    repeat match goal with
           | |- context [?a <=? ?b] => destruct (Z.leb_spec a b)
           end; simpl; split; intros Heq; try discriminate Heq;
    try reflexivity; lia.
Qed.

(** C1.  The classifier is total on the integers and its bands partition
    them: for every integer percentage [p] it returns the category of a band
    [c], and a band's range contains [p] exactly when the band is [c].  The
    eight boundary values land where the band table says, and every negative
    integer is Critical. *)
Theorem classifier_total_partition :
  (forall p : Z, exists c : Band,
      getPerformanceCategory (JS.Int p) = band_category c /\
      forall c' : Band, band_matches c' p = true <-> c' = c) /\
  (getPerformanceCategory (JS.Int 66) = band_category Critical /\
   getPerformanceCategory (JS.Int 67) = band_category Bad /\
   getPerformanceCategory (JS.Int 83) = band_category Bad /\
   getPerformanceCategory (JS.Int 84) = band_category Target /\
   getPerformanceCategory (JS.Int 119) = band_category Target /\
   getPerformanceCategory (JS.Int 120) = band_category Good /\
   getPerformanceCategory (JS.Int 0) = band_category Critical /\
   getPerformanceCategory (JS.Int 1000) = band_category Good) /\
  (forall n : positive,
      getPerformanceCategory (JS.Int (Z.neg n)) = band_category Critical) /\
  (band_name Critical = "Critical" /\ band_name Bad = "Bad" /\
   band_name Target = "Target" /\ band_name Good = "Good").
Proof.
  split; [|split; [|split]].
  - intros p. exists (band_of (JS.Int p)). split.
    + apply getPerformanceCategory_band.
    + intros c'. apply band_of_matches.
  - repeat split; reflexivity.
  - intros n. rewrite getPerformanceCategory_band.
    unfold band_of, JS.leb.
    destruct (Z.leb_spec (Z.neg n) 66) as [_|H]; [reflexivity|lia].
  - repeat split; reflexivity.
Qed.

(** ** The category statistics *)

Lemma stats_eq (s s' : Stats.t) :
  Stats.critical s = Stats.critical s' -> Stats.bad s = Stats.bad s' ->
  Stats.target s = Stats.target s' -> Stats.good s = Stats.good s' ->
  Stats.total s = Stats.total s' -> s = s'.
Proof. destruct s, s'; simpl; congruence. Qed.

(** What one callback run does: nothing when the metric has no target or
    a target that is not positive, and otherwise it counts the pair in the
    band of its achievement. *)
Lemma stats_step_cases targets record s k :
  stats_step targets record s k =
    match find_target targets k with
    | Some t =>
        if 0 <? KPITarget.monthly_target t then
          bump (band_of (achievement (get_kpi record k)
                           (KPITarget.monthly_target t))) s
        else s
    | None => s
    end.
Proof.
  unfold stats_step.
  destruct (find_target targets k) as [t|]; [|reflexivity].
  destruct (0 <? KPITarget.monthly_target t); [|reflexivity].
  rewrite getPerformanceCategory_band.
  destruct (band_of _); apply stats_eq; simpl; lia.
Qed.

Lemma bump_ok c s : stats_ok s -> stats_ok (bump c s).
Proof. unfold stats_ok. destruct c; simpl; lia. Qed.

Lemma stats_step_ok targets record s k :
  stats_ok s -> stats_ok (stats_step targets record s k).
Proof.
  intros H. rewrite stats_step_cases.
  destruct (find_target targets k) as [t|]; [|exact H].
  destruct (0 <? KPITarget.monthly_target t); [|exact H].
  apply bump_ok, H.
Qed.

Lemma fold_left_invariant {S X : Type} (P : S -> Prop) (f : S -> X -> S)
  (xs : list X) (s : S) :
  (forall s x, P s -> P (f s x)) -> P s -> P (fold_left f xs s).
Proof.
  intros Hf. revert s.
  induction xs as [|x xs IH]; intros s Hs; simpl; [exact Hs|].
  apply IH, Hf, Hs.
Qed.

(** C10.  The statistics of any record list against any target list have
    [total = critical + bad + target + good] with all five counters
    non-negative; and each run of the counting callback either leaves the
    counters alone or adds one to [total] and to exactly one bucket. *)
Theorem stats_total_is_sum :
  (forall (records : list PerformanceRecord.t) (targets : list KPITarget.t),
      let s := getPerformanceCategoryStats records targets in
      Stats.total s =
        Stats.critical s + Stats.bad s + Stats.target s + Stats.good s /\
      0 <= Stats.critical s /\ 0 <= Stats.bad s /\ 0 <= Stats.target s /\
      0 <= Stats.good s /\ 0 <= Stats.total s) /\
  (forall (targets : list KPITarget.t) (record : PerformanceRecord.t)
          (s : Stats.t) (k : Kpi),
      stats_step targets record s k = s \/
      exists c : Band, stats_step targets record s k = bump c s).
Proof.
  split.
  - intros records targets. simpl.
    unfold getPerformanceCategoryStats.
    apply (fold_left_invariant stats_ok).
    + intros s record Hs.
      apply (fold_left_invariant stats_ok); [|exact Hs].
      intros s' k. apply stats_step_ok.
    + unfold stats_ok. simpl. lia.
  - intros targets record s k. rewrite stats_step_cases.
    destruct (find_target targets k) as [t|]; [|left; reflexivity].
    destruct (0 <? KPITarget.monthly_target t); [|left; reflexivity].
    right. eexists. reflexivity.
Qed.

(** ** The sort *)

Lemma before_cons_inv {A : Type} (x : A) (l : list A) (a b : A) :
  before (x :: l) a b -> (a = x /\ In b l) \/ before l a b.
Proof. intros H. inversion H; subst; auto. Qed.

Lemma before_nil {A : Type} (a b : A) : ~ before [] a b.
Proof. intros H. inversion H. Qed.

Lemma before_In_r {A : Type} (l : list A) (a b : A) : before l a b -> In b l.
Proof. induction 1; simpl; auto. Qed.

Lemma lookup_before {A : Type} (l : list A) (i j : nat) (a b : A) :
  l !! i = Some a -> l !! j = Some b -> (i < j)%nat -> before l a b.
Proof.
  revert i j. induction l as [|x l IH]; intros i j Hi Hj Hlt.
  - discriminate Hi.
  - destruct j as [|j]; [lia|]. destruct i as [|i]; simpl in Hi, Hj.
    + injection Hi as ->. apply before_here.
      apply list_elem_of_In, list_elem_of_lookup. exists j. exact Hj.
    + apply before_later, (IH i j); [assumption..|lia].
Qed.

Lemma before_map {A B : Type} (g : A -> B) (l : list A) (a b : A) :
  before l a b -> before (map g l) (g a) (g b).
Proof.
  induction 1 as [x l b Hb|x l a b _ IH]; simpl.
  - apply before_here, in_map, Hb.
  - apply before_later, IH.
Qed.

Lemma before_sublist {A : Type} (l1 l2 : list A) (a b : A) :
  sublist l1 l2 -> before l1 a b -> before l2 a b.
Proof.
  induction 1 as [|x l1 l2 Hs IH|x l1 l2 Hs IH]; intros Hb.
  - exact Hb.
  - apply before_cons_inv in Hb as [[-> Hin]|Hb].
    + apply before_here.
      apply list_elem_of_In. eapply elem_of_sublist; [|exact Hs].
      apply list_elem_of_In, Hin.
    + apply before_later, IH, Hb.
  - apply before_later, IH, Hb.
Qed.

Section SortFacts.
Context {A : Type} (cmp : A -> A -> option Z).

Lemma sort_insert_In (x a : A) (l : list A) :
  In a (JS.sort_insert cmp x l) <-> a = x \/ In a l.
Proof.
  induction l as [|y l IH]; simpl.
  - intuition.
  - destruct (JS.sort_gt cmp x y); simpl; [rewrite IH|]; intuition.
Qed.

Lemma sort_In (a : A) (l : list A) : In a (JS.sort cmp l) <-> In a l.
Proof.
  induction l as [|x l IH]; simpl; [reflexivity|].
  rewrite sort_insert_In, IH. intuition.
Qed.

Lemma sort_length (l : list A) : length (JS.sort cmp l) = length l.
Proof.
  assert (Hins : forall x l', length (JS.sort_insert cmp x l') = S (length l')).
  { intros x l'. induction l' as [|y l' IH]; simpl; [reflexivity|].
    destruct (JS.sort_gt cmp x y); simpl; [rewrite IH|]; reflexivity. }
  induction l as [|x l IH]; simpl; [reflexivity|].
  rewrite Hins, IH. reflexivity.
Qed.

(** The first element after sorting: the new element, unless the
    comparator puts the old first element ahead of it. *)
Lemma head_sort_cons (x : A) (l : list A) :
  head (JS.sort cmp (x :: l)) =
    match head (JS.sort cmp l) with
    | Some h => if JS.sort_gt cmp x h then Some h else Some x
    | None => Some x
    end.
Proof.
  simpl. destruct (JS.sort cmp l) as [|h l']; simpl; [reflexivity|].
  destruct (JS.sort_gt cmp x h); reflexivity.
Qed.

Lemma head_sort_In (h : A) (l : list A) :
  head (JS.sort cmp l) = Some h -> In h l.
Proof.
  intros H. apply sort_In.
  destruct (JS.sort cmp l) as [|h' l']; [discriminate H|].
  injection H as ->. left. reflexivity.
Qed.

Lemma before_sort_insert (x a b : A) (l : list A) :
  before (JS.sort_insert cmp x l) a b ->
  (a = x /\ In b l) \/ before l a b \/
  (b = x /\ In a l /\ JS.sort_gt cmp x a = true).
Proof.
  induction l as [|y l IH]; simpl; intros H.
  - apply before_cons_inv in H as [[_ []]|H]. destruct (before_nil _ _ H).
  - destruct (JS.sort_gt cmp x y) eqn:Hgt.
    + apply before_cons_inv in H as [[-> Hin]|H].
      * apply sort_insert_In in Hin as [->|Hin].
        -- right. right. simpl. auto.
        -- right. left. apply before_here, Hin.
      * destruct (IH H) as [[-> Hin]|[Hb|(-> & Hin & Hg)]].
        -- left. simpl. auto.
        -- right. left. apply before_later, Hb.
        -- right. right. simpl. auto.
    + apply before_cons_inv in H as [[-> Hin]|H]; auto.
Qed.

End SortFacts.

Section KeySort.
Context {A : Type} (key : A -> Z).

Lemma sort_gt_by_key (x y : A) :
  JS.sort_gt (by_key key) x y = true <-> key y < key x.
Proof. unfold JS.sort_gt, by_key. rewrite Z.ltb_lt. lia. Qed.

Lemma sort_insert_ascending (x : A) (l : list A) :
  ascending key l -> ascending key (JS.sort_insert (by_key key) x l).
Proof.
  induction l as [|y l IH]; intros Hl a b H; simpl in H.
  - apply before_cons_inv in H as [[_ []]|H]. destruct (before_nil _ _ H).
  - destruct (JS.sort_gt (by_key key) x y) eqn:Hgt.
    + apply sort_gt_by_key in Hgt.
      apply before_cons_inv in H as [[-> Hin]|H].
      * apply sort_insert_In in Hin as [->|Hin]; [lia|].
        apply Hl, before_here, Hin.
      * revert a b H. apply IH. intros a b H. apply Hl, before_later, H.
    + assert (Hle : key x <= key y).
      { destruct (Z.lt_ge_cases (key y) (key x)) as [Hlt|Hge]; [|exact Hge].
        apply sort_gt_by_key in Hlt. congruence. }
      apply before_cons_inv in H as [[-> Hin]|H]; [|apply Hl, H].
      destruct Hin as [->|Hin]; [exact Hle|].
      specialize (Hl y b (before_here _ _ _ Hin)). lia.
Qed.

(** The sorted list ascends on the key. *)
Lemma sort_ascending (l : list A) : ascending key (JS.sort (by_key key) l).
Proof.
  induction l as [|x l IH]; simpl.
  - intros a b H. destruct (before_nil _ _ H).
  - apply sort_insert_ascending, IH.
Qed.

(** The sort is stable: two elements with the same key keep the order
    they had in the input. *)
Lemma sort_stable (l : list A) (a b : A) :
  before (JS.sort (by_key key) l) a b -> key a = key b -> before l a b.
Proof.
  induction l as [|x l IH]; simpl; intros H Heq.
  - destruct (before_nil _ _ H).
  - apply before_sort_insert in H as [[-> Hin]|[H|(-> & _ & Hgt)]].
    + apply before_here. apply sort_In in Hin. exact Hin.
    + apply before_later, IH; assumption.
    + apply sort_gt_by_key in Hgt. lia.
Qed.

End KeySort.

(** ** The trend analyzer *)

Lemma record_time_well_dated (r : PerformanceRecord.t) :
  well_dated r -> record_time r = Some (months r - 1).
Proof.
  intros [(m & Hm & Hr) Hy].
  unfold record_time, months, month_number, JS.Date_getTime.
  rewrite Hm. simpl.
  destruct (Z.leb_spec (PerformanceRecord.year r) 99) as [H|H]; [lia|].
  rewrite andb_false_r.
  match goal with
  | |- (if ?c then _ else _) = _ =>
      assert (Hin : c = true)
        by (apply andb_true_intro; unfold JS.first_month, JS.last_month;
            split; apply Z.leb_le; lia);
      rewrite Hin
  end.
  f_equal. lia.
Qed.

Lemma member_history_filter (currentRecord : PerformanceRecord.t)
  (historicalRecords : list PerformanceRecord.t) :
  member_history currentRecord historicalRecords
    = List.filter (same_analyst currentRecord) historicalRecords.
Proof.
  unfold member_history, same_analyst. apply List.filter_ext. intros r.
  destruct (String.eqb_spec (PerformanceRecord.analyst_id r)
              (PerformanceRecord.analyst_id currentRecord)) as [E|E].
  - apply bool_decide_eq_true_2. exact E.
  - apply bool_decide_eq_false_2. exact E.
Qed.

Lemma earlier_months (a b : PerformanceRecord.t) :
  well_dated a -> well_dated b -> earlier a b <-> months a < months b.
Proof.
  intros [(ma & Ha & Hra) _] [(mb & Hb & Hrb) _].
  unfold earlier, months, month_number. rewrite Ha, Hb. simpl. lia.
Qed.

Lemma not_later_months (a b : PerformanceRecord.t) :
  well_dated a -> well_dated b -> not_later a b <-> months a <= months b.
Proof.
  intros [(ma & Ha & Hra) _] [(mb & Hb & Hrb) _].
  unfold not_later, months, month_number. rewrite Ha, Hb. simpl. lia.
Qed.

Lemma sort_gt_by_date_desc (x h : PerformanceRecord.t) :
  well_dated x -> well_dated h ->
  JS.sort_gt by_date_desc x h = true <-> months x < months h.
Proof.
  intros Hx Hh. unfold JS.sort_gt, by_date_desc.
  rewrite (record_time_well_dated _ Hx), (record_time_well_dated _ Hh).
  rewrite Z.ltb_lt. lia.
Qed.

(** The record the sort brings to the front is the latest one, and among
    several latest ones the first of the input. *)
Lemma head_sort_latest (l1 l2 : list PerformanceRecord.t)
  (r : PerformanceRecord.t) :
  Forall well_dated (l1 ++ r :: l2) ->
  Forall (fun x => earlier x r) l1 ->
  Forall (fun x => not_later x r) l2 ->
  head (JS.sort by_date_desc (l1 ++ r :: l2)) = Some r.
Proof.
  intros Hwd H1 H2.
  assert (Hr : well_dated r).
  { rewrite List.Forall_forall in Hwd. apply Hwd, in_elt. }
  induction l1 as [|x l1 IH].
  - simpl app. rewrite head_sort_cons.
    destruct (head (JS.sort by_date_desc l2)) as [h|] eqn:Hh; [|reflexivity].
    apply head_sort_In in Hh.
    assert (Hhw : well_dated h).
    { rewrite List.Forall_forall in Hwd. apply Hwd. right. exact Hh. }
    rewrite List.Forall_forall in H2. specialize (H2 h Hh).
    apply not_later_months in H2; [|assumption..].
    destruct (JS.sort_gt by_date_desc r h) eqn:Hgt; [|reflexivity].
    apply sort_gt_by_date_desc in Hgt; [lia|assumption..].
  - simpl app. rewrite head_sort_cons.
    inversion Hwd as [|? ? Hx Hwd']; subst.
    inversion H1 as [|? ? Hxr H1']; subst.
    rewrite (IH Hwd' H1').
    apply earlier_months in Hxr; [|assumption..].
    apply sort_gt_by_date_desc in Hxr; [|assumption..].
    rewrite Hxr. reflexivity.
Qed.

(** A well-dated, non-empty history has a latest record. *)
Lemma latest_exists (l : list PerformanceRecord.t) :
  Forall well_dated l -> l <> [] ->
  exists l1 r l2,
    l = (l1 ++ r :: l2)%list /\
    Forall (fun x => earlier x r) l1 /\ Forall (fun x => not_later x r) l2.
Proof.
  induction l as [|x l IH]; intros Hwd Hne; [congruence|].
  inversion Hwd as [|? ? Hx Hwd']; subst.
  destruct l as [|y l].
  { exists [], x, []. repeat split; constructor. }
  destruct (IH Hwd') as (l1 & r & l2 & Heq & H1 & H2); [discriminate|].
  assert (Hr : well_dated r).
  { rewrite List.Forall_forall in Hwd'. apply Hwd'. rewrite Heq. apply in_elt. }
  destruct (Z.lt_ge_cases (months x) (months r)) as [Hlt|Hge].
  - exists (x :: l1), r, l2. rewrite Heq. repeat split; [|exact H2].
    constructor; [|exact H1]. apply earlier_months; assumption.
  - exists [], x, (y :: l). repeat split; [constructor|].
    rewrite Heq. rewrite List.Forall_forall in *. intros z Hz.
    assert (Hzw : well_dated z) by (apply Hwd'; rewrite Heq; exact Hz).
    apply not_later_months; [assumption..|].
    apply in_app_or in Hz as [Hz|[<-|Hz]].
    + specialize (H1 z Hz). apply earlier_months in H1; [lia|assumption..].
    + lia.
    + specialize (H2 z Hz). apply not_later_months in H2; [lia|assumption..].
Qed.

Lemma previous_record_latest (currentRecord r : PerformanceRecord.t)
  (historicalRecords : list PerformanceRecord.t) :
  Forall well_dated (member_history currentRecord historicalRecords) ->
  latest_prior currentRecord historicalRecords r ->
  previous_record currentRecord historicalRecords = Some r.
Proof.
  intros Hwd (l1 & l2 & Heq & H1 & H2). unfold previous_record.
  rewrite <- member_history_filter.
  rewrite Heq in *. apply head_sort_latest; assumption.
Qed.

Lemma previous_record_none (currentRecord : PerformanceRecord.t)
  (historicalRecords : list PerformanceRecord.t) :
  member_history currentRecord historicalRecords = [] ->
  previous_record currentRecord historicalRecords = None.
Proof.
  intros H. unfold previous_record.
  rewrite <- member_history_filter, H. reflexivity.
Qed.

Lemma analyzeTrend_values (k : Kpi) (currentRecord : PerformanceRecord.t)
  (historicalRecords : list PerformanceRecord.t) :
  let t := analyzeTrend k currentRecord historicalRecords in
  let previousValue :=
    match previous_record currentRecord historicalRecords with
    | Some r => get_kpi r k
    | None => 0
    end in
  (PerformanceTrend.trend t, PerformanceTrend.changePercentage t) =
    trend_of_values (get_kpi currentRecord k) previousValue /\
  PerformanceTrend.previous t = previousValue /\
  PerformanceTrend.current t = get_kpi currentRecord k /\
  PerformanceTrend.kpi t = kpi_key k.
Proof.
  simpl. unfold analyzeTrend, trend_of_values, direction.
  destruct (previous_record currentRecord historicalRecords) as [r|];
    repeat match goal with
           | |- context [if ?c then _ else _] => destruct c
           end; simpl; auto.
Qed.

(** ** Rounding in binary64 *)

Lemma digits2_pos_bounds (m : positive) :
  2 ^ (Z.pos (digits2_pos m) - 1) <= Z.pos m < 2 ^ Z.pos (digits2_pos m).
Proof.
  induction m as [m IH|m IH|]; simpl digits2_pos; [| |simpl; lia];
    rewrite Pos2Z.inj_succ;
    replace (Z.succ (Z.pos (digits2_pos m)) - 1)
      with (Z.succ (Z.pos (digits2_pos m) - 1)) by lia;
    rewrite !Z.pow_succ_r by lia; lia.
Qed.

Lemma digits2_pos_unique (m : positive) (k : Z) :
  2 ^ (k - 1) <= Z.pos m < 2 ^ k -> Z.pos (digits2_pos m) = k.
Proof.
  intros [Hl Hu]. pose proof (digits2_pos_bounds m) as [Hl' Hu'].
  assert (0 < k).
  { destruct (Z.ltb_spec 0 k); [assumption|].
    rewrite (Z.pow_neg_r 2 (k - 1)) in Hl by lia.
    destruct k; [simpl in Hu; lia|lia|]. rewrite Z.pow_neg_r in Hu; lia. }
  set (d := Z.pos (digits2_pos m)) in *.
  destruct (Z.lt_trichotomy d k) as [Hlt|[Heq|Hgt]]; [|exact Heq|].
  - assert (2 ^ d <= 2 ^ (k - 1)) by (apply Z.pow_le_mono_r; lia). lia.
  - assert (2 ^ k <= 2 ^ (d - 1)) by (apply Z.pow_le_mono_r; lia). lia.
Qed.

Lemma located_bounds (N D m : Z) (l : location) :
  0 < D -> located N D m l -> m * D <= N < (m + 1) * D.
Proof. destruct l as [|[]]; simpl; nia. Qed.

Lemma shr_1_ok (N D : Z) (mrs : shr_record) :
  0 < D -> rec_ok N D mrs -> rec_ok N (2 * D) (shr_1 mrs).
Proof.
  intros HD [Hm Hl]. destruct mrs as [m r s]. simpl in Hm.
  pose proof (located_bounds _ _ _ _ HD Hl) as Hb. simpl in Hb.
  unfold rec_ok.
  destruct m as [|[p|p|]|p]; [| | | |lia]; destruct r, s; simpl in *; lia.
Qed.

Lemma iter_shr_1_ok (n : positive) :
  forall (N D : Z) (mrs : shr_record),
    0 < D -> rec_ok N D mrs ->
    rec_ok N (2 ^ Z.pos n * D) (SpecFloat.iter_pos shr_1 n mrs).
Proof.
  induction n as [n IH|n IH|]; intros N D mrs HD H; simpl SpecFloat.iter_pos.
  - apply shr_1_ok in H; [|exact HD].
    apply IH in H; [|lia].
    assert (0 < 2 ^ Z.pos n) by (apply Z.pow_pos_nonneg; lia).
    apply IH in H; [|nia].
    replace (2 ^ Z.pos n~1 * D)
      with (2 ^ Z.pos n * (2 ^ Z.pos n * (2 * D))); [exact H|].
    replace (Z.pos n~1) with (Z.pos n + Z.pos n + 1) by lia.
    rewrite !Z.pow_add_r, Z.pow_1_r by lia. ring.
  - assert (0 < 2 ^ Z.pos n) by (apply Z.pow_pos_nonneg; lia).
    apply IH in H; [|exact HD]. apply IH in H; [|nia].
    replace (2 ^ Z.pos n~0 * D) with (2 ^ Z.pos n * (2 ^ Z.pos n * D));
      [exact H|].
    replace (Z.pos n~0) with (Z.pos n + Z.pos n) by lia.
    rewrite Z.pow_add_r by lia. ring.
  - apply shr_1_ok in H; [|exact HD]. exact H.
Qed.

Lemma rec_ok_of_loc (N D m : Z) (l : location) :
  0 <= m -> located N D m l -> rec_ok N D (shr_record_of_loc m l).
Proof. intros Hm Hl. split; destruct l as [|[]]; simpl; assumption. Qed.

Lemma shr_fexp_ok (m : positive) (e : Z) (l : location) (N D : Z) :
  0 < D -> located N D (Z.pos m) l ->
  53 <= Z.pos (digits2_pos m) -> -1074 <= Z.pos (digits2_pos m) + e - 53 ->
  exists mrs,
    shr_fexp 53 1024 (Z.pos m) e l = (mrs, e + (Z.pos (digits2_pos m) - 53)) /\
    rec_ok N (2 ^ (Z.pos (digits2_pos m) - 53) * D) mrs.
Proof.
  intros HD Hl Hdg He. unfold shr_fexp.
  assert (Hn : fexp 53 1024 (Zdigits2 (Z.pos m) + e) - e
               = Z.pos (digits2_pos m) - 53).
  { unfold fexp, emin. simpl Zdigits2. lia. }
  rewrite Hn. clear Hn.
  pose proof (rec_ok_of_loc N D (Z.pos m) l ltac:(lia) Hl) as Hok.
  destruct (Z.pos (digits2_pos m) - 53) as [|n|n] eqn:Hn; [| |lia].
  - exists (shr_record_of_loc (Z.pos m) l). unfold shr.
    rewrite Z.add_0_r, Z.pow_0_r, Z.mul_1_l. split; [reflexivity|exact Hok].
  - exists (SpecFloat.iter_pos shr_1 n (shr_record_of_loc (Z.pos m) l)).
    split; [reflexivity|]. apply iter_shr_1_ok; assumption.
Qed.

Lemma round_nearest_even_ok (N D m : Z) (l : location) :
  0 < D -> located N D m l ->
  (round_nearest_even m l = m \/ round_nearest_even m l = m + 1) /\
  Z.abs (2 * (round_nearest_even m l * D) - 2 * N) <= D.
Proof.
  intros HD Hl. destruct l as [|[]]; simpl in *.
  - split; [left; reflexivity|]. lia.
  - destruct (Z.even m); split; auto; lia.
  - split; [left; reflexivity|]. lia.
  - split; [right; reflexivity|]. lia.
Qed.

Lemma binary_round_aux_nearest (s : bool) (m : positive) (e : Z)
  (l : location) (N D : Z) :
  0 < D -> located N D (Z.pos m) l ->
  53 <= Z.pos (digits2_pos m) -> -1074 <= Z.pos (digits2_pos m) + e - 53 ->
  Z.pos (digits2_pos m) + e <= 1023 ->
  exists (mr : positive) (n : Z),
    binary_round_aux 53 1024 s (Z.pos m) e l = S754_finite s mr (e + n) /\
    Z.pos (digits2_pos m) - 53 <= n <= Z.pos (digits2_pos m) - 52 /\
    2 ^ 52 <= Z.pos mr < 2 ^ 53 /\
    Z.abs (2 * (Z.pos mr * 2 ^ n * D) - 2 * N) <= 2 ^ n * D.
Proof.
  intros HD Hl Hdg He Hov. unfold binary_round_aux.
  destruct (shr_fexp_ok m e l N D HD Hl Hdg He) as (mrs & -> & Hm1 & Hl1).
  pose proof (digits2_pos_bounds m) as Hmb.
  remember (Z.pos (digits2_pos m)) as dg eqn:Edg.
  remember (dg - 53) as n0 eqn:En0.
  assert (HP : 0 < 2 ^ n0) by (apply Z.pow_pos_nonneg; lia).
  assert (Hp1 : 2 ^ (dg - 1) = 2 ^ 52 * 2 ^ n0).
  { rewrite <- Z.pow_add_r by lia. f_equal. lia. }
  assert (Hp2 : 2 ^ dg = 2 ^ 53 * 2 ^ n0).
  { rewrite <- Z.pow_add_r by lia. f_equal. lia. }
  rewrite Hp1, Hp2 in Hmb. clear Hp1 Hp2.
  remember (2 ^ n0) as P eqn:EP.
  assert (HD' : 0 < P * D) by nia.
  pose proof (located_bounds _ _ _ _ HD Hl) as Hb.
  pose proof (located_bounds _ _ _ _ HD' Hl1) as Hb1.
  remember (shr_m mrs) as m1 eqn:Em1.
  assert (Hm1b : 2 ^ 52 <= m1 < 2 ^ 53).
  { change (2 ^ 52) with 4503599627370496 in *.
    change (2 ^ 53) with 9007199254740992 in *. nia. }
  destruct (round_nearest_even_ok N (P * D) m1 _ HD' Hl1) as (Hm2 & Herr).
  destruct (round_nearest_even m1 (loc_of_shr_record mrs)) as [|m2|m2];
    [lia| |lia].
  assert (Hcase : Z.pos (digits2_pos m2) = 53 \/
                  (Z.pos (digits2_pos m2) = 54 /\ Z.pos m2 = 2 ^ 53)).
  { destruct (Z.ltb_spec (Z.pos m2) (2 ^ 53)).
    - left. apply digits2_pos_unique. simpl Z.sub. lia.
    - right. assert (Z.pos m2 = 2 ^ 53) by lia. split; [|assumption].
      apply digits2_pos_unique. simpl Z.sub.
      change (2 ^ 54) with (2 * 2 ^ 53). lia. }
  assert (Hl2 : located (Z.pos m2) 1 (Z.pos m2) loc_Exact) by (simpl; lia).
  destruct (shr_fexp_ok m2 (e + n0) loc_Exact (Z.pos m2) 1 ltac:(lia) Hl2
              ltac:(lia) ltac:(lia)) as (mrs2 & -> & Hm3 & Hl3).
  apply located_bounds in Hl3;
    [|apply Z.mul_pos_pos; [apply Z.pow_pos_nonneg|]; lia].
  destruct Hcase as [H53|[H54 Hpow]].
  - pose proof (digits2_pos_bounds m2) as Hm2b.
    rewrite H53 in *. simpl in Hl3. change (2 ^ (53 - 1)) with (2 ^ 52) in Hm2b.
    assert (Hr : shr_m mrs2 = Z.pos m2) by lia. rewrite Hr.
    replace (e + n0 + (53 - 53)) with (e + n0) by lia.
    destruct (Z.leb_spec (e + n0) (1024 - 53)) as [_|Hbad]; [|exfalso; clear - Hbad En0 Hov; lia].
    exists m2, n0. split; [reflexivity|]. split; [lia|]. split; [exact Hm2b|].
    rewrite <- EP, <- Z.mul_assoc. exact Herr.
  - rewrite H54 in *. change (2 ^ (54 - 53) * 1) with 2 in Hl3.
    assert (Hr : shr_m mrs2 = 2 ^ 52).
    { rewrite Hpow in Hl3. change (2 ^ 53) with (2 * 2 ^ 52) in Hl3. lia. }
    rewrite Hr. change (2 ^ 52) with (Z.pos 4503599627370496).
    cbv iota beta.
    destruct (Z.leb_spec (e + n0 + (54 - 53)) (1024 - 53)) as [_|Hbad]; [|exfalso; clear - Hbad En0 Hov; lia].
    exists 4503599627370496%positive, (n0 + 1).
    split; [f_equal; lia|]. split; [lia|]. split; [simpl; lia|].
    rewrite Z.pow_add_r, Z.pow_1_r by lia. rewrite <- EP.
    rewrite Hpow in Herr. change (2 ^ 53) with 9007199254740992 in Herr.
    lia.
Qed.

Lemma binary_round_aux_exact (s : bool) (m v : positive) (e : Z) :
  53 <= Z.pos (digits2_pos m) -> -1074 <= Z.pos (digits2_pos m) + e - 53 ->
  Z.pos (digits2_pos m) + e <= 1023 ->
  Z.pos m = Z.pos v * 2 ^ (Z.pos (digits2_pos m) - 53) ->
  binary_round_aux 53 1024 s (Z.pos m) e loc_Exact
    = S754_finite s v (e + (Z.pos (digits2_pos m) - 53)).
Proof.
  intros Hdg He Hov Hv. unfold binary_round_aux.
  assert (Hl : located (Z.pos m) 1 (Z.pos m) loc_Exact) by (simpl; lia).
  destruct (shr_fexp_ok m e loc_Exact (Z.pos m) 1 ltac:(lia) Hl Hdg He)
    as (mrs & -> & Hm1 & Hl1).
  pose proof (digits2_pos_bounds m) as Hmb.
  remember (Z.pos (digits2_pos m)) as dg eqn:Edg.
  remember (dg - 53) as n0 eqn:En0.
  assert (HP : 0 < 2 ^ n0) by (apply Z.pow_pos_nonneg; lia).
  assert (Hp1 : 2 ^ (dg - 1) = 2 ^ 52 * 2 ^ n0).
  { rewrite <- Z.pow_add_r by lia. f_equal. lia. }
  assert (Hp2 : 2 ^ dg = 2 ^ 53 * 2 ^ n0).
  { rewrite <- Z.pow_add_r by lia. f_equal. lia. }
  rewrite Hp1, Hp2 in Hmb. clear Hp1 Hp2.
  remember (2 ^ n0) as P eqn:EP. rewrite Z.mul_1_r in Hl1.
  assert (Hvb : 2 ^ 52 <= Z.pos v < 2 ^ 53) by nia.
  assert (Hr : shr_m mrs = Z.pos v /\ loc_of_shr_record mrs = loc_Exact).
  { pose proof (located_bounds _ _ _ _ HP Hl1) as Hb.
    assert (Hmv : shr_m mrs = Z.pos v) by nia. split; [exact Hmv|].
    rewrite Hmv in Hl1.
    destruct (loc_of_shr_record mrs) as [|[]]; simpl in Hl1;
      [reflexivity|nia..]. }
  destruct Hr as [-> ->]. simpl round_nearest_even.
  assert (Hdv : Z.pos (digits2_pos v) = 53).
  { apply digits2_pos_unique. simpl Z.sub. exact Hvb. }
  assert (Hl2 : located (Z.pos v) 1 (Z.pos v) loc_Exact) by (simpl; lia).
  destruct (shr_fexp_ok v (e + n0) loc_Exact (Z.pos v) 1 ltac:(lia) Hl2
              ltac:(lia) ltac:(lia)) as (mrs2 & -> & Hm3 & Hl3).
  rewrite Hdv in *. apply located_bounds in Hl3; [|simpl; lia].
  simpl in Hl3.
  assert (Hr : shr_m mrs2 = Z.pos v) by lia. rewrite Hr.
  replace (e + n0 + (53 - 53)) with (e + n0) by lia.
  destruct (Z.leb_spec (e + n0) (1024 - 53)) as [_|Hbad];
    [reflexivity|exfalso; lia].
Qed.

Lemma Pos_iter_xO (m d : positive) :
  Z.pos (Pos.iter xO m d) = Z.pos m * 2 ^ Z.pos d.
Proof.
  induction d as [|d IH] using Pos.peano_ind.
  - simpl. lia.
  - rewrite Pos.iter_succ, Pos2Z.inj_xO, IH, Pos2Z.inj_succ, Z.pow_succ_r
      by lia. ring.
Qed.

Lemma digits2_pos_scaled (v M : positive) (K : Z) :
  0 <= K -> Z.pos M = Z.pos v * 2 ^ K ->
  Z.pos (digits2_pos M) = Z.pos (digits2_pos v) + K.
Proof.
  intros HK HM. apply digits2_pos_unique.
  pose proof (digits2_pos_bounds v) as Hb.
  assert (HP : 0 < 2 ^ K) by (apply Z.pow_pos_nonneg; lia).
  replace (Z.pos (digits2_pos v) + K - 1)
    with (Z.pos (digits2_pos v) - 1 + K) by lia.
  rewrite !Z.pow_add_r by lia. nia.
Qed.

(** The canonical form of a non-zero integer below [2^53]. *)
Lemma binary_round_canon (s : bool) (v M : positive) (K : Z) :
  0 <= K <= 1000 -> Z.pos v < 2 ^ 53 -> Z.pos M = Z.pos v * 2 ^ K ->
  exists m : positive,
    binary_round 53 1024 s M (- K)
      = S754_finite s m (Z.pos (digits2_pos v) - 53) /\
    Z.pos m = Z.pos v * 2 ^ (53 - Z.pos (digits2_pos v)).
Proof.
  intros HK Hv HM.
  pose proof (digits2_pos_scaled v M K ltac:(lia) HM) as HdM.
  pose proof (digits2_pos_bounds v) as Hvb.
  assert (Hdv : Z.pos (digits2_pos v) <= 53).
  { destruct (Z.leb_spec (Z.pos (digits2_pos v)) 53) as [|Hgt]; [assumption|].
    assert (2 ^ 53 <= 2 ^ (Z.pos (digits2_pos v) - 1))
      by (apply Z.pow_le_mono_r; lia). lia. }
  remember (Z.pos (digits2_pos v)) as dv eqn:Edv.
  assert (Hmpos : 0 < Z.pos v * 2 ^ (53 - dv))
    by (apply Z.mul_pos_pos; [lia|apply Z.pow_pos_nonneg; lia]).
  destruct (Z.pos v * 2 ^ (53 - dv)) as [|m|m] eqn:Em; [lia| |lia].
  exists m. split; [|reflexivity].
  assert (Hdm : Z.pos (digits2_pos m) = 53).
  { rewrite (digits2_pos_scaled v m (53 - dv)); [lia|lia|].
    symmetry. exact Em. }
  unfold binary_round, shl_align.
  assert (Hf : fexp 53 1024 (Z.pos (digits2_pos M) + - K) - - K = K - (53 - dv)).
  { unfold fexp, emin. lia. }
  assert (Hf' : fexp 53 1024 (Z.pos (digits2_pos M) + - K) = dv - 53).
  { unfold fexp, emin. lia. }
  rewrite Hf. destruct (K - (53 - dv)) as [|d|d] eqn:Ed.
  - assert (M = m) by (apply Pos2Z.inj_pos; rewrite HM, <- Em;
                       f_equal; f_equal; lia).
    subst M.
    rewrite (binary_round_aux_exact s m m (- K)); try lia.
    + f_equal. lia.
    + rewrite Hdm. simpl. lia.
  - rewrite (binary_round_aux_exact s M m (- K)); try lia.
    + f_equal. lia.
    + rewrite HM, <- Em, HdM.
      replace K with (53 - dv + (dv + K - 53)) at 1 by lia.
      rewrite Z.pow_add_r by lia. ring.
  - rewrite Hf'.
    assert (Hi : Z.pos (Pos.iter xO M d) = Z.pos m).
    { rewrite Pos_iter_xO, HM, <- Em.
      replace (53 - dv) with (K + Z.pos d) by lia.
      rewrite Z.pow_add_r by lia. ring. }
    apply Pos2Z.inj_pos in Hi. rewrite Hi.
    rewrite (binary_round_aux_exact s m m (dv - 53)); try lia.
    + f_equal. lia.
    + rewrite Hdm. simpl. lia.
Qed.

Lemma of_Z_finite (z : Z) :
  z <> 0 -> Z.abs z < 2 ^ 53 ->
  exists m : positive,
    JS.of_Z z = S754_finite (z <? 0) m (Zdigits2 z - 53) /\
    Z.pos m = Z.abs z * 2 ^ (53 - Zdigits2 z) /\
    1 <= Zdigits2 z <= 53 /\
    2 ^ 52 <= Z.pos m < 2 ^ 53.
Proof.
  intros Hz Hb. unfold JS.of_Z, JS.prec, JS.emax.
  destruct z as [|v|v]; [congruence| |]; simpl Zdigits2; simpl Z.abs in *;
    simpl binary_normalize.
  1: destruct (binary_round_canon false v v 0) as (m & Hm & Hv);
    [lia|exact Hb|rewrite Z.pow_0_r; lia|].
  2: destruct (binary_round_canon true v v 0) as (m & Hm & Hv);
    [lia|exact Hb|rewrite Z.pow_0_r; lia|].
  all: pose proof (digits2_pos_bounds v) as Hvb.
  all: assert (Hdv : Z.pos (digits2_pos v) <= 53)
    by (destruct (Z.leb_spec (Z.pos (digits2_pos v)) 53) as [|Hgt];
        [assumption|];
        assert (2 ^ 53 <= 2 ^ (Z.pos (digits2_pos v) - 1))
          by (apply Z.pow_le_mono_r; lia); lia).
  all: assert (Hmb : 2 ^ 52 <= Z.pos m < 2 ^ 53)
    by (pose proof (digits2_pos_bounds m) as Hmb;
        rewrite (digits2_pos_scaled v m (53 - Z.pos (digits2_pos v)))
          in Hmb by (lia || exact Hv);
        replace (Z.pos (digits2_pos v) + (53 - Z.pos (digits2_pos v)))
          with 53 in Hmb by lia; exact Hmb).
  all: exists m; split; [exact Hm|]; split; [exact Hv|]; split; [lia|exact Hmb].
Qed.

Lemma shl_align_fst (m : positive) (e e' : Z) :
  e' <= e -> Z.pos (fst (shl_align m e e')) = Z.pos m * 2 ^ (e - e').
Proof.
  intros He. unfold shl_align.
  destruct (e' - e) as [|d|d] eqn:Ed; simpl fst.
  - replace (e - e') with 0 by lia. rewrite Z.pow_0_r. lia.
  - lia.
  - rewrite Pos_iter_xO. f_equal. f_equal. lia.
Qed.

Lemma Zdigits2_opp (z : Z) : Zdigits2 (- z) = Zdigits2 z.
Proof. destruct z; reflexivity. Qed.

Lemma Zdigits2_le (z k : Z) : 0 <= k -> Z.abs z < 2 ^ k -> Zdigits2 z <= k.
Proof.
  intros Hk Hz. destruct z as [|v|v]; simpl in *; [lia| |];
    pose proof (digits2_pos_bounds v) as Hb;
    destruct (Z.leb_spec (Z.pos (digits2_pos v)) k) as [|Hgt];
    try assumption;
    assert (2 ^ k <= 2 ^ (Z.pos (digits2_pos v) - 1))
      by (apply Z.pow_le_mono_r; lia); lia.
Qed.

(** The difference of two integers is computed exactly. *)
Lemma sub_of_Z (c p : Z) :
  Z.abs c < 2 ^ 53 -> 0 < p < 2 ^ 53 -> Z.abs (c - p) < 2 ^ 53 ->
  JS.sub (JS.of_Z c) (JS.of_Z p) = JS.of_Z (c - p).
Proof.
  intros Hc Hp Hd.
  destruct (of_Z_finite p ltac:(lia) ltac:(lia))
    as (mp & Ep & Hmp & Hdp & Hbp).
  replace (p <? 0) with false in Ep by (symmetry; apply Z.ltb_ge; lia).
  rewrite Z.abs_eq in Hmp by lia.
  destruct (Z.eq_dec c 0) as [->|Hc0].
  - destruct (of_Z_finite (- p) ltac:(lia) ltac:(lia))
      as (m' & E' & Hm' & _).
    replace (- p <? 0) with true in E' by (symmetry; apply Z.ltb_lt; lia).
    rewrite Zdigits2_opp in E', Hm'. rewrite Z.abs_neq in Hm' by lia.
    replace (0 - p) with (- p) by lia. rewrite E', Ep.
    assert (m' = mp) by (apply Pos2Z.inj_pos; lia). subst m'.
    reflexivity.
  - destruct (of_Z_finite c Hc0 Hc) as (mc & Ec & Hmc & Hdc & Hbc).
    rewrite Ec, Ep. unfold JS.sub, JS.prec, JS.emax, SFsub. cbv zeta.
    remember (Zdigits2 c - 53) as ec eqn:Eec.
    remember (Zdigits2 p - 53) as ep eqn:Eep.
    remember (- Z.min ec ep) as K eqn:EK.
    replace (Z.min ec ep) with (- K) by lia.
    rewrite !shl_align_fst by lia.
    assert (HM : cond_Zopp (c <? 0) (Z.pos mc * 2 ^ (ec - - K))
                 - cond_Zopp false (Z.pos mp * 2 ^ (ep - - K))
                 = (c - p) * 2 ^ K).
    { rewrite Hmc, Hmp, <- !Z.mul_assoc, <- !Z.pow_add_r by lia.
      replace (53 - Zdigits2 c + (ec - - K)) with K by lia.
      replace (53 - Zdigits2 p + (ep - - K)) with K by lia.
      unfold cond_Zopp. destruct (Z.ltb_spec c 0).
      - rewrite Z.abs_neq by lia. ring.
      - rewrite Z.abs_eq by lia. ring. }
    rewrite HM. clear HM.
    assert (HP : 0 < 2 ^ K) by (apply Z.pow_pos_nonneg; lia).
    unfold JS.of_Z, JS.prec, JS.emax.
    destruct (c - p) as [|v|v] eqn:Ev.
    + reflexivity.
    + destruct (Z.pos v * 2 ^ K) as [|M|M] eqn:EM; [lia| |lia].
      simpl binary_normalize.
      destruct (binary_round_canon false v M K ltac:(lia) Hd
                  ltac:(symmetry; exact EM)) as (m1 & -> & H1).
      destruct (binary_round_canon false v v 0 ltac:(lia) Hd
                  ltac:(rewrite Z.pow_0_r; lia)) as (m2 & H2e & H2).
      change (- 0) with 0 in H2e. rewrite H2e.
      assert (m1 = m2) by (apply Pos2Z.inj_pos; lia). subst m1. reflexivity.
    + destruct (Z.neg v * 2 ^ K) as [|M|M] eqn:EM; [lia|lia|].
      simpl binary_normalize.
      destruct (binary_round_canon true v M K ltac:(lia) Hd
                  ltac:(lia)) as (m1 & -> & H1).
      destruct (binary_round_canon true v v 0 ltac:(lia) Hd
                  ltac:(rewrite Z.pow_0_r; lia)) as (m2 & H2e & H2).
      change (- 0) with 0 in H2e. rewrite H2e.
      assert (m1 = m2) by (apply Pos2Z.inj_pos; lia). subst m1. reflexivity.
Qed.

Lemma new_location_ok (a b q r : Z) :
  0 < b -> a = b * q + r -> 0 <= r < b ->
  located a b q (new_location b r).
Proof.
  intros Hb Ha Hr. unfold new_location, new_location_even, new_location_odd.
  destruct (Z.even b) eqn:Heven.
  - destruct (Z.eqb_spec r 0); [simpl; nia|].
    destruct (Z.compare_spec (2 * r) b); simpl; nia.
  - destruct (Z.eqb_spec r 0); [simpl; nia|].
    destruct (Z.compare_spec (2 * r + 1) b) as [H|H|H]; simpl; [nia|nia|].
    assert (2 * r <> b).
    { intros E. rewrite <- E, Z.even_mul in Heven. discriminate Heven. }
    nia.
Qed.

(** Division of two normal numbers is correctly rounded. *)
Lemma div_nearest (sx sy : bool) (mx my : positive) (ex ey : Z) :
  2 ^ 52 <= Z.pos mx < 2 ^ 53 -> 2 ^ 52 <= Z.pos my < 2 ^ 53 ->
  -100 <= ex <= 100 -> -100 <= ey <= 100 ->
  exists (mq : positive) (n : Z),
    JS.div (S754_finite sx mx ex) (S754_finite sy my ey)
      = S754_finite (xorb sx sy) mq (ex - ey - 53 + n) /\
    0 <= n <= 2 /\ 2 ^ 52 <= Z.pos mq < 2 ^ 53 /\
    Z.abs (2 * (Z.pos mq * 2 ^ n * Z.pos my) - 2 * (Z.pos mx * 2 ^ 53))
      <= 2 ^ n * Z.pos my.
Proof.
  intros Hx Hy Hex Hey.
  unfold JS.div, JS.prec, JS.emax, SFdiv, SFdiv_core_binary. cbv zeta.
  assert (Hdx : Zdigits2 (Z.pos mx) = 53)
    by (apply digits2_pos_unique; simpl Z.sub; exact Hx).
  assert (Hdy : Zdigits2 (Z.pos my) = 53)
    by (apply digits2_pos_unique; simpl Z.sub; exact Hy).
  rewrite Hdx, Hdy.
  assert (He' : Z.min (fexp 53 1024 (53 + ex - (53 + ey))) (ex - ey)
                = ex - ey - 53) by (unfold fexp, emin; lia).
  rewrite He'.
  replace (ex - ey - (ex - ey - 53)) with 53 by lia.
  cbv beta iota. rewrite Z.shiftl_mul_pow2 by lia.
  pose proof (Z_div_mod (Z.pos mx * 2 ^ 53) (Z.pos my) ltac:(lia)) as Hdm.
  destruct (Z.div_eucl (Z.pos mx * 2 ^ 53) (Z.pos my)) as [q r].
  destruct Hdm as [Hq Hr].
  assert (Hqb : 2 ^ 52 <= q < 2 ^ 54).
  { change (2 ^ 52) with 4503599627370496 in *.
    change (2 ^ 53) with 9007199254740992 in *.
    change (2 ^ 54) with 18014398509481984. nia. }
  destruct q as [|q|q]; [simpl in Hqb; lia| |lia].
  assert (Hdq : Z.pos (digits2_pos q) = 53 \/ Z.pos (digits2_pos q) = 54).
  { destruct (Z.ltb_spec (Z.pos q) (2 ^ 53)).
    - left. apply digits2_pos_unique. simpl Z.sub. lia.
    - right. apply digits2_pos_unique. simpl Z.sub. lia. }
  destruct (binary_round_aux_nearest (xorb sx sy) q (ex - ey - 53)
              (new_location (Z.pos my) r) (Z.pos mx * 2 ^ 53) (Z.pos my))
    as (mq & n & E & Hn & Hmq & Herr); try lia.
  { apply new_location_ok; lia. }
  exists mq, n. split; [exact E|]. split; [lia|]. split; assumption.
Qed.

(** Multiplication of two normal numbers is correctly rounded. *)
Lemma mul_nearest (sx sy : bool) (mx my : positive) (ex ey : Z) :
  2 ^ 52 <= Z.pos mx < 2 ^ 53 -> 2 ^ 52 <= Z.pos my < 2 ^ 53 ->
  -200 <= ex <= 100 -> -200 <= ey <= 100 ->
  exists (mr : positive) (n : Z),
    JS.mul (S754_finite sx mx ex) (S754_finite sy my ey)
      = S754_finite (xorb sx sy) mr (ex + ey + n) /\
    52 <= n <= 54 /\ 2 ^ 52 <= Z.pos mr < 2 ^ 53 /\
    Z.abs (2 * (Z.pos mr * 2 ^ n) - 2 * (Z.pos mx * Z.pos my)) <= 2 ^ n.
Proof.
  intros Hx Hy Hex Hey. unfold JS.mul, JS.prec, JS.emax, SFmul.
  assert (Hb : 2 ^ 104 <= Z.pos (mx * my) < 2 ^ 106).
  { rewrite Pos2Z.inj_mul.
    change (2 ^ 104) with (2 ^ 52 * 2 ^ 52).
    change (2 ^ 106) with (2 ^ 53 * 2 ^ 53). nia. }
  assert (Hd : Z.pos (digits2_pos (mx * my)) = 105 \/
               Z.pos (digits2_pos (mx * my)) = 106).
  { destruct (Z.ltb_spec (Z.pos (mx * my)) (2 ^ 105)).
    - left. apply digits2_pos_unique. simpl Z.sub. lia.
    - right. apply digits2_pos_unique. simpl Z.sub. lia. }
  destruct (binary_round_aux_nearest (xorb sx sy) (mx * my) (ex + ey)
              loc_Exact (Z.pos (mx * my)) 1)
    as (mr & n & E & Hn & Hmr & Herr); try lia.
  { simpl. lia. }
  exists mr, n. split; [exact E|]. split; [lia|]. split; [assumption|].
  rewrite !Z.mul_1_r, Pos2Z.inj_mul in Herr. exact Herr.
Qed.

(** The error of the quotient and of the product, each at most half a unit
    in the last place, is too small to move the rounded percentage away from
    an integer nearest to the exact one. *)
Lemma percent_error_bound (n d z A B Pk T1 T2 X Y Q R v : Z) :
  2 ^ 11 <= A -> 0 < B -> 0 < Pk -> 1 <= T1 <= 4 -> 1 <= T2 <= 2 ^ 54 ->
  0 < d ->
  X = Z.abs n * A -> Y = d * B -> Y < 2 ^ 53 ->
  Pk * B * T1 * T2 = A * 2 ^ 99 ->
  Z.abs (2 * (Q * T1 * Y) - 2 * (X * 2 ^ 53)) <= T1 * Y ->
  Z.abs (2 * (R * T2) - 2 * (Q * (100 * 2 ^ 46))) <= T2 ->
  (0 < n /\ v = R) \/ (n < 0 /\ v = - R) ->
  2 * Pk * z <= 2 * v + Pk < 2 * Pk * (z + 1) ->
  Z.abs (200 * n - 2 * d * z) <= d.
Proof.
  intros HA HB HPk HT1 HT2 Hd HX HY HYb HK H1 H2 Hv H3.
  change (2 ^ 11) with 2048 in HA.
  change (2 ^ 53) with 9007199254740992 in *.
  change (2 ^ 54) with 18014398509481984 in *.
  change (100 * 2 ^ 46) with 7036874417766400 in *.
  change (2 ^ 99) with 633825300114114700748351602688 in *.
  remember (A * 633825300114114700748351602688) as W eqn:EW.
  assert (HY0 : 0 < Y) by nia.
  assert (HTY : 0 < T1 * Y <= 4 * 9007199254740992) by nia.
  remember (T1 * Y) as TY eqn:ETY.
  assert (HE : 0 <= TY * (7036874417766400 + T2)
               < 2048 * 633825300114114700748351602688) by nia.
  assert (HW : 2048 * 633825300114114700748351602688 <= W) by lia.
  assert (E1 : Pk * T2 * TY = d * W).
  { rewrite <- HK, ETY, HY. ring. }
  assert (E2 : 7036874417766400 * (2 * (X * 9007199254740992))
               = 200 * Z.abs n * W).
  { rewrite EW, HX. ring. }
  replace (Q * T1 * Y) with (Q * TY) in H1 by (rewrite ETY; ring).
  assert (S2 : - (TY * T2)
               <= TY * (2 * (R * T2) - 2 * (Q * 7036874417766400))
               <= TY * T2).
  { split.
    - rewrite <- Z.mul_opp_r. apply Z.mul_le_mono_nonneg_l; lia.
    - apply Z.mul_le_mono_nonneg_l; lia. }
  assert (HTT : 0 < T2 * TY) by nia.
  destruct Hv as [[Hn ->]|[Hn ->]].
  - rewrite Z.abs_eq in E2 by lia.
    assert (U : (2 * Pk * z) * (T2 * TY) <= (2 * R + Pk) * (T2 * TY))
      by (apply Z.mul_le_mono_nonneg_r; lia).
    assert (L : (2 * R + Pk) * (T2 * TY) < (2 * Pk * (z + 1)) * (T2 * TY))
      by (apply Z.mul_lt_mono_pos_r; lia).
    assert (Hup : W * (2 * d * z - 200 * n - d)
                  <= TY * (7036874417766400 + T2)).
    { replace (W * (2 * d * z - 200 * n - d))
        with (2 * z * (d * W) - 200 * n * W - d * W) by ring.
      rewrite <- E1, <- E2. lia. }
    assert (Hlo : - (TY * (7036874417766400 + T2))
                  < W * (2 * d * z - 200 * n + d)).
    { replace (W * (2 * d * z - 200 * n + d))
        with (2 * z * (d * W) - 200 * n * W + d * W) by ring.
      rewrite <- E1, <- E2. lia. }
    destruct (Z.lt_ge_cases (2 * d * z - 200 * n - d) 1) as [Hu|Hu].
    + destruct (Z.lt_ge_cases (-1) (2 * d * z - 200 * n + d)) as [Hl|Hl];
        [lia|].
      assert (W * (2 * d * z - 200 * n + d) <= W * (-1))
        by (apply Z.mul_le_mono_nonneg_l; lia).
      lia.
    + assert (W * 1 <= W * (2 * d * z - 200 * n - d))
        by (apply Z.mul_le_mono_nonneg_l; lia).
      lia.
  - rewrite Z.abs_neq in E2 by lia.
    assert (U : (2 * Pk * z) * (T2 * TY) <= (2 * - R + Pk) * (T2 * TY))
      by (apply Z.mul_le_mono_nonneg_r; lia).
    assert (L : (2 * - R + Pk) * (T2 * TY) < (2 * Pk * (z + 1)) * (T2 * TY))
      by (apply Z.mul_lt_mono_pos_r; lia).
    assert (Hup : W * (2 * d * z - 200 * n - d)
                  <= TY * (7036874417766400 + T2)).
    { replace (W * (2 * d * z - 200 * n - d))
        with (2 * z * (d * W) + 200 * - n * W - d * W) by ring.
      rewrite <- E1, <- E2. lia. }
    assert (Hlo : - (TY * (7036874417766400 + T2))
                  < W * (2 * d * z - 200 * n + d)).
    { replace (W * (2 * d * z - 200 * n + d))
        with (2 * z * (d * W) + 200 * - n * W + d * W) by ring.
      rewrite <- E1, <- E2. lia. }
    destruct (Z.lt_ge_cases (2 * d * z - 200 * n - d) 1) as [Hu|Hu].
    + destruct (Z.lt_ge_cases (-1) (2 * d * z - 200 * n + d)) as [Hl|Hl];
        [lia|].
      assert (W * (2 * d * z - 200 * n + d) <= W * (-1))
        by (apply Z.mul_le_mono_nonneg_l; lia).
      lia.
    + assert (W * 1 <= W * (2 * d * z - 200 * n - d))
        by (apply Z.mul_le_mono_nonneg_l; lia).
      lia.
Qed.

Lemma Math_round_finite (s : bool) (m k : positive) :
  JS.Math_round (S754_finite s m (Z.neg k)) =
    JS.Int ((2 * (if s then Z.neg m else Z.pos m) + 2 ^ Z.pos k)
            / (2 * 2 ^ Z.pos k)).
Proof. reflexivity. Qed.

(** [Math.round((n / d) * 100)] is an integer nearest to [100 * n / d]. *)
Lemma percent_nearest (n d : Z) :
  Z.abs n < 2 ^ 42 -> 0 < d < 2 ^ 53 ->
  exists z,
    JS.Math_round (JS.mul (JS.div (JS.of_Z n) (JS.of_Z d)) (JS.of_Z 100))
      = JS.Int z /\
    Z.abs (200 * n - 2 * d * z) <= d.
Proof.
  intros Hn Hd.
  assert (E100 : JS.of_Z 100 = S754_finite false 7036874417766400 (-46))
    by (vm_compute; reflexivity).
  destruct (of_Z_finite d ltac:(lia) ltac:(lia))
    as (md & Ed & Hmd & Hdd & Hbd).
  replace (d <? 0) with false in Ed by (symmetry; apply Z.ltb_ge; lia).
  rewrite Z.abs_eq in Hmd by lia.
  destruct (Z.eq_dec n 0) as [->|Hn0].
  - exists 0. rewrite Ed, E100. split; [reflexivity|lia].
  - assert (Hn53 : Z.abs n < 2 ^ 53).
    { assert (2 ^ 42 <= 2 ^ 53) by (apply Z.pow_le_mono_r; lia). lia. }
    destruct (of_Z_finite n Hn0 Hn53) as (mn & En & Hmn & Hdn & Hbn).
    pose proof (Zdigits2_le n 42 ltac:(lia) Hn) as Hdn42.
    rewrite En, Ed, E100.
    destruct (div_nearest (n <? 0) false mn md (Zdigits2 n - 53)
                (Zdigits2 d - 53) Hbn Hbd ltac:(lia) ltac:(lia))
      as (mq & n1 & -> & Hn1 & Hmq & H1).
    destruct (mul_nearest (xorb (n <? 0) false) false mq 7036874417766400
                (Zdigits2 n - 53 - (Zdigits2 d - 53) - 53 + n1) (-46)
                Hmq ltac:(simpl; lia) ltac:(lia) ltac:(lia))
      as (mr & n2 & -> & Hn2 & Hmr & H2).
    rewrite !xorb_false_r.
    remember (Zdigits2 n - 53 - (Zdigits2 d - 53) - 53 + n1 + -46 + n2)
      as er eqn:Eer.
    destruct er as [|k|k]; [lia|lia|].
    rewrite Math_round_finite. eexists. split; [reflexivity|].
    assert (HPk : 0 < 2 ^ Z.pos k) by (apply Z.pow_pos_nonneg; lia).
    apply (percent_error_bound n d _ (2 ^ (53 - Zdigits2 n))
             (2 ^ (53 - Zdigits2 d)) (2 ^ Z.pos k) (2 ^ n1) (2 ^ n2)
             (Z.pos mn) (Z.pos md) (Z.pos mq) (Z.pos mr)
             (if n <? 0 then Z.neg mr else Z.pos mr)).
    + apply Z.pow_le_mono_r; lia.
    + apply Z.pow_pos_nonneg; lia.
    + exact HPk.
    + split; [apply (Z.pow_le_mono_r 2 0 n1); lia|
              apply (Z.pow_le_mono_r 2 n1 2); lia].
    + split; [apply (Z.pow_le_mono_r 2 0 n2); lia|
              apply Z.pow_le_mono_r; lia].
    + lia.
    + exact Hmn.
    + exact Hmd.
    + lia.
    + rewrite <- !Z.pow_add_r by lia. f_equal. lia.
    + exact H1.
    + exact H2.
    + destruct (Z.ltb_spec n 0); [right|left]; split; lia.
    + pose proof (Z.mul_div_le
                    (2 * (if n <? 0 then Z.neg mr else Z.pos mr)
                     + 2 ^ Z.pos k) (2 * 2 ^ Z.pos k) ltac:(lia)) as Hq1.
      pose proof (Z.mul_succ_div_gt
                    (2 * (if n <? 0 then Z.neg mr else Z.pos mr)
                     + 2 ^ Z.pos k) (2 * 2 ^ Z.pos k) ltac:(lia)) as Hq2.
      rewrite <- Z.add_1_r in Hq2. split; [exact Hq1|exact Hq2].
Qed.

(** The change percentage is an integer nearest to the exact percentage. *)
Lemma change_percent_nearest (c p : Z) :
  Z.abs c < 2 ^ 41 -> 0 < p < 2 ^ 41 ->
  exists z,
    change_percent c p = JS.Int z /\
    Z.abs (200 * (c - p) - 2 * p * z) <= p.
Proof.
  intros Hc Hp. unfold change_percent.
  assert (2 ^ 41 <= 2 ^ 53) by (apply Z.pow_le_mono_r; lia).
  assert (2 * 2 ^ 41 = 2 ^ 42) by reflexivity.
  rewrite sub_of_Z by lia.
  apply percent_nearest; lia.
Qed.

(** *** The change percentage and exact rounding *)

(** Counterexample to C3: the member's only historical record holds 40 and
    the current record 63.  The exact change is 57.5 per cent, which rounds to
    58, whether a half goes up or away from zero; the analyzer returns 57,
    because the quotient 23 / 40 is formed first, in binary64, and its product
    with 100 falls just below 57.5.  With 200 then 189 the exact change is
    -5.5 per cent: the analyzer returns -5 and the direction stable, where
    rounding the half away from zero gives -6, a decline.  With 400 then 450
    (12.5 per cent) the half goes up, to 13.  And the record compared with is
    not always the chronologically latest one: of two records of January 100
    and January 99, [Date] reads the second as January 1999, so the analyzer
    compares with the record of the year 99. *)
Lemma analyzeTrend_half_percent :
  (let current := rec_with "r2" "02" 63 in
   let history := [rec_with "r1" "01" 40] in
   let t := analyzeTrend outreaches current history in
   ~ In current history /\
   latest_prior current history (rec_with "r1" "01" 40) /\
   PerformanceTrend.previous t = 40 /\
   PerformanceTrend.changePercentage t = JS.Int 57 /\
   round_half_up (100 * (63 - 40)) 40 = 58 /\
   round_half_away (100 * (63 - 40)) 40 = 58) /\
  (let t :=
     analyzeTrend outreaches (rec_with "r2" "02" 189)
       [rec_with "r1" "01" 200] in
   PerformanceTrend.changePercentage t = JS.Int (-5) /\
   PerformanceTrend.trend t = stable /\
   round_half_away (100 * (189 - 200)) 200 = -6) /\
  PerformanceTrend.changePercentage
    (analyzeTrend outreaches (rec_with "r2" "02" 450)
       [rec_with "r1" "01" 400]) = JS.Int 13 /\
  (let current := rec_with "r3" "02" 30 in
   let year_100 := mk_record "r1" "analyst-1" "01" 100 20 0 0 0 0 0 0 in
   let year_99 := mk_record "r2" "analyst-1" "01" 99 10 0 0 0 0 0 0 in
   let t := analyzeTrend outreaches current [year_100; year_99] in
   ~ In current [year_100; year_99] /\
   latest_prior current [year_100; year_99] year_100 /\
   PerformanceTrend.previous t = 10 /\
   PerformanceTrend.changePercentage t = JS.Int 200).
Proof.
  split; [|split; [|split]].
  - split; [intros [H|[]]; discriminate H|].
    split; [exists [], []; repeat split; constructor|].
    vm_compute. repeat split.
  - vm_compute. repeat split.
  - vm_compute. reflexivity.
  - split; [intros [H|[H|[]]]; discriminate H|].
    split; [|vm_compute; split; reflexivity].
    eexists [], [_]. split; [reflexivity|]. split; [constructor|].
    constructor; [|constructor]. left. simpl. lia.
Qed.

(** C3, amended.  On a history whose records of the member are well dated,
    whether or not it contains the current record: the previous value is the
    value of the member's latest historical record, the first in input order
    among those of the latest month, and 0 when the member has none; a
    non-empty history of the member always has such a latest record.  When the
    previous value is positive, the change percentage, for values of the range
    of an SQL integer, is an integer nearest to the exact percentage
    [100 * (current - previous) / previous], and the direction is improving
    above 5, declining below -5 and stable from -5 to 5.  When the previous
    value is not positive, the result is improving/100 for a positive current
    value and stable/0 otherwise. *)
Theorem analyzeTrend_latest_prior (k : Kpi)
  (currentRecord : PerformanceRecord.t)
  (historicalRecords : list PerformanceRecord.t) :
  Forall well_dated (member_history currentRecord historicalRecords) ->
  let t := analyzeTrend k currentRecord historicalRecords in
  let current := get_kpi currentRecord k in
  let previous := PerformanceTrend.previous t in
  (forall r, latest_prior currentRecord historicalRecords r ->
             previous = get_kpi r k) /\
  (member_history currentRecord historicalRecords = [] -> previous = 0) /\
  (member_history currentRecord historicalRecords <> [] ->
   exists r, latest_prior currentRecord historicalRecords r) /\
  (0 < previous ->
   (sql_integer current -> sql_integer previous ->
    exists c, PerformanceTrend.changePercentage t = JS.Int c /\
              nearest_integer (100 * (current - previous)) previous c) /\
   (forall c, PerformanceTrend.changePercentage t = JS.Int c ->
              (5 < c -> PerformanceTrend.trend t = improving) /\
              (c < -5 -> PerformanceTrend.trend t = declining) /\
              (-5 <= c <= 5 -> PerformanceTrend.trend t = stable))) /\
  (previous <= 0 ->
   (0 < current ->
    PerformanceTrend.trend t = improving /\
    PerformanceTrend.changePercentage t = JS.Int 100) /\
   (current <= 0 ->
    PerformanceTrend.trend t = stable /\
    PerformanceTrend.changePercentage t = JS.Int 0)).
Proof.
  intros Hwd t current previous.
  destruct (analyzeTrend_values k currentRecord historicalRecords)
    as (Hv & Hp & _). fold t in Hv, Hp. fold current in Hv.
  rewrite <- Hp in Hv. fold previous in Hv, Hp.
  split; [|split; [|split; [|split]]].
  - intros r Hr. rewrite Hp, (previous_record_latest _ _ _ Hwd Hr).
    reflexivity.
  - intros Hnil. rewrite Hp, (previous_record_none _ _ Hnil). reflexivity.
  - intros Hne.
    destruct (latest_exists _ Hwd Hne) as (l1 & r & l2 & Heq & H1 & H2).
    exists r, l1, l2. auto.
  - intros Hpos. unfold trend_of_values in Hv.
    destruct (Z.ltb_spec 0 previous) as [_|?]; [|lia].
    injection Hv as Ht Hc. split.
    + intros [Hc1 Hc2] [Hp1 Hp2].
      change (2 ^ 31) with 2147483648 in *.
      destruct (change_percent_nearest current previous) as (c & Ec & Hn).
      { change (2 ^ 41) with 2199023255552. lia. }
      { change (2 ^ 41) with 2199023255552. lia. }
      exists c. split; [rewrite Hc; exact Ec|].
      unfold nearest_integer.
      replace (2 * (100 * (current - previous)))
        with (200 * (current - previous)) by ring.
      exact Hn.
    + intros c Hcc. rewrite Ht. rewrite Hc in Hcc. rewrite Hcc.
      unfold direction, JS.gtb, JS.ltb.
      destruct (Z.ltb_spec 5 c), (Z.ltb_spec c (-5)); repeat split; intros;
        try reflexivity; lia.
  - intros Hle. unfold trend_of_values in Hv.
    destruct (Z.ltb_spec 0 previous) as [?|_]; [lia|].
    destruct (Z.ltb_spec 0 current); injection Hv as Ht Hc;
      split; intros; try lia; auto.
Qed.

(** The worked cases of the dead zone (previous value 100) and the two
    defaults without history. *)
Example analyzeTrend_dead_zone :
  let t c := analyzeTrend outreaches (rec_with "r2" "02" c) [rec_with "r1" "01" 100] in
  (PerformanceTrend.trend (t 104), PerformanceTrend.changePercentage (t 104))
    = (stable, JS.Int 4) /\
  (PerformanceTrend.trend (t 106), PerformanceTrend.changePercentage (t 106))
    = (improving, JS.Int 6) /\
  (PerformanceTrend.trend (t 94), PerformanceTrend.changePercentage (t 94))
    = (declining, JS.Int (-6)) /\
  (PerformanceTrend.trend (t 95), PerformanceTrend.changePercentage (t 95))
    = (stable, JS.Int (-5)) /\
  (PerformanceTrend.trend (t 105), PerformanceTrend.changePercentage (t 105))
    = (stable, JS.Int 5).
Proof. vm_compute. repeat split. Qed.

Example analyzeTrend_no_history :
  let t c := analyzeTrend outreaches (rec_with "r2" "02" c) [] in
  (PerformanceTrend.trend (t 0), PerformanceTrend.changePercentage (t 0))
    = (stable, JS.Int 0) /\
  (PerformanceTrend.trend (t 50), PerformanceTrend.changePercentage (t 50))
    = (improving, JS.Int 100).
Proof. vm_compute. repeat split. Qed.

(** The range of [Date]: a month of the year 99 is a month of 1999, the
    last month with a time value is September 275760 and the first one May
    -271821.  A record outside that range has the time value [NaN]: the
    comparator returns [NaN] on it, two records keep their input order, and
    no comparison with it holds. *)
Example Date_getTime_range :
  JS.Date_getTime 99 (Some 0) = JS.Date_getTime 1999 (Some 0) /\
  JS.Date_getTime 275760 (Some 8) = Some (12 * 275760 + 8) /\
  JS.Date_getTime 275760 (Some 9) = None /\
  JS.Date_getTime (-271821) (Some 4) = Some (12 * -271821 + 4) /\
  JS.Date_getTime (-271821) (Some 3) = None /\
  JS.Date_getTime 2025 None = None.
Proof. vm_compute. repeat split. Qed.

Example analyzeTrend_invalid_date :
  let r2025 := rec_with "r1" "01" 100 in
  let r300000 := mk_record "r2" "analyst-1" "01" 300000 200 0 0 0 0 0 0 in
  let current := rec_with "r3" "02" 150 in
  record_time r300000 = None /\
  PerformanceTrend.previous
    (analyzeTrend outreaches current [r2025; r300000]) = 100 /\
  PerformanceTrend.previous
    (analyzeTrend outreaches current [r300000; r2025]) = 200 /\
  later_than r300000 r2025 = false /\
  later_than r2025 r300000 = false.
Proof. vm_compute. repeat split. Qed.

Lemma well_dated_rec_sep : well_dated rec_sep.
Proof. split; [exists 9; split; [reflexivity|lia]|simpl; lia]. Defined.

Lemma latest_prior_rec_sep : latest_prior rec_oct [rec_sep] rec_sep.
Proof. exists [], []. repeat split; constructor. Defined.

Lemma analyzeTrend_latest_prior_witness :
  Forall well_dated (member_history rec_oct [rec_sep]) /\
  PerformanceTrend.previous (analyzeTrend outreaches rec_oct [rec_sep])
    = get_kpi rec_sep outreaches /\
  exists c,
    PerformanceTrend.changePercentage
      (analyzeTrend outreaches rec_oct [rec_sep]) = JS.Int c /\
    nearest_integer
      (100 * (get_kpi rec_oct outreaches
              - PerformanceTrend.previous
                  (analyzeTrend outreaches rec_oct [rec_sep])))
      (PerformanceTrend.previous (analyzeTrend outreaches rec_oct [rec_sep]))
      c.
Proof.
  assert (Hwd : Forall well_dated (member_history rec_oct [rec_sep])).
  { constructor; [exact well_dated_rec_sep|constructor]. }
  split; [exact Hwd|].
  destruct (analyzeTrend_latest_prior outreaches rec_oct [rec_sep] Hwd)
    as (H1 & _ & _ & H4 & _).
  split; [exact (H1 rec_sep latest_prior_rec_sep)|].
  destruct H4 as (H4 & _).
  { rewrite (H1 rec_sep latest_prior_rec_sep). simpl. lia. }
  apply H4.
  - unfold sql_integer. simpl. lia.
  - rewrite (H1 rec_sep latest_prior_rec_sep). unfold sql_integer. simpl. lia.
Defined.

(** *** The current record is not excluded *)

(** Counterexample to C6: with the current record (February, 200) in the
    history next to January (100), the analyzer compares February with itself
    and answers stable/0, whereas on the history without it the answer is
    improving/100. *)
Lemma analyzeTrend_keeps_current :
  In rec_feb [rec_jan; rec_feb] /\
  without_current rec_feb [rec_jan; rec_feb] = [rec_jan] /\
  analyzeTrend outreaches rec_feb [rec_jan; rec_feb] <>
    analyzeTrend outreaches rec_feb (without_current rec_feb [rec_jan; rec_feb]) /\
  (let t := analyzeTrend outreaches rec_feb [rec_jan; rec_feb] in
   (PerformanceTrend.previous t, PerformanceTrend.trend t,
    PerformanceTrend.changePercentage t) = (200, stable, JS.Int 0)) /\
  (let t := analyzeTrend outreaches rec_feb [rec_jan] in
   (PerformanceTrend.previous t, PerformanceTrend.trend t,
    PerformanceTrend.changePercentage t) = (100, improving, JS.Int 100)).
Proof.
  split; [right; left; reflexivity|].
  split; [reflexivity|].
  split; [|split; vm_compute; reflexivity].
  vm_compute. intros H. discriminate H.
Qed.

Lemma member_history_idem (currentRecord : PerformanceRecord.t)
  (historicalRecords : list PerformanceRecord.t) :
  member_history currentRecord (member_history currentRecord historicalRecords)
    = member_history currentRecord historicalRecords.
Proof.
  rewrite (member_history_filter currentRecord (member_history _ _)).
  rewrite member_history_filter.
  induction historicalRecords as [|x l IH]; simpl; [reflexivity|].
  destruct (same_analyst currentRecord x) eqn:Hx; simpl; [|exact IH].
  rewrite Hx, IH. reflexivity.
Qed.

Lemma analyzeTrend_previous_record (k : Kpi)
  (currentRecord : PerformanceRecord.t) (l l' : list PerformanceRecord.t) :
  previous_record currentRecord l = previous_record currentRecord l' ->
  analyzeTrend k currentRecord l = analyzeTrend k currentRecord l'.
Proof. intros H. unfold analyzeTrend. rewrite H. reflexivity. Qed.

(** C6, amended.  The analyzer looks only at the historical records of the
    member of the current record: the result on a history is the result on
    its restriction to the records with the [analyst_id] of the current
    record.  It does not remove the current record.  When those records are
    well dated, the record it compares with is the member's latest historical
    record, the first in input order among those of the latest month, and a
    non-empty history of the member has one; so when the current record is
    itself in the history and is that latest record, the previous value is
    the current value. *)
Theorem analyzeTrend_member_only (k : Kpi)
  (currentRecord : PerformanceRecord.t)
  (historicalRecords : list PerformanceRecord.t) :
  analyzeTrend k currentRecord historicalRecords =
    analyzeTrend k currentRecord (member_history currentRecord historicalRecords) /\
  (Forall well_dated (member_history currentRecord historicalRecords) ->
   (forall r, latest_prior currentRecord historicalRecords r ->
      PerformanceTrend.previous (analyzeTrend k currentRecord historicalRecords)
        = get_kpi r k) /\
   (member_history currentRecord historicalRecords <> [] ->
    exists r, latest_prior currentRecord historicalRecords r) /\
   (latest_prior currentRecord historicalRecords currentRecord ->
    In currentRecord historicalRecords /\
    PerformanceTrend.previous (analyzeTrend k currentRecord historicalRecords)
      = get_kpi currentRecord k)).
Proof.
  assert (Hsel : Forall well_dated
                   (member_history currentRecord historicalRecords) ->
                 forall r, latest_prior currentRecord historicalRecords r ->
                   PerformanceTrend.previous
                     (analyzeTrend k currentRecord historicalRecords)
                   = get_kpi r k).
  { intros Hwd r Hr.
    destruct (analyzeTrend_values k currentRecord historicalRecords)
      as (_ & Hp & _).
    rewrite Hp, (previous_record_latest _ _ _ Hwd Hr). reflexivity. }
  split.
  - apply analyzeTrend_previous_record. unfold previous_record.
    rewrite <- !member_history_filter, member_history_idem. reflexivity.
  - intros Hwd. split; [exact (Hsel Hwd)|]. split.
    + intros Hne.
      destruct (latest_exists _ Hwd Hne) as (l1 & r & l2 & Heq & H1 & H2).
      exists r, l1, l2. auto.
    + intros Hl. split; [|exact (Hsel Hwd _ Hl)].
      destruct Hl as (l1 & l2 & Heq & _).
      assert (Hin : In currentRecord
                      (member_history currentRecord historicalRecords)).
      { rewrite Heq. apply in_or_app. right. left. reflexivity. }
      unfold member_history in Hin. apply filter_In in Hin. exact (proj1 Hin).
Qed.

Lemma well_dated_rec_jan : well_dated rec_jan.
Proof. split; [exists 1; split; [reflexivity|lia]|simpl; lia]. Defined.

Lemma well_dated_rec_feb : well_dated rec_feb.
Proof. split; [exists 2; split; [reflexivity|lia]|simpl; lia]. Defined.

Lemma analyzeTrend_member_only_witness :
  Forall well_dated (member_history rec_feb [rec_jan; rec_feb]) /\
  latest_prior rec_feb [rec_jan; rec_feb] rec_feb /\
  In rec_feb [rec_jan; rec_feb] /\
  PerformanceTrend.previous (analyzeTrend outreaches rec_feb [rec_jan; rec_feb])
    = 200.
Proof.
  assert (Hwd : Forall well_dated (member_history rec_feb [rec_jan; rec_feb])).
  { change (member_history rec_feb [rec_jan; rec_feb])
      with [rec_jan; rec_feb].
    constructor; [exact well_dated_rec_jan|].
    constructor; [exact well_dated_rec_feb|constructor]. }
  assert (Hl : latest_prior rec_feb [rec_jan; rec_feb] rec_feb).
  { exists [rec_jan], []. split; [reflexivity|]. split; [|constructor].
    constructor; [|constructor]. right. split; [reflexivity|].
    vm_compute. reflexivity. }
  split; [exact Hwd|]. split; [exact Hl|].
  exact (proj2 (proj2 (proj2 (analyzeTrend_member_only outreaches rec_feb
                                [rec_jan; rec_feb]) Hwd)) Hl).
Defined.

(** ** The action-item generator *)

Lemma kpi_key_inj (k k' : Kpi) : kpi_key k = kpi_key k' -> k = k'.
Proof. destruct k, k'; simpl; intros H; try reflexivity; discriminate H. Qed.

Lemma severity_and_priority_band (c : Band) :
  severity_and_priority (band_name c) = (spec_severity c, base_priority c).
Proof. destruct c; reflexivity. Qed.

Lemma escalation_band (c : Band) (t : Trend) :
  (if is_declining t && negb (String.eqb (band_name c) "Good")
   then Z.max 1 (base_priority c - 1)
   else base_priority c) = spec_priority c t.
Proof. destruct c, t; reflexivity. Qed.

Section GeneratorFacts.
Variable table : gmap string (gmap string Recommendation.t).
Variable currentRecord : PerformanceRecord.t.
Variable previousRecords : list PerformanceRecord.t.
Variable targets : list KPITarget.t.

Local Abbreviation step :=
  (action_step table currentRecord previousRecords targets).
Local Abbreviation items :=
  (items_of table currentRecord previousRecords targets).

(** One run of the callback appends the items of its metric, or throws
    when the table has no row for the metric. *)
Lemma action_step_items (acc : list ActionItem.t) (k : Kpi) :
  step acc k =
    match find_target targets k with
    | Some _ =>
        match table !! kpi_key k with
        | Some _ => JS.Normal (acc ++ items k)%list
        | None => JS.Throw "TypeError"
        end
    | None => JS.Normal acc
    end.
Proof.
  unfold step, items, action_step, items_of, cell_for.
  destruct (find_target targets k) as [t|]; [|reflexivity].
  destruct (table !! kpi_key k) as [row|]; [|reflexivity]. simpl.
  rewrite getPerformanceCategory_band. fold (band_name (band_of
    (achievement (get_kpi currentRecord k) (KPITarget.monthly_target t)))).
  fold (band_key (band_of
    (achievement (get_kpi currentRecord k) (KPITarget.monthly_target t)))).
  destruct (row !! band_key _) as [cell|]; [|rewrite app_nil_r; reflexivity].
  rewrite severity_and_priority_band, escalation_band. reflexivity.
Qed.

Lemma forEach_step (ks : list Kpi) (acc : list ActionItem.t) :
  has_rows table ->
  JS.forEach step ks acc = JS.Normal (acc ++ flat_map items ks)%list.
Proof.
  intros Hrows. revert acc.
  induction ks as [|k ks IH]; intros acc; simpl.
  - rewrite app_nil_r. reflexivity.
  - rewrite action_step_items.
    destruct (Hrows k) as [row Hrow]. rewrite Hrow.
    destruct (find_target targets k) as [t|] eqn:Ht; simpl.
    + rewrite IH, <- app_assoc. reflexivity.
    + rewrite IH. unfold items at 2, items_of. rewrite Ht. reflexivity.
Qed.

(** The generator, in one equation: the items of the seven metrics in
    iteration order, sorted by priority. *)
Lemma generateActionItemsWith_items :
  has_rows table ->
  generateActionItemsWith table currentRecord previousRecords targets =
    JS.Normal (JS.sort (by_key ActionItem.priority) (flat_map items kpiNames)).
Proof.
  intros Hrows. unfold generateActionItemsWith.
  fold step. rewrite (forEach_step _ _ Hrows). reflexivity.
Qed.

Lemma in_items (k : Kpi) (item : ActionItem.t) :
  In item (items k) <->
  exists t cell,
    find_target targets k = Some t /\
    cell_for table currentRecord k t = Some cell /\
    item = item_for currentRecord previousRecords k t cell.
Proof.
  unfold items, items_of. split.
  - destruct (find_target targets k) as [t|]; [|intros []].
    destruct (cell_for table currentRecord k t) as [cell|] eqn:Hc;
      [|intros []].
    intros [<-|[]]. exists t, cell. auto.
  - intros (t & cell & -> & -> & ->). left. reflexivity.
Qed.

Lemma items_kpi_sublist (ks : list Kpi) :
  sublist (map ActionItem.kpi (flat_map items ks)) (map kpi_key ks).
Proof.
  induction ks as [|k ks IH]; simpl; [constructor|].
  unfold items at 1, items_of.
  destruct (find_target targets k) as [t|]; [|apply sublist_cons, IH].
  destruct (cell_for table currentRecord k t) as [cell|];
    [|apply sublist_cons, IH].
  simpl. apply sublist_skip, IH.
Qed.

End GeneratorFacts.

Lemma Normal_inj {A : Type} (a b : A) : JS.Normal a = JS.Normal b -> a = b.
Proof. intros H. injection H as H. exact H. Qed.

(** Every cell of the source's table is filled. *)
Lemma every_cell_filled (k : Kpi) (c : Band) :
  is_Some (row ← KPI_RECOMMENDATIONS !! kpi_key k; row !! band_key c).
Proof. destruct k, c; vm_compute; eexists; reflexivity. Qed.

Lemma has_rows_KPI_RECOMMENDATIONS : has_rows KPI_RECOMMENDATIONS.
Proof.
  intros k. destruct (every_cell_filled k Critical) as [cell Hcell].
  destruct (KPI_RECOMMENDATIONS !! kpi_key k) as [row|];
    [eexists; reflexivity|discriminate Hcell].
Qed.

Lemma cell_for_KPI_RECOMMENDATIONS (currentRecord : PerformanceRecord.t)
  (k : Kpi) (t : KPITarget.t) :
  is_Some (cell_for KPI_RECOMMENDATIONS currentRecord k t).
Proof. apply every_cell_filled. Qed.

Lemma generateActionItems_items (currentRecord : PerformanceRecord.t)
  (previousRecords : list PerformanceRecord.t) (targets : list KPITarget.t) :
  generateActionItems currentRecord previousRecords targets =
    JS.Normal
      (JS.sort (by_key ActionItem.priority)
         (flat_map
            (items_of KPI_RECOMMENDATIONS currentRecord previousRecords targets)
            kpiNames)).
Proof.
  apply generateActionItemsWith_items, has_rows_KPI_RECOMMENDATIONS.
Qed.

(** Membership in the output of the generator. *)
Lemma in_generateActionItems (currentRecord : PerformanceRecord.t)
  (previousRecords : list PerformanceRecord.t) (targets : list KPITarget.t)
  (l : list ActionItem.t) (item : ActionItem.t) :
  generateActionItems currentRecord previousRecords targets = JS.Normal l ->
  In item l ->
  exists k t cell,
    find_target targets k = Some t /\
    cell_for KPI_RECOMMENDATIONS currentRecord k t = Some cell /\
    item = item_for currentRecord previousRecords k t cell.
Proof.
  rewrite generateActionItems_items. intros Heq Hin.
  apply Normal_inj in Heq. rewrite <- Heq in Hin.
  apply sort_In, in_flat_map in Hin as (k & _ & Hin).
  apply in_items in Hin as (t & cell & H). exists k, t, cell. exact H.
Qed.

(** *** Severity and priority *)

(** C2.  Every item the generator emits belongs to a metric with a target;
    with [c] the band of the metric's achievement, its severity is the one of
    [c] (critical, warning, info, success) and its priority is the base
    priority of [c] (1, 2, 3, 4), lowered by one but not below 1 when the
    trend is declining and [c] is not Good.  So a declining Target metric has
    priority 2 and a declining Good metric keeps priority 4. *)
Theorem severity_priority_by_category
  (currentRecord : PerformanceRecord.t)
  (previousRecords : list PerformanceRecord.t) (targets : list KPITarget.t)
  (l : list ActionItem.t) (item : ActionItem.t) :
  generateActionItems currentRecord previousRecords targets = JS.Normal l ->
  In item l ->
  (exists k t,
      find_target targets k = Some t /\
      ActionItem.kpi item = kpi_key k /\
      let p := achievement (get_kpi currentRecord k)
                 (KPITarget.monthly_target t) in
      let c := band_of p in
      let direction :=
        PerformanceTrend.trend (analyzeTrend k currentRecord previousRecords) in
      getPerformanceCategory p = band_category c /\
      ActionItem.severity item = spec_severity c /\
      ActionItem.priority item = spec_priority c direction /\
      (direction = declining -> c <> Good ->
       ActionItem.priority item = Z.max 1 (base_priority c - 1)) /\
      (direction <> declining \/ c = Good ->
       ActionItem.priority item = base_priority c)) /\
  (spec_priority Critical declining = 1 /\ spec_priority Bad declining = 1 /\
   spec_priority Target declining = 2 /\ spec_priority Good declining = 4).
Proof.
  intros Hgen Hin. split; [|repeat split; reflexivity].
  destruct (in_generateActionItems _ _ _ _ _ Hgen Hin)
    as (k & t & cell & Ht & _ & ->).
  exists k, t. split; [exact Ht|]. split; [reflexivity|]. simpl.
  split; [apply getPerformanceCategory_band|].
  split; [reflexivity|]. split; [reflexivity|]. split.
  - intros -> Hc. destruct (band_of _); [reflexivity..|congruence].
  - intros [Hd| ->].
    + destruct (PerformanceTrend.trend _); [reflexivity|congruence|reflexivity].
    + destruct (PerformanceTrend.trend _); reflexivity.
Qed.

Lemma severity_priority_by_category_witness :
  exists l item,
    generateActionItems rec_dec [rec_oct] mockKPITargets = JS.Normal l /\
    In item l /\
    exists k t,
      find_target mockKPITargets k = Some t /\
      ActionItem.kpi item = kpi_key k /\
      ActionItem.severity item =
        spec_severity (band_of (achievement (get_kpi rec_dec k)
                                  (KPITarget.monthly_target t))).
Proof.
  pose proof (severity_priority_by_category rec_dec [rec_oct]
                mockKPITargets) as H.
  remember (generateActionItems rec_dec [rec_oct] mockKPITargets) as g eqn:Hg.
  vm_compute in Hg. subst g.
  eexists _, _. split; [reflexivity|]. split; [left; reflexivity|].
  destruct (H _ _ eq_refl (or_introl eq_refl))
    as ((k & t & Ht & Hk & _ & Hs & _) & _).
  exists k, t. auto.
Defined.

(** *** Order of the output *)

Lemma before_kpi_position (a b : string) :
  before (map kpi_key kpiNames) a b ->
  (kpi_position a < kpi_position b)%nat.
Proof.
  intros H. simpl in H.
  repeat (apply before_cons_inv in H as [[-> Hin]|H];
          [simpl in Hin;
           repeat (destruct Hin as [<-|Hin]; [vm_compute; lia|]);
           destruct Hin|]).
  destruct (before_nil _ _ H).
Qed.

(** C4.  The output is sorted by ascending priority and the sort is stable:
    of two items, the one at the smaller index has the smaller or the same
    priority, and when the priorities are equal its metric comes first in
    the iteration order of the seven metrics. *)
Theorem generateActionItems_sorted_stable
  (currentRecord : PerformanceRecord.t)
  (previousRecords : list PerformanceRecord.t) (targets : list KPITarget.t)
  (l : list ActionItem.t) (i j : nat) (a b : ActionItem.t) :
  generateActionItems currentRecord previousRecords targets = JS.Normal l ->
  l !! i = Some a -> l !! j = Some b -> (i < j)%nat ->
  ActionItem.priority a <= ActionItem.priority b /\
  (ActionItem.priority a = ActionItem.priority b ->
   (kpi_position (ActionItem.kpi a) < kpi_position (ActionItem.kpi b))%nat).
Proof.
  intros Hgen Hi Hj Hlt.
  pose proof (lookup_before l i j a b Hi Hj Hlt) as Hb.
  rewrite generateActionItems_items in Hgen.
  apply Normal_inj in Hgen. rewrite <- Hgen in Hb. split.
  - exact (sort_ascending ActionItem.priority _ a b Hb).
  - intros Heq. apply before_kpi_position.
    apply (before_sublist _ _ _ _
             (items_kpi_sublist KPI_RECOMMENDATIONS currentRecord
                previousRecords targets kpiNames)).
    apply before_map. exact (sort_stable ActionItem.priority _ a b Hb Heq).
Qed.

Lemma generateActionItems_sorted_stable_witness :
  exists l a b,
    generateActionItems rec_oct [rec_sep] mockKPITargets = JS.Normal l /\
    l !! 5%nat = Some a /\ l !! 6%nat = Some b /\ (5 < 6)%nat /\
    ActionItem.priority a <= ActionItem.priority b.
Proof.
  pose proof (generateActionItems_sorted_stable rec_oct [rec_sep]
                mockKPITargets) as H.
  remember (generateActionItems rec_oct [rec_sep] mockKPITargets) as g eqn:Hg.
  vm_compute in Hg. subst g.
  eexists _, _, _. split; [reflexivity|].
  split; [reflexivity|]. split; [reflexivity|]. split; [lia|].
  apply (H _ 5%nat 6%nat _ _ eq_refl eq_refl eq_refl). lia.
Defined.

(** *** A target of zero *)

(** The statistics skip a metric whose target is not positive. *)
Lemma stats_step_zero_target (targets : list KPITarget.t)
  (record : PerformanceRecord.t) (s : Stats.t) (k : Kpi) (t : KPITarget.t) :
  find_target targets k = Some t -> KPITarget.monthly_target t <= 0 ->
  stats_step targets record s k = s.
Proof.
  intros Ht Hz. rewrite stats_step_cases, Ht.
  destruct (Z.ltb_spec 0 (KPITarget.monthly_target t)); [lia|reflexivity].
Qed.

(** C5, at the failing input.  With a monthly target of 0 for
    [outreaches] and a count of 5, the statistics count nothing, but the
    generator divides by the target, obtains [Infinity] for the achievement,
    classifies it as Good and emits an item. *)
Theorem zero_target_item_emitted :
  find_target [zero_target] outreaches = Some zero_target /\
  KPITarget.monthly_target zero_target = 0 /\
  Stats.total (getPerformanceCategoryStats [rec_five] [zero_target]) = 0 /\
  achievement (get_kpi rec_five outreaches) 0 = JS.PosInf /\
  exists item,
    generateActionItems rec_five [] [zero_target] = JS.Normal [item] /\
    ActionItem.kpi item = "outreaches" /\
    ActionItem.severity item = success /\
    ActionItem.priority item = 4 /\
    ActionItem.description item =
      "Current: 5 | Target: 0 | Achievement: Infinity% | Trend: improving (+100%)".
Proof.
  split; [reflexivity|]. split; [reflexivity|]. split; [reflexivity|].
  split; [reflexivity|].
  eexists. split; [vm_compute; reflexivity|]. repeat split.
Qed.

(** *** The sign of the change percentage *)

(** Counterexample to C7: a metric at 0 with no history has change
    percentage 0, and the description renders it as [0%], not [+0%]. *)
Lemma description_zero_change_unsigned :
  exists item,
    generateActionItems rec_zero [] [outreach_target] = JS.Normal [item] /\
    PerformanceTrend.changePercentage (analyzeTrend outreaches rec_zero [])
      = JS.Int 0 /\
    ActionItem.description item =
      "Current: 0 | Target: 525 | Achievement: 0% | Trend: stable (0%)" /\
    ActionItem.description item <>
      "Current: 0 | Target: 525 | Achievement: 0% | Trend: stable (" +:+
      signed_change_claimed 0 +:+ "%)".
Proof.
  eexists. split; [vm_compute; reflexivity|].
  split; [reflexivity|]. split; [reflexivity|].
  vm_compute. intros H. discriminate H.
Qed.

Lemma sign_prefix (c : JS.rounded) :
  (if JS.gtb c 0 then "+" else "") +:+ JS.toString c = signed_change c.
Proof. destruct c as [[|p|p]| | |]; reflexivity. Qed.

Lemma describe_signed (currentValue monthly_target : Z)
  (percentage : JS.rounded) (trend : PerformanceTrend.t) :
  describe currentValue monthly_target percentage trend =
    "Current: " +:+ pretty currentValue +:+
    " | Target: " +:+ pretty monthly_target +:+
    " | Achievement: " +:+ JS.toString percentage +:+
    "% | Trend: " +:+ trend_string (PerformanceTrend.trend trend) +:+
    " (" +:+ signed_change (PerformanceTrend.changePercentage trend) +:+ "%)".
Proof.
  unfold describe. rewrite <- sign_prefix.
  destruct (JS.gtb (PerformanceTrend.changePercentage trend) 0); reflexivity.
Qed.

(** C7, amended.  The description of every emitted item ends with the
    change percentage of the metric's trend between parentheses, written with
    [+] when it is positive, without a sign when it is 0, and with [-] when
    it is negative. *)
Theorem description_signed_change
  (currentRecord : PerformanceRecord.t)
  (previousRecords : list PerformanceRecord.t) (targets : list KPITarget.t)
  (l : list ActionItem.t) (item : ActionItem.t) :
  generateActionItems currentRecord previousRecords targets = JS.Normal l ->
  In item l ->
  exists k t,
    find_target targets k = Some t /\
    ActionItem.kpi item = kpi_key k /\
    let trend := analyzeTrend k currentRecord previousRecords in
    let change := PerformanceTrend.changePercentage trend in
    ActionItem.description item =
      "Current: " +:+ pretty (get_kpi currentRecord k) +:+
      " | Target: " +:+ pretty (KPITarget.monthly_target t) +:+
      " | Achievement: " +:+
      JS.toString (achievement (get_kpi currentRecord k)
                     (KPITarget.monthly_target t)) +:+
      "% | Trend: " +:+ trend_string (PerformanceTrend.trend trend) +:+
      " (" +:+ signed_change change +:+ "%)" /\
    (forall p : positive,
        change = JS.Int (Z.pos p) -> signed_change change = "+" +:+ pretty p) /\
    (change = JS.Int 0 -> signed_change change = "0") /\
    (forall p : positive,
        change = JS.Int (Z.neg p) -> signed_change change = "-" +:+ pretty p).
Proof.
  intros Hgen Hin.
  destruct (in_generateActionItems _ _ _ _ _ Hgen Hin)
    as (k & t & cell & Ht & _ & ->).
  exists k, t. split; [exact Ht|]. split; [reflexivity|]. simpl.
  split; [apply describe_signed|].
  repeat split; intros; match goal with H : _ = JS.Int _ |- _ => rewrite H end;
    reflexivity.
Qed.

Lemma description_signed_change_witness :
  exists item,
    generateActionItems rec_zero [] [outreach_target] = JS.Normal [item] /\
    In item [item] /\
    exists k t,
      find_target [outreach_target] k = Some t /\
      ActionItem.kpi item = kpi_key k /\
      ActionItem.description item =
        "Current: " +:+ pretty (get_kpi rec_zero k) +:+
        " | Target: " +:+ pretty (KPITarget.monthly_target t) +:+
        " | Achievement: " +:+
        JS.toString (achievement (get_kpi rec_zero k)
                       (KPITarget.monthly_target t)) +:+
        "% | Trend: " +:+
        trend_string (PerformanceTrend.trend (analyzeTrend k rec_zero [])) +:+
        " (" +:+
        signed_change
          (PerformanceTrend.changePercentage (analyzeTrend k rec_zero [])) +:+
        "%)".
Proof.
  pose proof (description_signed_change rec_zero [] [outreach_target]) as H.
  remember (generateActionItems rec_zero [] [outreach_target]) as g eqn:Hg.
  vm_compute in Hg. subst g.
  eexists. split; [reflexivity|]. split; [left; reflexivity|].
  destruct (H _ _ eq_refl (or_introl eq_refl)) as (k & t & Ht & Hk & Hd & _).
  exists k, t. auto.
Defined.

(** *** No exception, and what is left out *)

Lemma sort_Permutation {A : Type} (cmp : A -> A -> option Z) (l : list A) :
  Permutation (JS.sort cmp l) l.
Proof.
  assert (Hins : forall x l', Permutation (JS.sort_insert cmp x l') (x :: l')).
  { intros x l'. induction l' as [|y l' IH]; simpl; [reflexivity|].
    destruct (JS.sort_gt cmp x y); [|reflexivity].
    rewrite IH. apply perm_swap. }
  induction l as [|x l IH]; simpl; [reflexivity|].
  rewrite Hins, IH. reflexivity.
Qed.

Lemma NoDup_kpi_keys : NoDup (map kpi_key kpiNames).
Proof.
  apply NoDup_ListNoDup. simpl.
  repeat (constructor;
          [simpl; intros H; decompose [or] H; try discriminate; assumption|]).
  constructor.
Qed.

(** C8.  The source's table has a row for each of the seven metric keys,
    and with any such table the generator completes normally on every input.
    A metric has an item in the output exactly when a target matches its key
    and the table has a cell for its band; every item of the output is the
    complete item of such a metric, and no metric has two items. *)
Theorem generateActionItems_never_throws :
  has_rows KPI_RECOMMENDATIONS /\
  forall (table : gmap string (gmap string Recommendation.t))
         (currentRecord : PerformanceRecord.t)
         (previousRecords : list PerformanceRecord.t)
         (targets : list KPITarget.t),
    has_rows table ->
    exists l,
      generateActionItemsWith table currentRecord previousRecords targets
        = JS.Normal l /\
      (forall k : Kpi,
          (exists item, In item l /\ ActionItem.kpi item = kpi_key k) <->
          (exists t row cell,
              find_target targets k = Some t /\
              table !! kpi_key k = Some row /\
              row !! JS.toLowerCase
                       (PerformanceCategory.name
                          (getPerformanceCategory
                             (achievement (get_kpi currentRecord k)
                                (KPITarget.monthly_target t))))
                = Some cell)) /\
      (forall item, In item l ->
          exists k t cell,
            find_target targets k = Some t /\
            cell_for table currentRecord k t = Some cell /\
            item = item_for currentRecord previousRecords k t cell) /\
      NoDup (map ActionItem.kpi l).
Proof.
  split; [exact has_rows_KPI_RECOMMENDATIONS|].
  intros table currentRecord previousRecords targets Hrows.
  eexists. split; [apply generateActionItemsWith_items, Hrows|].
  assert (Hin : forall item,
             In item (JS.sort (by_key ActionItem.priority)
                        (flat_map (items_of table currentRecord
                                     previousRecords targets) kpiNames)) <->
             exists k t cell,
               find_target targets k = Some t /\
               cell_for table currentRecord k t = Some cell /\
               item = item_for currentRecord previousRecords k t cell).
  { intros item. rewrite sort_In, in_flat_map. split.
    - intros (k & _ & H). apply in_items in H as (t & cell & H).
      exists k, t, cell. exact H.
    - intros (k & t & cell & H). exists k. split.
      + destruct k; simpl; tauto.
      + apply in_items. exists t, cell. exact H. }
  split; [|split].
  - intros k. split.
    + intros (item & Hitem & Hk).
      apply Hin in Hitem as (k' & t & cell & Ht & Hc & ->).
      simpl in Hk. apply kpi_key_inj in Hk as ->.
      unfold cell_for in Hc.
      destruct (table !! kpi_key k) as [row|] eqn:Hrow; [|discriminate Hc].
      exists t, row, cell. rewrite getPerformanceCategory_band. auto.
    + intros (t & row & cell & Ht & Hrow & Hc).
      exists (item_for currentRecord previousRecords k t cell).
      split; [|reflexivity]. apply Hin. exists k, t, cell.
      split; [exact Ht|]. split; [|reflexivity].
      unfold cell_for. rewrite Hrow. simpl.
      rewrite getPerformanceCategory_band in Hc. exact Hc.
  - intros item. apply Hin.
  - apply NoDup_ListNoDup. eapply Permutation_NoDup.
    + apply Permutation_map. symmetry. apply sort_Permutation.
    + apply NoDup_ListNoDup.
      eapply sublist_NoDup; [apply NoDup_kpi_keys|apply items_kpi_sublist].
Qed.

Lemma has_rows_table_without_cell : has_rows table_without_cell.
Proof.
  intros k. unfold table_without_cell.
  destruct (decide ("outreaches" = kpi_key k)) as [<-|Hne].
  - rewrite lookup_insert_eq. eexists. reflexivity.
  - rewrite lookup_insert_ne by exact Hne.
    apply has_rows_KPI_RECOMMENDATIONS.
Defined.

Lemma generateActionItems_never_throws_witness :
  has_rows table_without_cell /\
  exists l,
    generateActionItemsWith table_without_cell rec_oct [rec_sep] mockKPITargets
      = JS.Normal l /\
    NoDup (map ActionItem.kpi l).
Proof.
  split; [exact has_rows_table_without_cell|].
  destruct (proj2 generateActionItems_never_throws table_without_cell rec_oct
              [rec_sep] mockKPITargets has_rows_table_without_cell)
    as (l & Hl & _ & _ & Hnd).
  exists l. split; [exact Hl|exact Hnd].
Defined.

(** With the Good cell of [outreaches] missing, a record whose outreach
    achievement is Good yields no outreach item, and the other six metrics
    are still reported. *)
Example missing_cell_is_skipped :
  let r := mk_record "perf-7" "mock-analyst-1" "10" 2025 700 17 3 8 13 5 3 in
  match generateActionItemsWith table_without_cell r [] mockKPITargets with
  | JS.Normal l =>
      map ActionItem.kpi l =
        [ "live_links"; "high_da_links"; "content_distribution";
          "blog_optimizations"; "top_5_keywords"; "new_blogs" ]
  | JS.Throw _ => False
  end.
Proof. vm_compute. reflexivity. Qed.

(** *** Role-agnostic and role-specific target lookup *)

Lemma find_target_same_but_role (ts1 ts2 : list KPITarget.t) (k : Kpi) :
  Forall2 same_but_role ts1 ts2 ->
  match find_target ts1 k, find_target ts2 k with
  | Some t1, Some t2 =>
      KPITarget.monthly_target t1 = KPITarget.monthly_target t2
  | None, None => True
  | _, _ => False
  end.
Proof.
  unfold find_target.
  induction 1 as [|a b ts1 ts2 (_ & Hk & Hm & _) _ IH]; simpl; [exact I|].
  rewrite Hk. destruct (String.eqb _ _); [exact Hm|exact IH].
Qed.

Lemma action_step_same_but_role
  (table : gmap string (gmap string Recommendation.t))
  (currentRecord : PerformanceRecord.t)
  (previousRecords : list PerformanceRecord.t) (ts1 ts2 : list KPITarget.t)
  (acc : list ActionItem.t) (k : Kpi) :
  Forall2 same_but_role ts1 ts2 ->
  action_step table currentRecord previousRecords ts1 acc k =
    action_step table currentRecord previousRecords ts2 acc k.
Proof.
  intros H. pose proof (find_target_same_but_role ts1 ts2 k H) as Hf.
  unfold action_step.
  destruct (find_target ts1 k) as [t1|], (find_target ts2 k) as [t2|];
    try contradiction; [|reflexivity].
  rewrite Hf. reflexivity.
Qed.

Lemma forEach_ext {X S : Type} (f g : S -> X -> JS.completion S)
  (xs : list X) (s : S) :
  (forall s x, f s x = g s x) -> JS.forEach f xs s = JS.forEach g xs s.
Proof.
  intros Hfg. revert s. induction xs as [|x xs IH]; intros s; simpl.
  - reflexivity.
  - rewrite Hfg. destruct (g s x); simpl; [apply IH|reflexivity].
Qed.

(** C9.  The monthly generator finds a target by metric key alone: on two
    target lists that differ only in the roles of their entries it returns
    the same output.  The annual report finds a target by metric key and the
    analyst's department: there are two such lists on which it differs. *)
Theorem monthly_lookup_ignores_role :
  (forall (currentRecord : PerformanceRecord.t)
          (previousRecords : list PerformanceRecord.t)
          (ts1 ts2 : list KPITarget.t),
      Forall2 same_but_role ts1 ts2 ->
      generateActionItems currentRecord previousRecords ts1 =
        generateActionItems currentRecord previousRecords ts2) /\
  (exists (analyst : Analyst.t) (records : list PerformanceRecord.t)
          (ts1 ts2 : list KPITarget.t),
      Forall2 same_but_role ts1 ts2 /\
      annualReport analyst records ts1 <> annualReport analyst records ts2 /\
      find_role_target ts1 analyst outreaches <> None /\
      find_role_target ts2 analyst outreaches = None).
Proof.
  split.
  - intros currentRecord previousRecords ts1 ts2 H.
    unfold generateActionItems, generateActionItemsWith. f_equal.
    apply forEach_ext. intros acc k.
    apply action_step_same_but_role, H.
  - exists seo_analyst, [rec_sep], [outreach_target], [writer_target].
    split; [|split; [|split]].
    + constructor; [|constructor]. repeat split.
    + vm_compute. intros H. discriminate H.
    + vm_compute. intros H. discriminate H.
    + reflexivity.
Qed.

Lemma monthly_lookup_ignores_role_witness :
  Forall2 same_but_role [outreach_target] [writer_target] /\
  generateActionItems rec_oct [rec_sep] [outreach_target] =
    generateActionItems rec_oct [rec_sep] [writer_target].
Proof.
  assert (H : Forall2 same_but_role [outreach_target] [writer_target]).
  { constructor; [|constructor]. repeat split. }
  split; [exact H|].
  exact (proj1 monthly_lookup_ignores_role rec_oct [rec_sep] _ _ H).
Defined.

(** ** Worked examples *)

(** Achievement rounding at the Bad/Target boundary: 79 of 95 is 83% and
    Bad, 80 of 95 is 84% and Target. *)
Example achievement_boundary :
  achievement 79 95 = JS.Int 83 /\
  getPerformanceCategory (achievement 79 95) = band_category Bad /\
  achievement 80 95 = JS.Int 84 /\
  getPerformanceCategory (achievement 80 95) = band_category Target.
Proof. repeat split; reflexivity. Qed.

(** September 2025 with 400 outreaches against a monthly target of 525:
    76%, Bad, severity warning, priority 2 without history and priority 1
    when the count declined from 450 the month before. *)
Example end_to_end_outreaches :
  let r := mk_record "perf-1" "analyst-1" "09" 2025 400 0 0 0 0 0 0 in
  let p := mk_record "perf-0" "analyst-1" "08" 2025 450 0 0 0 0 0 0 in
  (exists item,
      generateActionItems r [] [outreach_target] = JS.Normal [item] /\
      ActionItem.severity item = warning /\ ActionItem.priority item = 2 /\
      ActionItem.description item =
        "Current: 400 | Target: 525 | Achievement: 76% | Trend: improving (+100%)") /\
  (exists item,
      generateActionItems r [p] [outreach_target] = JS.Normal [item] /\
      ActionItem.severity item = warning /\ ActionItem.priority item = 1 /\
      ActionItem.description item =
        "Current: 400 | Target: 525 | Achievement: 76% | Trend: declining (-11%)").
Proof.
  split; (eexists; split; [vm_compute; reflexivity|repeat split]).
Qed.

(** * Further properties *)

(** ** The classifier is monotone *)

(** X1.  A higher integer percentage never falls in an earlier category of
    [performanceCategories]: the index of the category of [p] is at most the
    index of the category of [q] whenever [p <= q]. *)
Theorem getPerformanceCategory_monotone (p q : Z) :
  p <= q ->
  exists i j : nat,
    getPerformanceCategory (JS.Int p) = category_at i /\
    getPerformanceCategory (JS.Int q) = category_at j /\
    (i <= j < 4)%nat.
Proof.
  intros Hpq.
  exists (band_index (band_of (JS.Int p))), (band_index (band_of (JS.Int q))).
  split; [apply getPerformanceCategory_band|].
  split; [apply getPerformanceCategory_band|].
  unfold band_of, JS.leb.
  repeat match goal with
         | |- context [?a <=? ?b] => destruct (Z.leb_spec a b)
         end; simpl; lia.
Qed.

Lemma getPerformanceCategory_monotone_witness :
  66 <= 67 /\
  exists i j : nat,
    getPerformanceCategory (JS.Int 66) = category_at i /\
    getPerformanceCategory (JS.Int 67) = category_at j /\
    (i <= j < 4)%nat.
Proof. split; [lia|]. apply getPerformanceCategory_monotone. lia. Defined.

(** ** The trend record is coherent *)

(** X2.  On every input the direction returned by [analyzeTrend] is the
    one its change percentage calls for (improving above 5, declining below
    -5, stable otherwise), also in the two default cases; a declining trend is
    only reported against a positive previous value; without a positive
    previous value the change is 100 or 0; and the record carries the metric
    key and the current value. *)
Theorem analyzeTrend_coherent (k : Kpi) (currentRecord : PerformanceRecord.t)
  (previousRecords : list PerformanceRecord.t) :
  let t := analyzeTrend k currentRecord previousRecords in
  PerformanceTrend.trend t = direction (PerformanceTrend.changePercentage t) /\
  (PerformanceTrend.trend t = declining ->
   0 < PerformanceTrend.previous t /\
   JS.ltb (PerformanceTrend.changePercentage t) (-5) = true) /\
  (PerformanceTrend.previous t <= 0 ->
   PerformanceTrend.changePercentage t =
     JS.Int (if 0 <? get_kpi currentRecord k then 100 else 0)) /\
  (member_history currentRecord previousRecords = [] ->
   PerformanceTrend.previous t = 0) /\
  PerformanceTrend.current t = get_kpi currentRecord k /\
  PerformanceTrend.kpi t = kpi_key k.
Proof.
  intros t.
  destruct (analyzeTrend_values k currentRecord previousRecords)
    as (Hv & Hp & Hc & Hk). fold t in Hv, Hp, Hc, Hk.
  rewrite <- Hp in Hv. unfold trend_of_values in Hv.
  split; [|split; [|split; [|split; [|split]]]]; try assumption.
  - destruct (0 <? PerformanceTrend.previous t);
      [|destruct (0 <? get_kpi currentRecord k)];
      injection Hv as -> ->; reflexivity.
  - intros Hd. rewrite Hd in Hv.
    destruct (Z.ltb_spec 0 (PerformanceTrend.previous t)) as [Hpos|_].
    + split; [exact Hpos|]. injection Hv as Hdir Hch. rewrite Hch.
      unfold direction in Hdir.
      destruct (JS.gtb _ 5); [discriminate Hdir|].
      destruct (JS.ltb _ (-5)); [reflexivity|discriminate Hdir].
    + destruct (0 <? get_kpi currentRecord k); discriminate Hv.
  - intros Hle.
    destruct (Z.ltb_spec 0 (PerformanceTrend.previous t)) as [Hpos|_]; [lia|].
    destruct (0 <? get_kpi currentRecord k); injection Hv as _ ->; reflexivity.
  - intros Hnil. rewrite Hp, (previous_record_none _ _ Hnil). reflexivity.
Qed.

Lemma analyzeTrend_coherent_witness :
  PerformanceTrend.trend (analyzeTrend outreaches rec_dec [rec_oct]) = declining /\
  0 < PerformanceTrend.previous (analyzeTrend outreaches rec_dec [rec_oct]).
Proof.
  assert (H : PerformanceTrend.trend (analyzeTrend outreaches rec_dec [rec_oct])
              = declining) by (vm_compute; reflexivity).
  split; [exact H|].
  exact (proj1 (proj1 (proj2 (analyzeTrend_coherent outreaches rec_dec [rec_oct]))
                  H)).
Defined.

(** ** The statistics are a sum over the records *)

Lemma stats_add_zero_r (s : Stats.t) : stats_add s stats_zero = s.
Proof. apply stats_eq; simpl; lia. Qed.

Lemma stats_add_assoc (a b c : Stats.t) :
  stats_add (stats_add a b) c = stats_add a (stats_add b c).
Proof. apply stats_eq; simpl; lia. Qed.

Lemma stats_add_comm (a b : Stats.t) : stats_add a b = stats_add b a.
Proof. apply stats_eq; simpl; lia. Qed.

Lemma bump_add (c : Band) (s s' : Stats.t) :
  bump c (stats_add s s') = stats_add s (bump c s').
Proof. apply stats_eq; simpl; lia. Qed.

(** A fold whose step adds an amount that does not depend on the counters
    adds the same total to any counters. *)
Lemma fold_left_stats_add {X : Type} (f : Stats.t -> X -> Stats.t)
  (xs : list X) (s : Stats.t) :
  (forall s x, f s x = stats_add s (f stats_zero x)) ->
  fold_left f xs s = stats_add s (fold_left f xs stats_zero).
Proof.
  intros Hf. revert s. induction xs as [|x xs IH]; intros s; simpl.
  - rewrite stats_add_zero_r. reflexivity.
  - rewrite IH, (IH (f stats_zero x)), <- stats_add_assoc, <- Hf.
    reflexivity.
Qed.

Lemma stats_step_add (targets : list KPITarget.t)
  (record : PerformanceRecord.t) (s : Stats.t) (k : Kpi) :
  stats_step targets record s k =
    stats_add s (stats_step targets record stats_zero k).
Proof.
  rewrite !stats_step_cases.
  destruct (find_target targets k) as [t|];
    [|rewrite stats_add_zero_r; reflexivity].
  destruct (0 <? KPITarget.monthly_target t);
    [|rewrite stats_add_zero_r; reflexivity].
  rewrite <- bump_add, stats_add_zero_r. reflexivity.
Qed.

(** The callbacks of one record add the same amount to any counters. *)
Lemma stats_record_add (targets : list KPITarget.t)
  (record : PerformanceRecord.t) (ks : list Kpi) (s : Stats.t) :
  fold_left (stats_step targets record) ks s =
    stats_add s (fold_left (stats_step targets record) ks stats_zero).
Proof. apply fold_left_stats_add. intros. apply stats_step_add. Qed.

Lemma stats_records_add (targets : list KPITarget.t)
  (records : list PerformanceRecord.t) (s : Stats.t) :
  fold_left
    (fun stats record => fold_left (stats_step targets record) kpiNames stats)
    records s =
    stats_add s (getPerformanceCategoryStats records targets).
Proof.
  apply (fold_left_stats_add
           (fun stats record =>
              fold_left (stats_step targets record) kpiNames stats)).
  intros s' r. apply stats_record_add.
Qed.

Lemma fold_left_single {S X : Type} (f : S -> X -> S) (x : X) (s : S) :
  fold_left f [x] s = f s x.
Proof. reflexivity. Qed.

Lemma stats_app (targets : list KPITarget.t)
  (records1 records2 : list PerformanceRecord.t) :
  getPerformanceCategoryStats (records1 ++ records2) targets =
    stats_add (getPerformanceCategoryStats records1 targets)
      (getPerformanceCategoryStats records2 targets).
Proof.
  rewrite <- stats_records_add.
  unfold getPerformanceCategoryStats. apply fold_left_app.
Qed.

Lemma stats_cons (targets : list KPITarget.t) (r : PerformanceRecord.t)
  (records : list PerformanceRecord.t) :
  getPerformanceCategoryStats (r :: records) targets =
    stats_add (getPerformanceCategoryStats [r] targets)
      (getPerformanceCategoryStats records targets).
Proof. apply (stats_app targets [r] records). Qed.

Lemma stats_single (targets : list KPITarget.t) (r : PerformanceRecord.t) :
  getPerformanceCategoryStats [r] targets =
    fold_left (stats_step targets r) kpiNames stats_zero.
Proof.
  unfold getPerformanceCategoryStats. rewrite fold_left_single. reflexivity.
Qed.

(** X3.  The statistics of a list of records are the counter-wise sum of
    the statistics of its parts, so they do not depend on the order of the
    records: splitting the list or permuting it changes nothing. *)
Theorem stats_additive (targets : list KPITarget.t) :
  (forall records1 records2 : list PerformanceRecord.t,
      getPerformanceCategoryStats (records1 ++ records2) targets =
        stats_add (getPerformanceCategoryStats records1 targets)
          (getPerformanceCategoryStats records2 targets)) /\
  (forall records1 records2 : list PerformanceRecord.t,
      Permutation records1 records2 ->
      getPerformanceCategoryStats records1 targets =
        getPerformanceCategoryStats records2 targets).
Proof.
  split; [apply stats_app|].
  induction 1 as [|x l l' _ IH|x y l|l l' l'' _ IH1 _ IH2].
  - reflexivity.
  - rewrite (stats_cons targets x l), (stats_cons targets x l'), IH.
    reflexivity.
  - rewrite (stats_cons targets y (x :: l)), (stats_cons targets x l).
    rewrite (stats_cons targets x (y :: l)), (stats_cons targets y l).
    rewrite <- !stats_add_assoc. f_equal. apply stats_add_comm.
  - rewrite IH1. exact IH2.
Qed.

Lemma stats_additive_witness :
  Permutation [rec_sep; rec_oct] [rec_oct; rec_sep] /\
  getPerformanceCategoryStats [rec_sep; rec_oct] mockKPITargets =
    getPerformanceCategoryStats [rec_oct; rec_sep] mockKPITargets.
Proof.
  assert (H : Permutation [rec_sep; rec_oct] [rec_oct; rec_sep])
    by apply perm_swap.
  split; [exact H|].
  exact (proj2 (stats_additive mockKPITargets) _ _ H).
Defined.

Lemma stats_record_total (targets : list KPITarget.t)
  (record : PerformanceRecord.t) (ks : list Kpi) (s : Stats.t) :
  Stats.total (fold_left (stats_step targets record) ks s) =
    Stats.total s + Z.of_nat (length (List.filter (graded targets) ks)).
Proof.
  revert s. induction ks as [|k ks IH]; intros s; simpl; [lia|].
  rewrite IH, stats_step_cases. unfold graded at 2.
  destruct (find_target targets k) as [t|]; [|lia].
  destruct (0 <? KPITarget.monthly_target t); simpl length; simpl; lia.
Qed.

(** X4.  The total of the statistics is the number of records times the
    number of metrics whose first matching target is positive; in particular
    it is at most seven times the number of records, and it is 0 when there
    is no record or no target. *)
Theorem stats_total_count (records : list PerformanceRecord.t)
  (targets : list KPITarget.t) :
  let n := Z.of_nat (length (List.filter (graded targets) kpiNames)) in
  Stats.total (getPerformanceCategoryStats records targets) =
    Z.of_nat (length records) * n /\
  0 <= n <= 7 /\
  Stats.total (getPerformanceCategoryStats records targets) <=
    7 * Z.of_nat (length records) /\
  getPerformanceCategoryStats [] targets = stats_zero /\
  getPerformanceCategoryStats records [] = stats_zero.
Proof.
  intros n.
  assert (Hn : 0 <= n <= 7).
  { subst n. pose proof (filter_length_le (graded targets) kpiNames) as H.
    change (length kpiNames) with 7%nat in H. lia. }
  assert (Ht : Stats.total (getPerformanceCategoryStats records targets) =
               Z.of_nat (length records) * n).
  { induction records as [|r records IH]; [reflexivity|].
    rewrite stats_cons, stats_single. cbn [stats_add Stats.total].
    rewrite IH, stats_record_total. fold n.
    change (Stats.total stats_zero) with 0.
    change (length (r :: records)) with (S (length records)). lia. }
  split; [exact Ht|]. split; [exact Hn|]. split; [rewrite Ht; nia|].
  split; [reflexivity|].
  clear. induction records as [|r records IH]; [reflexivity|].
  rewrite stats_cons, IH, stats_single. reflexivity.
Qed.

(** ** The generator and the history it is given *)

Lemma action_step_history
  (table : gmap string (gmap string Recommendation.t))
  (currentRecord : PerformanceRecord.t) (l l' : list PerformanceRecord.t)
  (targets : list KPITarget.t) (acc : list ActionItem.t) (k : Kpi) :
  analyzeTrend k currentRecord l = analyzeTrend k currentRecord l' ->
  action_step table currentRecord l targets acc k =
    action_step table currentRecord l' targets acc k.
Proof. intros H. unfold action_step. rewrite H. reflexivity. Qed.

Lemma generateActionItems_history (currentRecord : PerformanceRecord.t)
  (l l' : list PerformanceRecord.t) (targets : list KPITarget.t) :
  member_history currentRecord l = member_history currentRecord l' ->
  generateActionItems currentRecord l targets =
    generateActionItems currentRecord l' targets.
Proof.
  intros H. unfold generateActionItems, generateActionItemsWith. f_equal.
  apply forEach_ext. intros acc k. apply action_step_history.
  apply analyzeTrend_previous_record. unfold previous_record.
  rewrite <- !member_history_filter, H. reflexivity.
Qed.

Lemma filter_filter_and {A : Type} (f g : A -> bool) (l : list A) :
  List.filter f (List.filter g l) = List.filter (fun x => f x && g x) l.
Proof.
  induction l as [|x l IH]; simpl; [reflexivity|].
  destruct (g x) eqn:Hg; simpl.
  - destruct (f x); simpl; rewrite IH; reflexivity.
  - rewrite andb_false_r. exact IH.
Qed.

(** X5.  The generator reads of the history only the records of the
    analyst of the current record: the output on a history is the output on
    its restriction to that analyst, so records of other analysts never
    change an action item. *)
Theorem generateActionItems_member_history
  (currentRecord : PerformanceRecord.t)
  (previousRecords : list PerformanceRecord.t) (targets : list KPITarget.t) :
  generateActionItems currentRecord previousRecords targets =
    generateActionItems currentRecord
      (List.filter
         (fun r =>
            String.eqb (PerformanceRecord.analyst_id r)
              (PerformanceRecord.analyst_id currentRecord))
         previousRecords)
      targets.
Proof.
  apply generateActionItems_history. symmetry.
  pose proof (member_history_filter currentRecord previousRecords) as E.
  unfold same_analyst in E. rewrite <- E.
  apply member_history_idem.
Qed.

(** X6.  [getActionItems] of the reports page returns the empty list when
    no record is selected; for a selected record its own filter on the
    analyst is redundant, the result being the generator's output on the
    loaded records without the record that has the selected id; and the
    record the trend compares with never has the selected id, always has the
    selected analyst and is one of the loaded records. *)
Theorem getActionItems_excludes_selected
  (performanceRecords : list PerformanceRecord.t)
  (targets : list KPITarget.t) :
  getActionItems None performanceRecords targets = JS.Normal [] /\
  forall selected : PerformanceRecord.t,
    getActionItems (Some selected) performanceRecords targets =
      generateActionItems selected
        (without_current selected performanceRecords) targets /\
    forall r,
      previous_record selected (without_current selected performanceRecords)
        = Some r ->
      PerformanceRecord.id r <> PerformanceRecord.id selected /\
      PerformanceRecord.analyst_id r = PerformanceRecord.analyst_id selected /\
      In r performanceRecords.
Proof.
  split; [reflexivity|]. intros selected. split.
  - unfold getActionItems. apply generateActionItems_history.
    rewrite !member_history_filter. unfold without_current.
    rewrite !filter_filter_and. apply filter_ext. intros r.
    unfold same_analyst.
    destruct (String.eqb (PerformanceRecord.analyst_id r)
                (PerformanceRecord.analyst_id selected)); reflexivity.
  - intros r Hr. unfold previous_record in Hr.
    apply head_sort_In, filter_In in Hr as [Hin Hsame].
    apply filter_In in Hin as [Hin Hid].
    apply negb_true_iff, String.eqb_neq in Hid.
    apply String.eqb_eq in Hsame. auto.
Qed.

(** ** Priorities and severities of the output *)

(** X7.  Every item of the output has a priority from 1 to 4; a critical
    item has priority 1, a warning item 1 or 2, an info item 2 or 3, and an
    item has priority 4 exactly when its severity is success. *)
Theorem priority_range (currentRecord : PerformanceRecord.t)
  (previousRecords : list PerformanceRecord.t) (targets : list KPITarget.t)
  (l : list ActionItem.t) (item : ActionItem.t) :
  generateActionItems currentRecord previousRecords targets = JS.Normal l ->
  In item l ->
  1 <= ActionItem.priority item <= 4 /\
  match ActionItem.severity item with
  | critical => ActionItem.priority item = 1
  | warning => ActionItem.priority item = 1 \/ ActionItem.priority item = 2
  | info => ActionItem.priority item = 2 \/ ActionItem.priority item = 3
  | success => ActionItem.priority item = 4
  end /\
  (ActionItem.priority item = 4 -> ActionItem.severity item = success).
Proof.
  intros Hgen Hin.
  destruct (in_generateActionItems _ _ _ _ _ Hgen Hin)
    as (k & t & cell & _ & _ & ->). simpl.
  destruct (band_of _), (PerformanceTrend.trend _); simpl;
    repeat split; try lia; auto; intros H; discriminate H.
Qed.

Lemma priority_range_witness :
  exists l item,
    generateActionItems rec_dec [rec_oct] mockKPITargets = JS.Normal l /\
    In item l /\ 1 <= ActionItem.priority item <= 4.
Proof.
  pose proof (priority_range rec_dec [rec_oct] mockKPITargets) as H.
  remember (generateActionItems rec_dec [rec_oct] mockKPITargets) as g eqn:Hg.
  vm_compute in Hg. subst g.
  eexists _, _. split; [reflexivity|]. split; [left; reflexivity|].
  exact (proj1 (H _ _ eq_refl (or_introl eq_refl))).
Defined.

(** ** With the shipped table nothing is dropped for want of text *)

Lemma items_of_shipped_length (currentRecord : PerformanceRecord.t)
  (previousRecords : list PerformanceRecord.t) (targets : list KPITarget.t)
  (ks : list Kpi) :
  length (flat_map
            (items_of KPI_RECOMMENDATIONS currentRecord previousRecords targets)
            ks) =
    length (List.filter (targeted targets) ks).
Proof.
  induction ks as [|k ks IH]; [reflexivity|].
  cbn [flat_map List.filter]. rewrite length_app, IH.
  unfold items_of, targeted.
  destruct (find_target targets k) as [t|]; [|reflexivity].
  destruct (cell_for_KPI_RECOMMENDATIONS currentRecord k t) as [cell ->].
  reflexivity.
Qed.

Lemma generateActionItems_In_iff (currentRecord : PerformanceRecord.t)
  (previousRecords : list PerformanceRecord.t) (targets : list KPITarget.t)
  (l : list ActionItem.t) (item : ActionItem.t) :
  generateActionItems currentRecord previousRecords targets = JS.Normal l ->
  In item l <->
  exists k t cell,
    find_target targets k = Some t /\
    cell_for KPI_RECOMMENDATIONS currentRecord k t = Some cell /\
    item = item_for currentRecord previousRecords k t cell.
Proof.
  intros Hgen. split; [apply (in_generateActionItems _ _ _ _ _ Hgen)|].
  intros (k & t & cell & H).
  rewrite generateActionItems_items in Hgen. apply Normal_inj in Hgen.
  rewrite <- Hgen. apply sort_In, in_flat_map. exists k. split.
  - destruct k; simpl; tauto.
  - apply in_items. exists t, cell. exact H.
Qed.

(** X8.  With the recommendation table of the source the generator always
    completes normally, a metric has an item exactly when some target carries
    its key, and the number of items is the number of such metrics, at most
    seven; without targets the output is empty. *)
Theorem generateActionItems_one_per_target
  (currentRecord : PerformanceRecord.t)
  (previousRecords : list PerformanceRecord.t) (targets : list KPITarget.t) :
  exists l,
    generateActionItems currentRecord previousRecords targets = JS.Normal l /\
    (forall k : Kpi,
        (exists item, In item l /\ ActionItem.kpi item = kpi_key k) <->
        (exists t, In t targets /\ KPITarget.kpi_name t = kpi_key k)) /\
    length l = length (List.filter (targeted targets) kpiNames) /\
    (length l <= 7)%nat /\
    (targets = [] -> l = []).
Proof.
  eexists. split; [apply generateActionItems_items|].
  pose proof (fun item =>
                generateActionItems_In_iff currentRecord previousRecords
                  targets _ item
                  (generateActionItems_items currentRecord previousRecords
                     targets)) as Hin.
  assert (Hlen : length (JS.sort (by_key ActionItem.priority)
                           (flat_map
                              (items_of KPI_RECOMMENDATIONS currentRecord
                                 previousRecords targets) kpiNames)) =
                 length (List.filter (targeted targets) kpiNames)).
  { rewrite sort_length. apply items_of_shipped_length. }
  split; [|split; [exact Hlen|split]].
  - intros k. split.
    + intros (item & Hitem & Hk).
      apply Hin in Hitem as (k' & t & cell & Ht & _ & ->).
      simpl in Hk. apply kpi_key_inj in Hk as ->. exists t.
      apply find_some in Ht as [Ht Heq]. apply String.eqb_eq in Heq. auto.
    + intros (t & Ht & Hk).
      destruct (find_target targets k) as [t'|] eqn:Hfind.
      * destruct (cell_for_KPI_RECOMMENDATIONS currentRecord k t')
          as [cell Hcell].
        exists (item_for currentRecord previousRecords k t' cell).
        split; [|reflexivity]. apply Hin. exists k, t', cell. auto.
      * exfalso. apply (find_none _ _ Hfind) in Ht.
        apply String.eqb_neq in Ht. contradiction.
  - rewrite Hlen.
    pose proof (filter_length_le (targeted targets) kpiNames) as H.
    change (length kpiNames) with 7%nat in H. exact H.
  - intros ->. apply length_zero_iff_nil. rewrite Hlen. reflexivity.
Qed.

(** ** What an item carries *)

Lemma shipped_cell_text (k : Kpi) (c : Band) (cell : Recommendation.t) :
  (row ← KPI_RECOMMENDATIONS !! kpi_key k; row !! band_key c) = Some cell ->
  (4 <= length (Recommendation.recommendations cell) <= 6)%nat /\
  Recommendation.title cell <> "".
Proof.
  intros H.
  destruct k, c; vm_compute in H; apply (inj Some) in H; subst cell;
    (split; [simpl; lia|discriminate]).
Qed.

Lemma item_id_inj (k k' : Kpi) (rid : string) :
  kpi_key k +:+ "-" +:+ rid = kpi_key k' +:+ "-" +:+ rid -> k = k'.
Proof. destruct k, k'; simpl; intros H; try reflexivity; discriminate H. Qed.

Lemma map_id_items (table : gmap string (gmap string Recommendation.t))
  (currentRecord : PerformanceRecord.t)
  (previousRecords : list PerformanceRecord.t) (targets : list KPITarget.t)
  (ks : list Kpi) :
  map ActionItem.id
    (flat_map (items_of table currentRecord previousRecords targets) ks) =
  map (fun s => s +:+ "-" +:+ PerformanceRecord.id currentRecord)
    (map ActionItem.kpi
       (flat_map (items_of table currentRecord previousRecords targets) ks)).
Proof.
  induction ks as [|k ks IH]; [reflexivity|].
  cbn [flat_map]. rewrite !map_app, IH. f_equal.
  unfold items_of.
  destruct (find_target targets k) as [t|]; [|reflexivity].
  destruct (cell_for table currentRecord k t); reflexivity.
Qed.

(** X9.  Every item of the output has the id [<metric key>-<record id>],
    a non-empty title and from four to six recommendations, and no two items
    of one output share an id. *)
Theorem items_text_and_ids (currentRecord : PerformanceRecord.t)
  (previousRecords : list PerformanceRecord.t) (targets : list KPITarget.t)
  (l : list ActionItem.t) :
  generateActionItems currentRecord previousRecords targets = JS.Normal l ->
  (forall item, In item l ->
     ActionItem.id item =
       ActionItem.kpi item +:+ "-" +:+ PerformanceRecord.id currentRecord /\
     ActionItem.title item <> "" /\
     (4 <= length (ActionItem.recommendations item) <= 6)%nat) /\
  List.NoDup (map ActionItem.id l).
Proof.
  intros Hgen. split.
  - intros item Hin.
    destruct (in_generateActionItems _ _ _ _ _ Hgen Hin)
      as (k & t & cell & _ & Hcell & ->). simpl.
    destruct (shipped_cell_text _ _ _ Hcell) as [Hlen Htitle]. auto.
  - rewrite generateActionItems_items in Hgen. apply Normal_inj in Hgen.
    rewrite <- Hgen.
    eapply Permutation_NoDup.
    { apply Permutation_map. symmetry. apply sort_Permutation. }
    rewrite map_id_items.
    pose proof (items_kpi_sublist KPI_RECOMMENDATIONS currentRecord
                  previousRecords targets kpiNames) as Hsub.
    assert (Hnd : List.NoDup
                    (map ActionItem.kpi
                       (flat_map
                          (items_of KPI_RECOMMENDATIONS currentRecord
                             previousRecords targets) kpiNames))).
    { apply NoDup_ListNoDup.
      eapply sublist_NoDup; [apply NoDup_kpi_keys|exact Hsub]. }
    apply NoDup_map_NoDup_ForallPairs; [|exact Hnd].
    intros a b Ha Hb Heq.
    assert (Hkey : forall s,
               In s (map ActionItem.kpi
                       (flat_map
                          (items_of KPI_RECOMMENDATIONS currentRecord
                             previousRecords targets) kpiNames)) ->
               exists k, s = kpi_key k).
    { intros s Hs. apply list_elem_of_In in Hs.
      apply (elem_of_sublist _ _ _ Hs) in Hsub.
      apply list_elem_of_In, in_map_iff in Hsub as (k & <- & _).
      exists k. reflexivity. }
    destruct (Hkey a Ha) as [ka ->], (Hkey b Hb) as [kb ->].
    f_equal. exact (item_id_inj _ _ _ Heq).
Qed.

Lemma items_text_and_ids_witness :
  exists l,
    generateActionItems rec_oct [rec_sep] mockKPITargets = JS.Normal l /\
    List.NoDup (map ActionItem.id l).
Proof.
  destruct (generateActionItems rec_oct [rec_sep] mockKPITargets)
    as [l|e] eqn:Hgen.
  - exists l. split; [reflexivity|].
    exact (proj2 (items_text_and_ids rec_oct [rec_sep] mockKPITargets l Hgen)).
  - exfalso. rewrite generateActionItems_items in Hgen. discriminate Hgen.
Defined.

(** ** The recommendations of the annual report *)

Lemma before_app_In {A : Type} (l1 l2 : list A) (a b : A) :
  In a l1 -> In b l2 -> before (l1 ++ l2) a b.
Proof.
  induction l1 as [|x l1 IH]; intros Ha Hb; [destruct Ha|].
  destruct Ha as [->|Ha].
  - apply before_here, in_or_app. right. exact Hb.
  - apply before_later, IH; assumption.
Qed.

(** X10.  For a year with at least one record the annual report computes
    its recommendations from the action items of the last record against the
    records before it: they are the first recommendation of each of the first
    five items, or the two stock sentences when there is no item.  There are
    from one to five of them, none is undefined, and no item left out is more
    urgent than an item taken. *)
Theorem annualRecommendations_defined
  (performanceRecords : list PerformanceRecord.t)
  (targets : list KPITarget.t) :
  performanceRecords <> [] ->
  exists latestRecord actionItems l,
    last performanceRecords = Some latestRecord /\
    generateActionItems latestRecord (removelast performanceRecords) targets
      = JS.Normal actionItems /\
    annualRecommendations performanceRecords targets = Some (JS.Normal l) /\
    l = (if actionItems is [] then stock_recommendations
         else map (fun item => head (ActionItem.recommendations item))
                (take 5 actionItems)) /\
    Forall (fun r => is_Some r) l /\
    (1 <= length l <= 5)%nat /\
    forall a b, In a (take 5 actionItems) -> In b (drop 5 actionItems) ->
                ActionItem.priority a <= ActionItem.priority b.
Proof.
  intros Hne.
  destruct (last performanceRecords) as [latestRecord|] eqn:Hlast;
    [|apply last_None in Hlast; contradiction].
  pose proof (generateActionItems_items latestRecord
                (removelast performanceRecords) targets) as Hgen.
  set (actionItems :=
         JS.sort (by_key ActionItem.priority)
           (flat_map
              (items_of KPI_RECOMMENDATIONS latestRecord
                 (removelast performanceRecords) targets) kpiNames)) in Hgen.
  assert (Hhead : forall item, In item actionItems ->
                    is_Some (head (ActionItem.recommendations item))).
  { intros item Hin.
    destruct (in_generateActionItems _ _ _ _ _ Hgen Hin)
      as (k & t & cell & _ & Hcell & ->). simpl.
    destruct (shipped_cell_text _ _ _ Hcell) as [Hlen _].
    destruct (Recommendation.recommendations cell) as [|r rs];
      [simpl in Hlen; lia|]. eexists. reflexivity. }
  assert (Hsorted : forall a b, In a (take 5 actionItems) ->
                      In b (drop 5 actionItems) ->
                      ActionItem.priority a <= ActionItem.priority b).
  { intros a b Ha Hb.
    apply (sort_ascending ActionItem.priority
             (flat_map
                (items_of KPI_RECOMMENDATIONS latestRecord
                   (removelast performanceRecords) targets) kpiNames)).
    fold actionItems. rewrite <- (take_drop 5 actionItems).
    apply before_app_In; assumption. }
  exists latestRecord, actionItems. eexists.
  split; [reflexivity|]. split; [exact Hgen|].
  split; [unfold annualRecommendations; rewrite Hlast, Hgen; reflexivity|].
  destruct actionItems as [|item items] eqn:Hitems.
  - split; [reflexivity|]. split; [|split; [simpl; lia|exact Hsorted]].
    repeat constructor; eexists; reflexivity.
  - split; [reflexivity|]. split; [|split; [|exact Hsorted]].
    + apply Forall_forall. intros r Hr.
      apply list_elem_of_In, in_map_iff in Hr as (x & <- & Hx).
      apply Hhead. apply list_elem_of_In.
      eapply elem_of_sublist; [apply list_elem_of_In, Hx|].
      apply sublist_take.
    + simpl. rewrite length_map, length_take. lia.
Qed.

Lemma annualRecommendations_defined_witness :
  [rec_sep; rec_oct] <> [] /\
  exists l,
    annualRecommendations [rec_sep; rec_oct] mockKPITargets
      = Some (JS.Normal l) /\
    (1 <= length l <= 5)%nat.
Proof.
  assert (Hne : [rec_sep; rec_oct] <> []) by discriminate.
  split; [exact Hne|].
  destruct (annualRecommendations_defined [rec_sep; rec_oct] mockKPITargets
              Hne) as (latest & items & l & _ & _ & Hl & _ & _ & Hlen & _).
  exists l. split; [exact Hl|exact Hlen].
Defined.

(** ** The order of the severities in the output *)

(** X11.  In the output a success item is only followed by success items,
    and a critical item is only preceded by items of priority 1, that is by
    critical items and by warnings of a declining metric. *)
Theorem success_items_last (currentRecord : PerformanceRecord.t)
  (previousRecords : list PerformanceRecord.t) (targets : list KPITarget.t)
  (l : list ActionItem.t) (i j : nat) (a b : ActionItem.t) :
  generateActionItems currentRecord previousRecords targets = JS.Normal l ->
  l !! i = Some a -> l !! j = Some b -> (i < j)%nat ->
  (ActionItem.severity a = success -> ActionItem.severity b = success) /\
  (ActionItem.severity b = critical ->
   ActionItem.priority a = 1 /\
   (ActionItem.severity a = critical \/ ActionItem.severity a = warning)).
Proof.
  intros Hgen Hi Hj Hlt.
  assert (Hle : ActionItem.priority a <= ActionItem.priority b).
  { pose proof (lookup_before l i j a b Hi Hj Hlt) as Hb.
    rewrite generateActionItems_items in Hgen. apply Normal_inj in Hgen.
    rewrite <- Hgen in Hb.
    exact (sort_ascending ActionItem.priority _ a b Hb). }
  assert (Ha : In a l).
  { apply list_elem_of_In, list_elem_of_lookup. exists i. exact Hi. }
  assert (Hb : In b l).
  { apply list_elem_of_In, list_elem_of_lookup. exists j. exact Hj. }
  destruct (in_generateActionItems _ _ _ _ _ Hgen Ha)
    as (ka & ta & ca & _ & _ & ->).
  destruct (in_generateActionItems _ _ _ _ _ Hgen Hb)
    as (kb & tb & cb & _ & _ & ->).
  simpl in *.
  destruct (band_of (achievement (get_kpi currentRecord ka) _)),
    (PerformanceTrend.trend (analyzeTrend ka _ _)),
    (band_of (achievement (get_kpi currentRecord kb) _)),
    (PerformanceTrend.trend (analyzeTrend kb _ _));
    simpl in *; split; intros H; try discriminate H; try lia; auto.
Qed.

Lemma success_items_last_witness :
  exists l a b,
    generateActionItems rec_oct [rec_sep] mockKPITargets = JS.Normal l /\
    l !! 5%nat = Some a /\ l !! 6%nat = Some b /\ (5 < 6)%nat /\
    (ActionItem.severity b = critical -> ActionItem.priority a = 1).
Proof.
  pose proof (success_items_last rec_oct [rec_sep] mockKPITargets) as H.
  remember (generateActionItems rec_oct [rec_sep] mockKPITargets) as g eqn:Hg.
  vm_compute in Hg. subst g.
  eexists _, _, _. split; [reflexivity|].
  split; [reflexivity|]. split; [reflexivity|]. split; [lia|].
  intros Hc.
  apply (proj2 (H _ 5%nat 6%nat _ _ eq_refl eq_refl eq_refl
                  ltac:(lia)) Hc).
Defined.

(** ** Display names *)

Lemma kpiDisplayNames_lookup (s d : string) :
  kpiDisplayNames !! s = Some d ->
  exists k, s = kpi_key k /\ kpiDisplayNames !! kpi_key k = Some d.
Proof.
  intros H. apply elem_of_list_to_map_2, list_elem_of_In in H.
  simpl in H.
  repeat (destruct H as [H|H];
          [injection H as <- <-;
           first [ exists outreaches; split; reflexivity
                 | exists live_links; split; reflexivity
                 | exists high_da_links; split; reflexivity
                 | exists content_distribution; split; reflexivity
                 | exists new_blogs; split; reflexivity
                 | exists blog_optimizations; split; reflexivity
                 | exists top_5_keywords; split; reflexivity ]|]).
  destruct H.
Qed.

Lemma formatKPIName_key (k : Kpi) :
  exists d,
    kpiDisplayNames !! kpi_key k = Some d /\
    formatKPIName (kpi_key k) = Some d /\
    formatKPIName d = Some d /\
    d <> kpi_key k /\ d <> "".
Proof.
  destruct k; eexists;
    (split; [vm_compute; reflexivity|]);
    (split; [vm_compute; reflexivity|]);
    (split; [vm_compute; reflexivity|]); split; discriminate.
Qed.

(** X12.  [formatKPIName] gives each of the seven metric keys a non-empty
    display name that differs from the key, distinct keys having distinct
    names; it returns any other string unchanged, except the names inherited
    from [Object.prototype], for which alone the result is not a string; and
    formatting a result again changes nothing. *)
Theorem formatKPIName_display :
  (forall k : Kpi, exists d,
      formatKPIName (kpi_key k) = Some d /\ d <> kpi_key k /\ d <> "") /\
  (forall k k' : Kpi,
      formatKPIName (kpi_key k) = formatKPIName (kpi_key k') -> k = k') /\
  (forall s : string,
      (forall k, s <> kpi_key k) -> ~ In s Object_prototype_names ->
      formatKPIName s = Some s) /\
  (forall s : string,
      formatKPIName s = None <-> In s Object_prototype_names) /\
  (forall s d : string, formatKPIName s = Some d -> formatKPIName d = Some d).
Proof.
  assert (Hex : forall s, existsb (String.eqb s) Object_prototype_names = true
                          <-> In s Object_prototype_names).
  { intros s. rewrite existsb_exists. split.
    - intros (x & Hx & Heq). apply String.eqb_eq in Heq. subst x. exact Hx.
    - intros Hs. exists s. split; [exact Hs|apply String.eqb_refl]. }
  assert (Hother : forall s, (forall k, s <> kpi_key k) ->
                     kpiDisplayNames !! s = None).
  { intros s Hs. destruct (kpiDisplayNames !! s) as [d|] eqn:Hd;
      [|reflexivity].
    apply kpiDisplayNames_lookup in Hd as (k & -> & _).
    destruct (Hs k eq_refl). }
  split; [|split; [|split; [|split]]].
  - intros k. destruct (formatKPIName_key k) as (d & _ & Hd & _ & Hne & Hnn).
    exists d. auto.
  - intros k k'. destruct k, k'; vm_compute; intros H; try reflexivity;
      discriminate H.
  - intros s Hs Hproto. unfold formatKPIName. rewrite (Hother s Hs).
    destruct (existsb _ _) eqn:He; [|reflexivity].
    apply Hex in He. contradiction.
  - intros s. unfold formatKPIName.
    destruct (kpiDisplayNames !! s) as [d|] eqn:Hd.
    + split; [intros H; discriminate H|]. intros Hin. exfalso.
      apply kpiDisplayNames_lookup in Hd as (k & -> & _).
      destruct k; simpl in Hin; decompose [or] Hin; try discriminate;
        assumption.
    + rewrite <- Hex. destruct (existsb _ _); split; intros H;
        try reflexivity; discriminate H.
  - intros s d Hs. unfold formatKPIName in Hs.
    destruct (kpiDisplayNames !! s) as [d'|] eqn:Hd.
    + apply kpiDisplayNames_lookup in Hd as (k & -> & Hk).
      destruct (formatKPIName_key k) as (d0 & Hd0 & _ & Hidem & _ & Hnn).
      rewrite Hk in Hd0. injection Hd0 as ->.
      apply String.eqb_neq in Hnn. rewrite Hnn in Hs. injection Hs as <-.
      exact Hidem.
    + destruct (existsb _ _) eqn:He; [discriminate Hs|].
      injection Hs as <-. unfold formatKPIName. rewrite Hd, He. reflexivity.
Qed.

Lemma formatKPIName_display_witness :
  (forall k, "Unknown KPI" <> kpi_key k) /\
  ~ In "Unknown KPI" Object_prototype_names /\
  formatKPIName "Unknown KPI" = Some "Unknown KPI".
Proof.
  assert (H1 : forall k, "Unknown KPI" <> kpi_key k)
    by (intros k; destruct k; discriminate).
  assert (H2 : ~ In "Unknown KPI" Object_prototype_names).
  { simpl. intros H. decompose [or] H; try discriminate; assumption. }
  split; [exact H1|]. split; [exact H2|].
  exact (proj1 (proj2 (proj2 formatKPIName_display)) _ H1 H2).
Defined.

(** ** The targets of the comparison chart *)

Lemma find_app_first {A : Type} (p : A -> bool) (l1 l2 : list A) :
  List.find p (l1 ++ l2) =
    match List.find p l1 with
    | Some x => Some x
    | None => List.find p l2
    end.
Proof.
  induction l1 as [|x l1 IH]; simpl; [reflexivity|].
  destruct (p x); [reflexivity|exact IH].
Qed.

Lemma kpi_key_not_proto (k : Kpi) : kpi_key k <> "__proto__".
Proof. destruct k; discriminate. Qed.

Lemma targetMap_fold (targets : list KPITarget.t) (k : Kpi)
  (acc : gmap string JS.number) :
  fold_left
    (fun acc target =>
       if String.eqb (KPITarget.kpi_name target) "__proto__" then acc
       else <[KPITarget.kpi_name target := thirteen_months target]> acc)
    targets acc !! kpi_key k =
    match find_target (rev targets) k with
    | Some t => Some (thirteen_months t)
    | None => acc !! kpi_key k
    end.
Proof.
  revert acc. induction targets as [|t targets IH]; intros acc;
    [reflexivity|].
  cbn [fold_left rev]. rewrite IH. unfold find_target at 2.
  rewrite find_app_first. fold (find_target (rev targets) k).
  destruct (find_target (rev targets) k) as [t'|]; [reflexivity|].
  cbn [List.find].
  destruct (String.eqb_spec (KPITarget.kpi_name t) (kpi_key k)) as [Heq|Hne].
  - destruct (String.eqb_spec (KPITarget.kpi_name t) "__proto__") as [Hp|_].
    + rewrite Heq in Hp. destruct (kpi_key_not_proto k Hp).
    + rewrite Heq. apply lookup_insert_eq.
  - destruct (String.eqb (KPITarget.kpi_name t) "__proto__"); [reflexivity|].
    apply lookup_insert_ne. exact Hne.
Qed.

(** X13.  The comparison chart keeps for a metric the value of the last
    target that carries its key, thirteen times its monthly target, whereas
    the action items and the statistics use the first such target.  Both agree
    when at most one target carries the key, and there are target lists on
    which they differ. *)
Theorem targetMap_last_wins :
  (forall (targets : list KPITarget.t) (k : Kpi),
      targetMap targets !! kpi_key k =
        option_map thirteen_months (find_target (rev targets) k)) /\
  (forall (targets : list KPITarget.t) (k : Kpi),
      (forall t t', In t targets -> In t' targets ->
                    KPITarget.kpi_name t = kpi_key k ->
                    KPITarget.kpi_name t' = kpi_key k -> t = t') ->
      targetMap targets !! kpi_key k =
        option_map thirteen_months (find_target targets k)) /\
  (exists (targets : list KPITarget.t) (k : Kpi),
      targetMap targets !! kpi_key k <>
        option_map thirteen_months (find_target targets k)).
Proof.
  assert (Hlast : forall targets k,
             targetMap targets !! kpi_key k =
               option_map thirteen_months (find_target (rev targets) k)).
  { intros targets k. unfold targetMap.
    rewrite targetMap_fold.
    destruct (find_target (rev targets) k); [reflexivity|apply lookup_empty]. }
  split; [exact Hlast|]. split.
  - intros targets k Huniq. rewrite Hlast. f_equal.
    destruct (find_target (rev targets) k) as [t|] eqn:Hrev,
             (find_target targets k) as [t'|] eqn:Hfst.
    + apply find_some in Hrev as [Hin Hk], Hfst as [Hin' Hk'].
      apply in_rev in Hin. apply String.eqb_eq in Hk, Hk'.
      f_equal. apply Huniq; assumption.
    + apply find_some in Hrev as [Hin Hk]. apply in_rev in Hin.
      apply (find_none _ _ Hfst) in Hin. congruence.
    + apply find_some in Hfst as [Hin Hk]. apply in_rev in Hin.
      apply (find_none _ _ Hrev) in Hin. congruence.
    + reflexivity.
  - exists [outreach_target; zero_target], outreaches.
    rewrite Hlast. vm_compute. intros H. discriminate H.
Qed.

Lemma targetMap_last_wins_witness :
  (forall t t', In t mockKPITargets -> In t' mockKPITargets ->
                KPITarget.kpi_name t = kpi_key live_links ->
                KPITarget.kpi_name t' = kpi_key live_links -> t = t') /\
  targetMap mockKPITargets !! kpi_key live_links =
    option_map thirteen_months (find_target mockKPITargets live_links).
Proof.
  assert (H : forall t t', In t mockKPITargets -> In t' mockKPITargets ->
                KPITarget.kpi_name t = kpi_key live_links ->
                KPITarget.kpi_name t' = kpi_key live_links -> t = t').
  { intros t t' Ht Ht' Hk Hk'. simpl in Ht, Ht'.
    decompose [or] Ht; decompose [or] Ht'; subst; try contradiction;
      try discriminate; reflexivity. }
  split; [exact H|].
  exact (proj1 (proj2 targetMap_last_wins) mockKPITargets live_links H).
Defined.

(** ** Signs of the computed percentages *)

Lemma binary_round_aux_not_negative (m e : Z) (l : location) :
  not_negative (binary_round_aux JS.prec JS.emax false m e l).
Proof.
  unfold binary_round_aux.
  destruct (shr_fexp JS.prec JS.emax m e l) as [mrs e'].
  destruct (shr_fexp JS.prec JS.emax _ e' loc_Exact) as [mrs' e''].
  destruct (shr_m mrs'); simpl; [reflexivity| |exact I].
  destruct (e'' <=? _); reflexivity.
Qed.

Lemma of_Z_not_negative (z : Z) : 0 <= z -> not_negative (JS.of_Z z).
Proof.
  intros Hz. destruct z as [|p|p]; [reflexivity| |lia].
  unfold JS.of_Z, binary_normalize, binary_round.
  destruct (shl_align _ _ _) as [mz ez].
  apply binary_round_aux_not_negative.
Qed.

Lemma div_not_negative (x y : JS.number) :
  not_negative x -> not_negative y -> not_negative (JS.div x y).
Proof.
  destruct x as [sx|sx| |sx mx ex], y as [sy|sy| |sy my ey]; simpl;
    intros Hx Hy; subst; try reflexivity; try exact I.
  destruct (SFdiv_core_binary _ _ _ _ _ _) as [[mz ez] lz].
  apply binary_round_aux_not_negative.
Qed.

Lemma mul_not_negative (x y : JS.number) :
  not_negative x -> not_negative y -> not_negative (JS.mul x y).
Proof.
  destruct x as [sx|sx| |sx mx ex], y as [sy|sy| |sy my ey]; simpl;
    intros Hx Hy; subst; try reflexivity; try exact I.
  apply binary_round_aux_not_negative.
Qed.

Lemma Math_round_not_negative (x : JS.number) :
  not_negative x ->
  match JS.Math_round x with
  | JS.Int z => 0 <= z
  | JS.NaN | JS.PosInf => True
  | JS.NegInf => False
  end.
Proof.
  destruct x as [s|s| |s m e]; simpl; intros Hx; subst; try exact I; [lia|].
  destruct e as [|e|e].
  - lia.
  - pose proof (Z.pow_pos_nonneg 2 (Z.pos e)). lia.
  - assert (Hp : 0 < 2 ^ Z.pos e) by (apply Z.pow_pos_nonneg; lia).
    apply Z.div_pos; lia.
Qed.

(** X14.  When the count and the target are not negative, the achievement
    percentage is never a negative number and never [-Infinity]: it is a
    non-negative integer, [+Infinity] or [NaN]. *)
Theorem achievement_not_negative (actual target : Z) :
  0 <= actual -> 0 <= target ->
  match achievement actual target with
  | JS.Int z => 0 <= z
  | JS.NaN | JS.PosInf => True
  | JS.NegInf => False
  end.
Proof.
  intros Ha Ht. unfold achievement.
  apply Math_round_not_negative, mul_not_negative;
    [apply div_not_negative|]; apply of_Z_not_negative; lia.
Qed.

Lemma achievement_not_negative_witness :
  0 <= 400 /\ 0 <= 525 /\
  match achievement 400 525 with
  | JS.Int z => 0 <= z
  | JS.NaN | JS.PosInf => True
  | JS.NegInf => False
  end.
Proof.
  split; [lia|]. split; [lia|].
  apply achievement_not_negative; lia.
Defined.

Lemma achievement_zero_target (actual : Z) :
  0 <= actual ->
  achievement actual 0 = JS.PosInf \/ achievement actual 0 = JS.NaN.
Proof.
  intros Ha. pose proof (of_Z_not_negative actual Ha) as Hn.
  unfold achievement.
  change (JS.of_Z 0) with (S754_zero false).
  let v := eval vm_compute in (JS.of_Z 100) in change (JS.of_Z 100) with v.
  destruct (JS.of_Z actual) as [s|s| |s m e]; simpl in Hn; subst; simpl; auto.
Qed.

(** X15.  Against a monthly target of 0 every metric with a non-negative
    count gets an item: the achievement is [Infinity] or [NaN], never a number,
    so the metric is classified Good and reported with severity success and
    priority 4. *)
Theorem zero_target_reported_good (currentRecord : PerformanceRecord.t)
  (previousRecords : list PerformanceRecord.t) (targets : list KPITarget.t)
  (k : Kpi) (t : KPITarget.t) :
  find_target targets k = Some t ->
  KPITarget.monthly_target t = 0 ->
  0 <= get_kpi currentRecord k ->
  (forall z : Z, achievement (get_kpi currentRecord k) 0 <> JS.Int z) /\
  getPerformanceCategory (achievement (get_kpi currentRecord k) 0)
    = category_at 3 /\
  exists l item,
    generateActionItems currentRecord previousRecords targets = JS.Normal l /\
    In item l /\
    ActionItem.kpi item = kpi_key k /\
    ActionItem.severity item = success /\
    ActionItem.priority item = 4.
Proof.
  intros Ht Hz Hpos.
  pose proof (achievement_zero_target _ Hpos) as Hach.
  split; [|split].
  - intros z. destruct Hach as [-> | ->]; discriminate.
  - destruct Hach as [-> | ->]; reflexivity.
  - destruct (cell_for_KPI_RECOMMENDATIONS currentRecord k t) as [cell Hcell].
    eexists. exists (item_for currentRecord previousRecords k t cell).
    split; [apply generateActionItems_items|].
    split.
    + apply (generateActionItems_In_iff currentRecord previousRecords targets
               _ _ (generateActionItems_items _ _ _)).
      exists k, t, cell. auto.
    + unfold item_for. cbn [ActionItem.kpi ActionItem.severity
                            ActionItem.priority].
      rewrite Hz.
      destruct Hach as [-> | ->];
        (split; [reflexivity|]); split; try reflexivity;
        destruct (PerformanceTrend.trend _); reflexivity.
Qed.

Lemma zero_target_reported_good_witness :
  find_target [zero_target] outreaches = Some zero_target /\
  KPITarget.monthly_target zero_target = 0 /\
  0 <= get_kpi rec_zero outreaches /\
  getPerformanceCategory (achievement (get_kpi rec_zero outreaches) 0)
    = category_at 3.
Proof.
  assert (H1 : find_target [zero_target] outreaches = Some zero_target)
    by reflexivity.
  assert (H2 : KPITarget.monthly_target zero_target = 0) by reflexivity.
  assert (H3 : 0 <= get_kpi rec_zero outreaches) by (simpl; lia).
  split; [exact H1|]. split; [exact H2|]. split; [exact H3|].
  exact (proj1 (proj2 (zero_target_reported_good rec_zero [] [zero_target]
                         outreaches zero_target H1 H2 H3))).
Defined.

(** ** The badges of the records table and the statistics *)

Lemma find_target_key (targets : list KPITarget.t) (k : Kpi) :
  List.find (fun t => String.eqb (KPITarget.kpi_name t) (kpi_key k)) targets
    = find_target targets k.
Proof. reflexivity. Qed.

(** X16.  For a metric the statistics grade (its first target is
    positive) the badge of the records table shows the very percentage the
    statistics classify; for any other metric the badge shows 0, hence
    Critical, although the statistics do not count the metric at all. *)
Theorem badge_and_statistics (record : PerformanceRecord.t)
  (targets : list KPITarget.t) (s : Stats.t) (k : Kpi) :
  let rate :=
    calculateAchievementRate (get_kpi record k)
      (getTargetForKPI targets (kpi_key k)) in
  (graded targets k = true ->
   exists t,
     find_target targets k = Some t /\ 0 < KPITarget.monthly_target t /\
     rate = achievement (get_kpi record k) (KPITarget.monthly_target t) /\
     stats_step targets record s k = bump (band_of rate) s) /\
  (graded targets k = false ->
   rate = JS.Int 0 /\
   getPerformanceCategory rate = category_at 0 /\
   stats_step targets record s k = s).
Proof.
  intros rate. subst rate. unfold getTargetForKPI, graded.
  rewrite find_target_key, stats_step_cases.
  destruct (find_target targets k) as [t|] eqn:Ht.
  - unfold or_else, calculateAchievementRate.
    destruct (Z.ltb_spec 0 (KPITarget.monthly_target t)) as [Hpos|Hle].
    + split; [|intros H; discriminate H]. intros _. exists t.
      destruct (Z.eqb_spec (KPITarget.monthly_target t) 0) as [H0|_]; [lia|].
      destruct (Z.ltb_spec 0 (KPITarget.monthly_target t)); [|lia]. auto.
    + split; [intros H; discriminate H|]. intros _.
      destruct (Z.eqb_spec (KPITarget.monthly_target t) 0) as [H0|_].
      * simpl. auto.
      * destruct (Z.ltb_spec 0 (KPITarget.monthly_target t)); [lia|]. auto.
  - split; [intros H; discriminate H|]. intros _. simpl. auto.
Qed.

Lemma badge_and_statistics_witness :
  graded mockKPITargets outreaches = true /\
  exists t,
    find_target mockKPITargets outreaches = Some t /\
    calculateAchievementRate (get_kpi rec_sep outreaches)
      (getTargetForKPI mockKPITargets (kpi_key outreaches))
      = achievement (get_kpi rec_sep outreaches) (KPITarget.monthly_target t).
Proof.
  assert (H : graded mockKPITargets outreaches = true) by reflexivity.
  split; [exact H|].
  destruct (proj1 (badge_and_statistics rec_sep mockKPITargets stats_zero
                     outreaches) H) as (t & Ht & _ & Hr & _).
  exists t. auto.
Defined.

(** X17.  When no metric is graded (no target, or only targets that are
    not positive) the overall badge of a record shows 0, while the statistics
    of that record count nothing. *)
Theorem avgAchievement_ungraded (record : PerformanceRecord.t)
  (targets : list KPITarget.t) :
  (forall k, graded targets k = false) ->
  avgAchievement record targets = JS.Int 0 /\
  getPerformanceCategoryStats [record] targets = stats_zero.
Proof.
  intros Hun.
  assert (Hrow : rowAchievements record targets =
                 map (fun _ => JS.Int 0) kpiNames).
  { unfold rowAchievements. apply map_ext. intros k.
    specialize (Hun k). unfold graded in Hun.
    destruct (find_target targets k) as [t|]; [|reflexivity].
    unfold calculateAchievementRate. rewrite Hun. reflexivity. }
  split.
  - unfold avgAchievement. rewrite Hrow. vm_compute. reflexivity.
  - rewrite stats_single.
    assert (Hks : forall ks st,
               fold_left (stats_step targets record) ks st = st).
    { induction ks as [|k ks IH]; intros st; simpl; [reflexivity|].
      rewrite stats_step_cases. specialize (Hun k). unfold graded in Hun.
      destruct (find_target targets k) as [t|]; [rewrite Hun|]; apply IH. }
    apply Hks.
Qed.

Lemma avgAchievement_ungraded_witness :
  (forall k, graded [zero_target] k = false) /\
  avgAchievement rec_five [zero_target] = JS.Int 0.
Proof.
  assert (H : forall k, graded [zero_target] k = false)
    by (intros k; destruct k; reflexivity).
  split; [exact H|].
  exact (proj1 (avgAchievement_ungraded rec_five [zero_target] H)).
Defined.

(** ** The order of the history does not matter *)

Lemma filter_Permutation_list {A : Type} (f : A -> bool) (l l' : list A) :
  Permutation l l' -> Permutation (List.filter f l) (List.filter f l').
Proof.
  induction 1 as [|x l l' _ IH|x y l|l l' l'' _ IH1 _ IH2]; simpl.
  - constructor.
  - destruct (f x); [constructor|]; exact IH.
  - destruct (f x), (f y); try reflexivity. apply perm_swap.
  - etransitivity; eassumption.
Qed.

Lemma NoDup_map_app_cons {A B : Type} (g : A -> B) (l1 l2 : list A) (r x : A) :
  List.NoDup (map g (l1 ++ r :: l2)) -> In x (l1 ++ l2) -> g x <> g r.
Proof.
  rewrite map_app. cbn [map]. intros Hnd Hx Heq.
  apply NoDup_remove_2 in Hnd. apply Hnd.
  rewrite <- map_app, <- Heq. apply in_map, Hx.
Qed.

(** X18.  When the historical records of the analyst are well dated and
    no two of them fall in the same month (the uniqueness constraint of the
    table), the trend does not depend on the order in which the history is
    given: any permutation of it yields the same result. *)
Theorem analyzeTrend_order_independent (k : Kpi)
  (currentRecord : PerformanceRecord.t)
  (l l' : list PerformanceRecord.t) :
  Forall well_dated (member_history currentRecord l) ->
  List.NoDup (map months (member_history currentRecord l)) ->
  Permutation l l' ->
  analyzeTrend k currentRecord l = analyzeTrend k currentRecord l'.
Proof.
  intros Hwd Hnd Hperm.
  apply analyzeTrend_previous_record.
  pose proof (filter_Permutation_list (same_analyst currentRecord) l l' Hperm)
    as Hp.
  rewrite <- !member_history_filter in Hp.
  assert (Hcase : member_history currentRecord l = [] \/
                  member_history currentRecord l <> []).
  { destruct (member_history currentRecord l);
      [left; reflexivity|right; discriminate]. }
  destruct Hcase as [Hnil|Hne].
  { rewrite Hnil in Hp. apply Permutation_nil in Hp.
    rewrite (previous_record_none _ _ Hnil), (previous_record_none _ _ Hp).
    reflexivity. }
  destruct (latest_exists _ Hwd Hne) as (l1 & r & l2 & Heq & H1 & H2).
  assert (Hwd' : Forall well_dated (member_history currentRecord l')).
  { rewrite List.Forall_forall in *. intros x Hx. apply Hwd.
    apply (Permutation_in _ (Permutation_sym Hp)). exact Hx. }
  assert (Hr : well_dated r).
  { rewrite List.Forall_forall in Hwd. apply Hwd. rewrite Heq. apply in_elt. }
  assert (Hstrict : forall x, In x (l1 ++ l2) -> earlier x r).
  { intros x Hx.
    assert (Hxw : well_dated x).
    { rewrite List.Forall_forall in Hwd. apply Hwd. rewrite Heq.
      apply in_app_or in Hx as [Hx|Hx]; apply in_or_app;
        [left|right; right]; exact Hx. }
    rewrite Heq in Hnd.
    pose proof (NoDup_map_app_cons months l1 l2 r x Hnd Hx) as Hneq.
    apply earlier_months; [assumption..|].
    apply in_app_or in Hx as [Hx|Hx].
    - rewrite List.Forall_forall in H1. specialize (H1 x Hx).
      apply earlier_months in H1; [exact H1|assumption..].
    - rewrite List.Forall_forall in H2. specialize (H2 x Hx).
      apply not_later_months in H2; [lia|assumption..]. }
  assert (Hin' : In r (member_history currentRecord l')).
  { apply (Permutation_in _ Hp). rewrite Heq. apply in_elt. }
  apply in_split in Hin' as (l1' & l2' & Heq').
  assert (Hp' : Permutation (l1 ++ l2) (l1' ++ l2')).
  { apply (Permutation_app_inv l1 l2 l1' l2' r).
    rewrite <- Heq, <- Heq'. exact Hp. }
  assert (Hlatest : latest_prior currentRecord l r).
  { exists l1, l2. auto. }
  assert (Hlatest' : latest_prior currentRecord l' r).
  { exists l1', l2'. split; [exact Heq'|].
    split; apply List.Forall_forall; intros x Hx.
    - apply Hstrict, (Permutation_in _ (Permutation_sym Hp')), in_or_app.
      left. exact Hx.
    - assert (He : earlier x r).
      { apply Hstrict, (Permutation_in _ (Permutation_sym Hp')), in_or_app.
        right. exact Hx. }
      destruct He as [He|[He1 He2]]; [left; exact He|right; split; [|lia]].
      exact He1. }
  rewrite (previous_record_latest _ _ _ Hwd Hlatest).
  rewrite (previous_record_latest _ _ _ Hwd' Hlatest'). reflexivity.
Qed.

Lemma analyzeTrend_order_independent_witness :
  Forall well_dated (member_history rec_dec [rec_sep; rec_oct]) /\
  List.NoDup (map months (member_history rec_dec [rec_sep; rec_oct])) /\
  Permutation [rec_sep; rec_oct] [rec_oct; rec_sep] /\
  analyzeTrend outreaches rec_dec [rec_sep; rec_oct] =
    analyzeTrend outreaches rec_dec [rec_oct; rec_sep].
Proof.
  assert (H1 : Forall well_dated (member_history rec_dec [rec_sep; rec_oct])).
  { change (member_history rec_dec [rec_sep; rec_oct])
      with [rec_sep; rec_oct].
    constructor; [exact well_dated_rec_sep|].
    constructor; [|constructor].
    split; [exists 10; split; [reflexivity|lia]|simpl; lia]. }
  assert (H2 : List.NoDup
                 (map months (member_history rec_dec [rec_sep; rec_oct]))).
  { change (map months (member_history rec_dec [rec_sep; rec_oct]))
      with [24309; 24310].
    constructor; [simpl; lia|]. constructor; [simpl; tauto|constructor]. }
  assert (H3 : Permutation [rec_sep; rec_oct] [rec_oct; rec_sep])
    by apply perm_swap.
  split; [exact H1|]. split; [exact H2|]. split; [exact H3|].
  exact (analyzeTrend_order_independent outreaches rec_dec _ _ H1 H2 H3).
Defined.

(** ** The entries of the annual report *)






(** ** The trend icon is read back from the description *)

Lemma includes_skip (c : ascii) (w a b : string) :
  has_char c a = false ->
  includes (String c w) (a +:+ b) = includes (String c w) b.
Proof.
  induction a as [|x a IH]; intros Ha; [reflexivity|].
  cbn [has_char] in Ha. apply orb_false_iff in Ha as [Hx Ha].
  change (String x a +:+ b) with (String x (a +:+ b)).
  cbn [includes].
  assert (Hp : String.prefix (String c w) (String x (a +:+ b)) = false).
  { cbn [String.prefix]. destruct (ascii_dec c x) as [->|_]; [|reflexivity].
    rewrite Ascii.eqb_refl in Hx. discriminate Hx. }
  rewrite Hp. apply IH, Ha.
Qed.

Lemma pretty_N_char_not (c : ascii) (n : N) :
  has_char c "0123456789" = false -> Ascii.eqb c (pretty_N_char n) = false.
Proof.
  intros H. cbn [has_char] in H.
  repeat (apply orb_false_iff in H as [? H]).
  unfold pretty_N_char. repeat case_match; assumption.
Qed.

Lemma pretty_N_go_has_char (c : ascii) (x : N) (s : string) :
  has_char c "0123456789" = false ->
  has_char c (pretty_N_go x s) = has_char c s.
Proof.
  intros Hc. revert s.
  induction (N.lt_wf_0 x) as [x _ IH]; intros s.
  destruct (decide (x = 0)%N) as [->|Hx].
  - rewrite pretty_N_go_0. reflexivity.
  - rewrite pretty_N_go_step by lia.
    rewrite IH by (apply N.div_lt; lia).
    cbn [has_char]. rewrite (pretty_N_char_not c _ Hc). reflexivity.
Qed.

Lemma pretty_Z_plain (z : Z) : plain (pretty z).
Proof.
  assert (HN : forall n : N, plain (pretty n)).
  { intros n. unfold pretty, pretty_N.
    destruct (decide (n = 0)%N); [split; reflexivity|].
    split; rewrite pretty_N_go_has_char; reflexivity. }
  destruct z as [|p|p].
  - split; reflexivity.
  - apply (HN (N.pos p)).
  - destruct (HN (N.pos p)) as [Hi Hd].
    split; unfold pretty, pretty_Z; cbn [String.append has_char];
      [exact Hi|exact Hd].
Qed.

Lemma toString_number_text (r : JS.rounded) : number_text (JS.toString r).
Proof.
  destruct r; simpl;
    [apply number_plain, pretty_Z_plain|apply number_nan|apply number_inf
    |apply number_neg_inf].
Qed.

Lemma plain_skip (w a b : string) (c : ascii) :
  plain a -> c = "i"%char \/ c = "d"%char ->
  includes (String c w) (a +:+ b) = includes (String c w) b.
Proof.
  intros [Hi Hd] [-> | ->]; apply includes_skip; assumption.
Qed.

Lemma append_cons (c : ascii) (s t : string) :
  String c s +:+ t = String c (s +:+ t).
Proof. reflexivity. Qed.

Lemma append_nil (t : string) : "" +:+ t = t.
Proof. reflexivity. Qed.

Ltac walk :=
  repeat first
    [ rewrite plain_skip by (first [assumption | auto])
    | rewrite append_nil
    | rewrite append_cons
    | progress simpl ].

Lemma skip_head (w n1 n2 rest : string) :
  plain n1 -> plain n2 -> w = "improving" \/ w = "declining" ->
  includes w
    ("Current: " +:+ n1 +:+ " | Target: " +:+ n2 +:+ " | Achievement: " +:+
     rest) = includes w rest.
Proof. intros H1 H2 [-> | ->]; walk; reflexivity. Qed.

Lemma skip_number (w n rest : string) :
  number_text n -> w = "improving" \/ w = "declining" ->
  includes w (n +:+ "% | Trend: " +:+ rest) = includes w rest.
Proof. intros [n' Hn| | |] [-> | ->]; walk; reflexivity. Qed.

Lemma trend_tail (n sign : string) (t : Trend) :
  number_text n -> sign = "+" \/ sign = "" ->
  includes "improving" (trend_string t +:+ " (" +:+ sign +:+ n +:+ "%)") =
    (if t is improving then true else false) /\
  includes "declining" (trend_string t +:+ " (" +:+ sign +:+ n +:+ "%)") =
    (if t is declining then true else false).
Proof.
  intros [n' Hn| | |] [-> | ->]; destruct t; cbn [trend_string];
    split; walk; reflexivity.
Qed.

(** The description template keeps the trend word readable: whatever the
    numbers are, searching it for the two words finds the trend. *)
Lemma template_icon (n1 n2 n3 n4 sign : string) (t : Trend) :
  plain n1 -> plain n2 -> number_text n3 -> number_text n4 ->
  sign = "+" \/ sign = "" ->
  getTrendIcon
    ("Current: " +:+ n1 +:+ " | Target: " +:+ n2 +:+ " | Achievement: " +:+
     n3 +:+ "% | Trend: " +:+ trend_string t +:+ " (" +:+ sign +:+ n4 +:+
     "%)") = icon_of t.
Proof.
  intros H1 H2 H3 H4 Hs. unfold getTrendIcon.
  rewrite !skip_head, !skip_number by auto.
  destruct (trend_tail n4 sign t H4 Hs) as [-> ->].
  destruct t; reflexivity.
Qed.

(** X20.  The icon the panel derives from an item's description by
    searching it for the words improving and declining is the icon of the
    trend the generator computed for the item's metric: up for improving,
    down for declining, and the dash for stable, whatever numbers the
    description holds. *)
Theorem getTrendIcon_reads_trend (currentRecord : PerformanceRecord.t)
  (previousRecords : list PerformanceRecord.t) (targets : list KPITarget.t)
  (l : list ActionItem.t) (item : ActionItem.t) :
  generateActionItems currentRecord previousRecords targets = JS.Normal l ->
  In item l ->
  exists k,
    ActionItem.kpi item = kpi_key k /\
    getTrendIcon (ActionItem.description item) =
      icon_of (PerformanceTrend.trend
                 (analyzeTrend k currentRecord previousRecords)).
Proof.
  intros Hgen Hin.
  destruct (in_generateActionItems _ _ _ _ _ Hgen Hin)
    as (k & t & cell & _ & _ & ->).
  exists k. split; [reflexivity|].
  cbn [item_for ActionItem.description]. unfold describe.
  apply template_icon;
    try apply pretty_Z_plain; try apply toString_number_text.
  destruct (JS.gtb _ 0); auto.
Qed.

Lemma getTrendIcon_reads_trend_witness :
  exists l item,
    generateActionItems rec_dec [rec_oct] mockKPITargets = JS.Normal l /\
    In item l /\
    exists k,
      ActionItem.kpi item = kpi_key k /\
      getTrendIcon (ActionItem.description item) =
        icon_of (PerformanceTrend.trend (analyzeTrend k rec_dec [rec_oct])).
Proof.
  pose proof (getTrendIcon_reads_trend rec_dec [rec_oct] mockKPITargets) as H.
  remember (generateActionItems rec_dec [rec_oct] mockKPITargets) as g eqn:Hg.
  vm_compute in Hg. subst g.
  eexists _, _. split; [reflexivity|]. split; [left; reflexivity|].
  exact (H _ _ eq_refl (or_introl eq_refl)).
Defined.

(** ** The summary per analyst and the team insights *)

Lemma fold_left_zsum {X : Type} (f : X -> Z) (l : list X) (z : Z) :
  fold_left (fun sum x => sum + f x) l z = z + zsum (map f l).
Proof.
  revert z. induction l as [|x l IH]; intros z; simpl; [lia|].
  rewrite IH. lia.
Qed.

Lemma summary_get_set_eq (summary : list (string * AnalystSummary.t))
  (name : string) (s : AnalystSummary.t) :
  summary_get (summary_set summary name s) name = Some s.
Proof.
  induction summary as [|[n s0] rest IH]; simpl.
  - rewrite String.eqb_refl. reflexivity.
  - destruct (String.eqb n name) eqn:Hn; simpl; rewrite Hn; [reflexivity|].
    exact IH.
Qed.

Lemma summary_get_set_ne (summary : list (string * AnalystSummary.t))
  (name name' : string) (s : AnalystSummary.t) :
  name <> name' ->
  summary_get (summary_set summary name s) name' = summary_get summary name'.
Proof.
  intros Hne. induction summary as [|[n s0] rest IH]; simpl.
  - apply String.eqb_neq in Hne. rewrite Hne. reflexivity.
  - destruct (String.eqb n name) eqn:Hn; simpl.
    + apply String.eqb_eq in Hn. subst n.
      apply String.eqb_neq in Hne. rewrite Hne. reflexivity.
    + destruct (String.eqb n name'); [reflexivity|exact IH].
Qed.

Lemma zsum_summary_set (f : AnalystSummary.t -> Z)
  (summary : list (string * AnalystSummary.t)) (name : string)
  (s : AnalystSummary.t) :
  zsum (map f (map snd (summary_set summary name s))) =
    zsum (map f (map snd summary))
    - match summary_get summary name with
      | Some s0 => f s0
      | None => 0
      end
    + f s.
Proof.
  induction summary as [|[n s0] rest IH]; simpl; [lia|].
  destruct (String.eqb n name); simpl; lia.
Qed.

Lemma length_summary_set (summary : list (string * AnalystSummary.t))
  (name : string) (s : AnalystSummary.t) :
  length (summary_set summary name s) =
    match summary_get summary name with
    | Some _ => length summary
    | None => S (length summary)
    end.
Proof.
  induction summary as [|[n s0] rest IH]; simpl; [reflexivity|].
  destruct (String.eqb n name); simpl; [reflexivity|].
  rewrite IH. destruct (summary_get rest name); reflexivity.
Qed.

(** The counts of one record agree with the statistics of that record. *)
Lemma grades_and_stats (targets : list KPITarget.t)
  (record : PerformanceRecord.t) (ks : list Kpi) (g : RecordGrades.t)
  (s : Stats.t) :
  RecordGrades.criticalCount g = Stats.critical s ->
  RecordGrades.goodCount g = Stats.good s ->
  let g' := fold_left (grade_step targets record) ks g in
  let s' := fold_left (stats_step targets record) ks s in
  RecordGrades.criticalCount g' = Stats.critical s' /\
  RecordGrades.goodCount g' = Stats.good s'.
Proof.
  revert g s. induction ks as [|k ks IH]; intros g s Hc Hg; [split; assumption|].
  cbn [fold_left]. apply IH; rewrite stats_step_cases; unfold grade_step;
    destruct (find_target targets k) as [t|]; try assumption;
    destruct (0 <? KPITarget.monthly_target t); try assumption;
    rewrite getPerformanceCategory_band;
    destruct (band_of _); simpl; lia.
Qed.

Lemma record_grades_stats (targets : list KPITarget.t)
  (record : PerformanceRecord.t) :
  RecordGrades.criticalCount (record_grades targets record) =
    Stats.critical (getPerformanceCategoryStats [record] targets) /\
  RecordGrades.goodCount (record_grades targets record) =
    Stats.good (getPerformanceCategoryStats [record] targets).
Proof.
  rewrite stats_single. unfold record_grades.
  apply grades_and_stats; reflexivity.
Qed.

Lemma summary_step_plain (targets : list KPITarget.t)
  (summary : list (string * AnalystSummary.t)) (row : PerformanceRow.t) :
  ~ In (analystName row) Object_prototype_names ->
  exists s,
    summary_step targets summary row =
      Some (summary_set summary (analystName row) s) /\
    AnalystSummary.criticalKPIs s =
      match summary_get summary (analystName row) with
      | Some s0 => AnalystSummary.criticalKPIs s0
      | None => 0
      end + RecordGrades.criticalCount
              (record_grades targets (PerformanceRow.record row)) /\
    AnalystSummary.goodKPIs s =
      match summary_get summary (analystName row) with
      | Some s0 => AnalystSummary.goodKPIs s0
      | None => 0
      end + RecordGrades.goodCount
              (record_grades targets (PerformanceRow.record row)) /\
    AnalystSummary.totalRecords s =
      match summary_get summary (analystName row) with
      | Some s0 => AnalystSummary.totalRecords s0
      | None => 0
      end + 1 /\
    AnalystSummary.averagePerformance s =
      record_average targets (PerformanceRow.record row).
Proof.
  intros Hplain. unfold summary_step.
  destruct (existsb _ Object_prototype_names) eqn:He.
  { exfalso. apply Hplain. apply existsb_exists in He as (x & Hx & Heq).
    apply String.eqb_eq in Heq. subst x. exact Hx. }
  eexists. split; [reflexivity|].
  unfold record_average. change (Z.of_nat (length kpiNames)) with 7.
  destruct (summary_get summary (analystName row));
    cbn [AnalystSummary.totalRecords AnalystSummary.averagePerformance
         AnalystSummary.criticalKPIs AnalystSummary.goodKPIs
         AnalystSummary.lastMonthData];
    repeat split; reflexivity.
Qed.

Lemma summary_from_totals (targets : list KPITarget.t)
  (rows : list PerformanceRow.t) (summary : list (string * AnalystSummary.t)) :
  plain_names rows ->
  exists summary',
    getAnalystPerformanceSummaryFrom targets rows summary = Some summary' /\
    zsum (map AnalystSummary.criticalKPIs (map snd summary')) =
      zsum (map AnalystSummary.criticalKPIs (map snd summary)) +
      Stats.critical
        (getPerformanceCategoryStats (map PerformanceRow.record rows) targets) /\
    zsum (map AnalystSummary.goodKPIs (map snd summary')) =
      zsum (map AnalystSummary.goodKPIs (map snd summary)) +
      Stats.good
        (getPerformanceCategoryStats (map PerformanceRow.record rows) targets) /\
    zsum (map AnalystSummary.totalRecords (map snd summary')) =
      zsum (map AnalystSummary.totalRecords (map snd summary)) +
      Z.of_nat (length rows) /\
    (length summary <= length summary' <= length summary + length rows)%nat.
Proof.
  revert summary. induction rows as [|row rows IH]; intros summary Hplain.
  - exists summary. cbn [getAnalystPerformanceSummaryFrom map length].
    split; [reflexivity|].
    change (getPerformanceCategoryStats [] targets) with stats_zero.
    simpl. repeat split; lia.
  - inversion Hplain as [|? ? Hrow Hrows]; subst.
    destruct (summary_step_plain targets summary row Hrow)
      as (s & Hstep & Hc & Hg & Hn & _).
    cbn [getAnalystPerformanceSummaryFrom]. rewrite Hstep.
    destruct (IH (summary_set summary (analystName row) s) Hrows)
      as (summary' & Hfrom & Hc' & Hg' & Hn' & Hlen).
    exists summary'. split; [exact Hfrom|].
    rewrite Hc', Hg', Hn'. rewrite !zsum_summary_set, Hc, Hg, Hn.
    cbn [map]. rewrite stats_cons. cbn [stats_add Stats.critical Stats.good].
    destruct (record_grades_stats targets (PerformanceRow.record row))
      as [-> ->].
    rewrite length_summary_set in Hlen.
    change (length (row :: rows)) with (S (length rows)).
    destruct (summary_get summary (analystName row));
      repeat split; lia.
Qed.

(** X21.  When no analyst is named like a member of [Object.prototype],
    the team insights exist and agree with the category statistics over the
    same records: the critical total is the statistics' critical count and the
    good total the statistics' good count; the summaries account for every
    record once; and there are at most as many analysts as records. *)
Theorem team_insights_match_statistics (rows : list PerformanceRow.t)
  (targets : list KPITarget.t) :
  plain_names rows ->
  exists analystSummary insights,
    getAnalystPerformanceSummary rows targets = Some analystSummary /\
    getTeamInsights rows targets = Some insights /\
    let stats :=
      getPerformanceCategoryStats (map PerformanceRow.record rows) targets in
    TeamInsights.totalCriticalKPIs insights = Stats.critical stats /\
    TeamInsights.totalGoodKPIs insights = Stats.good stats /\
    zsum (map AnalystSummary.totalRecords (map snd analystSummary)) =
      Z.of_nat (length rows) /\
    TeamInsights.totalAnalysts insights = Z.of_nat (length analystSummary) /\
    0 <= TeamInsights.totalAnalysts insights <= Z.of_nat (length rows).
Proof.
  intros Hplain.
  destruct (summary_from_totals targets rows [] Hplain)
    as (summary' & Hfrom & Hc & Hg & Hn & Hlen).
  fold (getAnalystPerformanceSummary rows targets) in Hfrom.
  exists summary'. eexists. split; [exact Hfrom|].
  unfold getTeamInsights. rewrite Hfrom. split; [reflexivity|].
  cbn [TeamInsights.totalCriticalKPIs TeamInsights.totalGoodKPIs
       TeamInsights.totalAnalysts].
  rewrite !fold_left_zsum, Hc, Hg, Hn. simpl in Hlen. simpl zsum.
  repeat split; lia.
Qed.

Lemma team_insights_match_statistics_witness :
  let rows :=
    [ {| PerformanceRow.record := rec_sep;
         PerformanceRow.analysts := Some seo_analyst |};
      {| PerformanceRow.record := rec_oct; PerformanceRow.analysts := None |} ]
  in
  plain_names rows /\
  exists insights,
    getTeamInsights rows mockKPITargets = Some insights /\
    TeamInsights.totalCriticalKPIs insights =
      Stats.critical
        (getPerformanceCategoryStats (map PerformanceRow.record rows)
           mockKPITargets).
Proof.
  intros rows.
  assert (H : plain_names rows).
  { repeat constructor; simpl; intros H; decompose [or] H;
      try discriminate; assumption. }
  split; [exact H|].
  destruct (team_insights_match_statistics rows mockKPITargets H)
    as (summary & insights & _ & Hi & Hc & _).
  exists insights. split; [exact Hi|exact Hc].
Defined.

Lemma summary_from_app (targets : list KPITarget.t)
  (l1 l2 : list PerformanceRow.t) (summary : list (string * AnalystSummary.t)) :
  getAnalystPerformanceSummaryFrom targets (l1 ++ l2) summary =
    match getAnalystPerformanceSummaryFrom targets l1 summary with
    | Some summary' => getAnalystPerformanceSummaryFrom targets l2 summary'
    | None => None
    end.
Proof.
  revert summary. induction l1 as [|row l1 IH]; intros summary; [reflexivity|].
  cbn [app getAnalystPerformanceSummaryFrom].
  destruct (summary_step targets summary row); [apply IH|reflexivity].
Qed.

Lemma summary_step_inv (targets : list KPITarget.t)
  (summary summary' : list (string * AnalystSummary.t))
  (row : PerformanceRow.t) :
  summary_step targets summary row = Some summary' ->
  exists s,
    summary' = summary_set summary (analystName row) s /\
    AnalystSummary.totalRecords s =
      match summary_get summary (analystName row) with
      | Some s0 => AnalystSummary.totalRecords s0
      | None => 0
      end + 1 /\
    AnalystSummary.averagePerformance s =
      record_average targets (PerformanceRow.record row) /\
    AnalystSummary.lastMonthData s =
      match summary_get summary (analystName row) with
      | Some s0 =>
          match AnalystSummary.lastMonthData s0 with
          | Some lastMonthData =>
              if later_than (PerformanceRow.record row)
                   (PerformanceRow.record lastMonthData)
              then Some row
              else Some lastMonthData
          | None => Some row
          end
      | None => Some row
      end.
Proof.
  unfold summary_step.
  destruct (existsb _ Object_prototype_names); [intros H; discriminate H|].
  intros H. apply (inj Some) in H. subst summary'.
  eexists. split; [reflexivity|].
  unfold record_average. change (Z.of_nat (length kpiNames)) with 7.
  destruct (summary_get summary (analystName row));
    cbn [AnalystSummary.totalRecords AnalystSummary.averagePerformance
         AnalystSummary.criticalKPIs AnalystSummary.goodKPIs
         AnalystSummary.lastMonthData];
    repeat split; reflexivity.
Qed.

Lemma rows_of_app (name : string) (l1 l2 : list PerformanceRow.t) :
  rows_of name (l1 ++ l2) = (rows_of name l1 ++ rows_of name l2)%list.
Proof. apply List.filter_app. Qed.

Lemma later_than_months (a b : PerformanceRecord.t) :
  well_dated a -> well_dated b ->
  later_than a b = true <-> months b < months a.
Proof.
  intros Ha Hb. unfold later_than.
  rewrite (record_time_well_dated _ Ha), (record_time_well_dated _ Hb).
  rewrite Z.ltb_lt. lia.
Qed.

(** What the summary holds for a name after all rows have been read. *)
Lemma summary_entry (targets : list KPITarget.t)
  (rows : list PerformanceRow.t) :
  forall (summary : list (string * AnalystSummary.t)) (name : string),
    getAnalystPerformanceSummaryFrom targets rows [] = Some summary ->
    match summary_get summary name with
    | None => rows_of name rows = []
    | Some s =>
        AnalystSummary.totalRecords s =
          Z.of_nat (length (rows_of name rows)) /\
        (exists pre row post,
            rows = (pre ++ row :: post)%list /\
            analystName row = name /\
            Forall (fun r => analystName r <> name) post /\
            AnalystSummary.averagePerformance s =
              record_average targets (PerformanceRow.record row)) /\
        (Forall (fun r => well_dated (PerformanceRow.record r))
           (rows_of name rows) ->
         exists row l1 l2,
           AnalystSummary.lastMonthData s = Some row /\
           rows_of name rows = (l1 ++ row :: l2)%list /\
           Forall (fun x => earlier (PerformanceRow.record x)
                              (PerformanceRow.record row)) l1 /\
           Forall (fun x => not_later (PerformanceRow.record x)
                              (PerformanceRow.record row)) l2)
    end.
Proof.
  induction rows as [|new rows IH] using rev_ind; intros summary name Hfrom.
  - cbn in Hfrom. apply (inj Some) in Hfrom. subst summary. reflexivity.
  - rewrite summary_from_app in Hfrom.
    destruct (getAnalystPerformanceSummaryFrom targets rows [])
      as [summary0|] eqn:H0; [|discriminate Hfrom].
    cbn [getAnalystPerformanceSummaryFrom] in Hfrom.
    destruct (summary_step targets summary0 new) as [summary1|] eqn:Hstep;
      [|discriminate Hfrom].
    apply (inj Some) in Hfrom. subst summary1.
    apply summary_step_inv in Hstep as (s & -> & Hn & Havg & Hlast).
    specialize (IH summary0 name eq_refl).
    rewrite rows_of_app.
    destruct (String.eqb_spec (analystName new) name) as [Heq|Hne].
    + assert (Hone : rows_of name [new] = [new]).
      { unfold rows_of. cbn [List.filter]. apply String.eqb_eq in Heq.
        rewrite Heq. reflexivity. }
      rewrite Hone. rewrite Heq in *. rewrite summary_get_set_eq.
      split; [|split].
      * rewrite Hn, length_app. cbn [length].
        destruct (summary_get summary0 name) as [s0|];
          [destruct IH as [-> _]|rewrite IH; cbn [length]]; lia.
      * exists rows, new, []. repeat split; [assumption|constructor|assumption].
      * intros Hwd. apply Forall_app in Hwd as [Hwd Hnew].
        apply Forall_inv in Hnew.
        destruct (summary_get summary0 name) as [s0|].
        -- destruct IH as (_ & _ & IH).
           destruct (IH Hwd) as (last & l1 & l2 & Hl & Hrows & H1 & H2).
           rewrite Hlast, Hl. rewrite Hrows in Hwd |- *.
           assert (Hlw : well_dated (PerformanceRow.record last)).
           { rewrite List.Forall_forall in Hwd. apply Hwd, in_elt. }
           destruct (later_than (PerformanceRow.record new)
                       (PerformanceRow.record last)) eqn:Hlt.
           ++ apply later_than_months in Hlt; [|assumption..].
              exists new, (l1 ++ last :: l2)%list, [].
              split; [reflexivity|]. split; [reflexivity|].
              split; [|constructor].
              rewrite List.Forall_forall in *. intros x Hx.
              assert (Hxw : well_dated (PerformanceRow.record x))
                by (apply Hwd, Hx).
              apply earlier_months; [assumption..|].
              apply in_app_or in Hx as [Hx|[<-|Hx]].
              ** specialize (H1 x Hx).
                 apply earlier_months in H1; [lia|assumption..].
              ** lia.
              ** specialize (H2 x Hx).
                 apply not_later_months in H2; [lia|assumption..].
           ++ exists last, l1, (l2 ++ [new])%list.
              split; [reflexivity|].
              split; [rewrite <- app_assoc; reflexivity|].
              split; [exact H1|].
              apply Forall_app. split; [exact H2|].
              constructor; [|constructor].
              apply not_later_months; [assumption..|].
              destruct (Z.lt_ge_cases (months (PerformanceRow.record last))
                          (months (PerformanceRow.record new)))
                as [Hlt'|Hge]; [|lia].
              apply later_than_months in Hlt'; [|assumption..]. congruence.
        -- rewrite IH, Hlast. exists new, [], [].
           repeat split; constructor.
    + assert (Hone : rows_of name [new] = []).
      { unfold rows_of. cbn [List.filter]. apply String.eqb_neq in Hne.
        rewrite Hne. reflexivity. }
      rewrite Hone. rewrite (summary_get_set_ne _ _ _ _ Hne), app_nil_r.
      destruct (summary_get summary0 name) as [s0|]; [|exact IH].
      destruct IH as (Hcount & (pre & row & post & Hrows & Hname & Hpost & Ha)
                      & Hl).
      split; [exact Hcount|]. split; [|exact Hl].
      exists pre, row, (post ++ [new])%list.
      split; [rewrite Hrows, <- app_assoc; reflexivity|].
      split; [exact Hname|]. split; [|exact Ha].
      apply Forall_app. split; [exact Hpost|]. constructor; [exact Hne|].
      constructor.
Qed.

(** X22.  The average the summary shows for an analyst is not a mean over
    the analyst's records: it is the figure of the last of the analyst's rows
    in data order alone, namely the rounded seventh of the sum of the
    achievements of that row's graded metrics.  The analyst has a summary
    exactly when some row carries the name, and [totalRecords] counts those
    rows. *)
Theorem summary_average_is_last_row (rows : list PerformanceRow.t)
  (targets : list KPITarget.t) (summary : list (string * AnalystSummary.t))
  (name : string) :
  getAnalystPerformanceSummary rows targets = Some summary ->
  (summary_get summary name = None <-> rows_of name rows = []) /\
  forall s, summary_get summary name = Some s ->
    AnalystSummary.totalRecords s = Z.of_nat (length (rows_of name rows)) /\
    exists pre row post,
      rows = (pre ++ row :: post)%list /\
      analystName row = name /\
      Forall (fun r => analystName r <> name) post /\
      AnalystSummary.averagePerformance s =
        JS.Math_round
          (JS.div
             (RecordGrades.totalAchievement
                (record_grades targets (PerformanceRow.record row)))
             (JS.of_Z 7)).
Proof.
  intros Hsum. pose proof (summary_entry targets rows summary name Hsum) as H.
  split.
  - destruct (summary_get summary name) as [s|].
    + destruct H as (Hcount & (pre & row & post & -> & Hname & _) & _).
      split; [intros Hn; discriminate Hn|]. intros Hnil. exfalso.
      rewrite rows_of_app in Hnil. unfold rows_of at 2 in Hnil.
      cbn [List.filter] in Hnil. apply String.eqb_eq in Hname.
      rewrite Hname in Hnil. apply app_eq_nil in Hnil as [_ Hnil].
      discriminate Hnil.
    + split; auto.
  - intros s Hs. rewrite Hs in H. destruct H as (Hcount & Hrow & _). auto.
Qed.

Lemma summary_average_is_last_row_witness :
  exists summary s,
    getAnalystPerformanceSummary sample_rows mockKPITargets = Some summary /\
    summary_get summary "Demo Analyst" = Some s /\
    AnalystSummary.totalRecords s = 2.
Proof.
  destruct (getAnalystPerformanceSummary sample_rows mockKPITargets)
    as [summary|] eqn:Hsum; [|vm_compute in Hsum; discriminate Hsum].
  destruct (summary_get summary "Demo Analyst") as [s|] eqn:Hs.
  - exists summary, s. split; [reflexivity|]. split; [exact Hs|].
    exact (proj1 (proj2 (summary_average_is_last_row sample_rows mockKPITargets
                           summary "Demo Analyst" Hsum) s Hs)).
  - exfalso.
    apply (proj1 (summary_average_is_last_row sample_rows mockKPITargets
                    summary "Demo Analyst" Hsum)) in Hs.
    discriminate Hs.
Defined.

(** X23.  When the rows of an analyst are well dated, the record the
    summary keeps as [lastMonthData] is the analyst's latest one, and the
    first in data order of those sharing the latest month: every row of the
    analyst before it is earlier and no row after it is later. *)
Theorem summary_last_month_is_latest (rows : list PerformanceRow.t)
  (targets : list KPITarget.t) (summary : list (string * AnalystSummary.t))
  (name : string) (s : AnalystSummary.t) :
  getAnalystPerformanceSummary rows targets = Some summary ->
  summary_get summary name = Some s ->
  Forall (fun r => well_dated (PerformanceRow.record r)) (rows_of name rows) ->
  exists row l1 l2,
    AnalystSummary.lastMonthData s = Some row /\
    rows_of name rows = (l1 ++ row :: l2)%list /\
    Forall (fun x => earlier (PerformanceRow.record x)
                       (PerformanceRow.record row)) l1 /\
    Forall (fun x => not_later (PerformanceRow.record x)
                       (PerformanceRow.record row)) l2.
Proof.
  intros Hsum Hs Hwd.
  pose proof (summary_entry targets rows summary name Hsum) as H.
  rewrite Hs in H. destruct H as (_ & _ & H). exact (H Hwd).
Qed.

Lemma summary_last_month_is_latest_witness :
  exists summary s row,
    getAnalystPerformanceSummary sample_rows mockKPITargets = Some summary /\
    summary_get summary "Demo Analyst" = Some s /\
    Forall (fun r => well_dated (PerformanceRow.record r))
      (rows_of "Demo Analyst" sample_rows) /\
    AnalystSummary.lastMonthData s = Some row.
Proof.
  assert (Hwd : Forall (fun r => well_dated (PerformanceRow.record r))
                  (rows_of "Demo Analyst" sample_rows)).
  { change (rows_of "Demo Analyst" sample_rows) with sample_rows.
    constructor; [exact well_dated_rec_sep|].
    constructor; [|constructor].
    split; [exists 10; split; [reflexivity|lia]|simpl; lia]. }
  destruct (getAnalystPerformanceSummary sample_rows mockKPITargets)
    as [summary|] eqn:Hsum; [|vm_compute in Hsum; discriminate Hsum].
  destruct (summary_get summary "Demo Analyst") as [s|] eqn:Hs.
  - destruct (summary_last_month_is_latest sample_rows mockKPITargets summary
                "Demo Analyst" s Hsum Hs Hwd) as (row & l1 & l2 & Hl & _).
    exists summary, s, row. auto.
  - exfalso.
    pose proof (summary_entry mockKPITargets sample_rows summary
                  "Demo Analyst" Hsum) as H.
    rewrite Hs in H. discriminate H.
Defined.

(** ** The achievement percentage and the exact ratio *)

(** X24.  For a count and a positive target of the range of an SQL integer,
    the achievement percentage is an integer nearest to the exact percentage
    [100 * actual / target]: the two roundings of binary64 arithmetic never
    move it further than one half from the exact value, and when the exact
    percentage is an integer, the achievement is that integer. *)
Theorem achievement_nearest (actual target : Z) :
  sql_integer actual -> sql_integer target -> 0 < target ->
  exists z,
    achievement actual target = JS.Int z /\
    nearest_integer (100 * actual) target z /\
    (forall q, 100 * actual = q * target -> z = q).
Proof.
  intros [Ha1 Ha2] [Ht1 Ht2] Hpos. change (2 ^ 31) with 2147483648 in *.
  destruct (percent_nearest actual target) as (z & Ez & Hn).
  { change (2 ^ 42) with 4398046511104. lia. }
  { change (2 ^ 53) with 9007199254740992. lia. }
  exists z. split; [exact Ez|].
  assert (Hz : nearest_integer (100 * actual) target z).
  { unfold nearest_integer.
    replace (2 * (100 * actual)) with (200 * actual) by ring. exact Hn. }
  split; [exact Hz|].
  intros q Hq. unfold nearest_integer in Hz. rewrite Hq in Hz.
  replace (2 * (q * target) - 2 * target * z)
    with (target * (2 * (q - z))) in Hz by ring.
  destruct (Z.lt_trichotomy q z) as [Hlt|[Heq|Hgt]]; [|symmetry; exact Heq|].
  - assert (target * (2 * (q - z)) <= target * (-2))
      by (apply Z.mul_le_mono_nonneg_l; lia). lia.
  - assert (target * 2 <= target * (2 * (q - z)))
      by (apply Z.mul_le_mono_nonneg_l; lia). lia.
Qed.

Lemma achievement_nearest_witness :
  sql_integer 450 /\ sql_integer 400 /\ 0 < 400 /\
  exists z, achievement 450 400 = JS.Int z /\
            nearest_integer (100 * 450) 400 z.
Proof.
  assert (H1 : sql_integer 450) by (unfold sql_integer; simpl; lia).
  assert (H2 : sql_integer 400) by (unfold sql_integer; simpl; lia).
  assert (H3 : 0 < 400) by lia.
  split; [exact H1|]. split; [exact H2|]. split; [exact H3|].
  destruct (achievement_nearest 450 400 H1 H2 H3) as (z & Ez & Hz & _).
  exists z. split; [exact Ez|exact Hz].
Defined.
